(** * Stonks: portfolio valuation engine, currency service and daily snapshots

    A shallow embedding of the valuation core of the repository:

    - the holdings fold of [GET /api/portfolio] (src/unnamed/part_002) and
      its copy inside [calculateLivePortfolioValue]
      (src/src/app/api/portfolio/snapshot/route.ts);
    - the currency service of src/src/lib/currency.ts;
    - [createPortfolioSnapshot] of src/src/lib/asset-pricing.ts;
    - the series construction of [GET /api/portfolio/snapshot];
    - the transaction [POST] handler of src/unnamed/part_003;
    - the price functions of src/src/lib/asset-pricing.ts, the scheduler of
      src/src/lib/scheduler.ts, the exchange-rate update route, the
      authorization header and the settings handler.

    Conventions of the model.

    - A JavaScript [number] that carries an amount, a price, a quantity or a
      rate is an exact rational ([Q]); equalities between amounts are stated
      with [==].  Infinities and binary rounding are outside the model; the
      only NaN that the code can meet comes from [parseFloat], where it is
      [None].
    - A [Decimal(p, s)] column keeps what it is given rounded to [s]
      decimals, half away from zero, and refuses what does not fit.
    - A field of a JSON request body is a [Json] value, tested and
      converted as the handler does it, not a value of the type the handler
      hopes for.
    - A [Date] is its epoch value in milliseconds ([Z]).  The process runs
      at a fixed offset [tz] from UTC, so a local day is always
      [msPerDay] long.
    - A JavaScript object used as a dictionary, and a [Map], are
      insertion-ordered association lists ([Dict]): assigning to an
      existing key keeps its position, a new key goes last.
    - A database table is the list of its rows in insertion order; besides
      the refusals named above and its unique keys, the database does not
      fail.
    - What the outside world answers (the rate provider, the price
      adapter, the exchange-rate endpoint, the clock) is an explicit
      argument; the clock does not move during one call. *)

From Stdlib Require Import QArith Qabs Qround ZArith List String Ascii Bool Lia Lqa.
From Equations Require Import Equations.
Import ListNotations.

Local Open Scope Q_scope.
Local Open Scope string_scope.

(** ** Numbers *)

(** [x > y] on JavaScript numbers. *)
Definition Qgtb (x y : Q) : bool := negb (Qle_bool x y).

(** Truthiness of a number: everything but zero. *)
Definition truthyNum (x : Q) : bool := negb (Qeq_bool x 0).

(** ** Enumerations of the Prisma schema (src/unnamed/part_001) *)

Inductive Currency : Type := CAD | USD.

Inductive TransactionType : Type := BUY | SELL | DEPOSIT | WITHDRAWAL.

Definition currency_eqb (a b : Currency) : bool :=
  match a, b with
  | CAD, CAD | USD, USD => true
  | _, _ => false
  end.

Definition currencyName (c : Currency) : string :=
  match c with CAD => "CAD" | USD => "USD" end.

(** The currency that a string names, if any
    ([['CAD', 'USD'].includes(...)]). *)
Definition parseCurrency (s : string) : option Currency :=
  if String.eqb s "CAD" then Some CAD
  else if String.eqb s "USD" then Some USD
  else None.

(** ** Insertion-ordered dictionaries *)

Section Dict.
Context {K V : Type}.
Variable eqb : K -> K -> bool.

Definition Dict : Type := list (K * V).

Fixpoint dget (k : K) (d : Dict) : option V :=
  match d with
  | [] => None
  | (k', v) :: r => if eqb k k' then Some v else dget k r
  end.

Fixpoint dset (k : K) (v : V) (d : Dict) : Dict :=
  match d with
  | [] => [(k, v)]
  | (k', v') :: r =>
      if eqb k k' then (k, v) :: r else (k', v') :: dset k v r
  end.

Definition dhas (k : K) (d : Dict) : bool :=
  match dget k d with Some _ => true | None => false end.

Definition dvalues (d : Dict) : list V := map snd d.
End Dict.

Arguments Dict : clear implicits.

(** ** Data model *)

(** model Transaction (src/unnamed/part_001, l.31-46). *)
Record Transaction : Type := mkTransaction {
  tx_userId   : string;
  tx_symbol   : string;
  tx_type     : TransactionType;
  tx_quantity : Q;
  tx_price    : Q;
  tx_currency : Currency;
  tx_date     : Z
}.

(** interface HoldingData (src/unnamed/part_002, l.7-18). *)
Record HoldingData : Type := mkHolding {
  symbol          : string;
  quantity        : Q;
  avgPrice        : Q;
  currentPrice    : Q;
  currency        : Currency;
  totalValue      : Q;
  totalCost       : Q;
  gainLoss        : Q;
  gainLossPercent : Q;
  isCash          : bool
}.

(** ** Holdings Calculator

    The body of [transactions.forEach] (part_002 l.42-99; route.ts
    l.53-110 is the same text). *)

Record Ledger : Type := mkLedger {
  holdings     : Dict string HoldingData;
  cashBalances : Dict Currency Q
}.

Definition emptyLedger : Ledger := mkLedger [] [].

Definition holdingKey (s : string) (c : Currency) : string :=
  s ++ "-" ++ currencyName c.

(** The object literal of l.62-73. *)
Definition newHolding (t : Transaction) : HoldingData :=
  mkHolding (tx_symbol t) 0 0 0 (tx_currency t) 0 0 0 0 false.

(** Assignment to [quantity], [avgPrice] and [totalCost] of a holding. *)
Definition setPosition (h : HoldingData) (q a c : Q) : HoldingData :=
  mkHolding (symbol h) q a (currentPrice h) (currency h) (totalValue h) c
            (gainLoss h) (gainLossPercent h) (isCash h).

(** l.79-85. *)
Definition applyBuy (h : HoldingData) (t : Transaction) : HoldingData :=
  let transactionValue := tx_quantity t * tx_price t in
  let newTotalCost := totalCost h + transactionValue in
  let newQuantity := quantity h + tx_quantity t in
  setPosition h newQuantity
    (if Qgtb newQuantity 0 then newTotalCost / newQuantity else 0)
    newTotalCost.

(** l.86-97. *)
Definition applySell (h : HoldingData) (t : Transaction) : HoldingData :=
  let sellCost := tx_quantity t * avgPrice h in
  let q := quantity h - tx_quantity t in
  let c := totalCost h - sellCost in
  if Qle_bool q 0 then setPosition h 0 0 0 else setPosition h q (avgPrice h) c.

(** [cashBalances[currency]] read as a number after the
    [if (!cashBalances[currency]) cashBalances[currency] = 0] of l.46-48. *)
Definition initCash (c : Currency) (cb : Dict Currency Q) : Dict Currency Q :=
  match dget currency_eqb c cb with
  | Some b => if truthyNum b then cb else dset currency_eqb c 0 cb
  | None => dset currency_eqb c 0 cb
  end.

Definition cashOf (c : Currency) (cb : Dict Currency Q) : Q :=
  match dget currency_eqb c cb with Some b => b | None => 0 end.

Definition applyTransaction (st : Ledger) (t : Transaction) : Ledger :=
  match tx_type t with
  | DEPOSIT | WITHDRAWAL =>
      let c := tx_currency t in
      let cb := initCash c (cashBalances st) in
      let amount := tx_quantity t * tx_price t in
      let b :=
        match tx_type t with
        | DEPOSIT => cashOf c cb + amount
        | _ => cashOf c cb - amount
        end in
      mkLedger (holdings st) (dset currency_eqb c b cb)
  | _ =>
      let key := holdingKey (tx_symbol t) (tx_currency t) in
      let hs :=
        if dhas String.eqb key (holdings st) then holdings st
        else dset String.eqb key (newHolding t) (holdings st) in
      match dget String.eqb key hs with
      | None => mkLedger hs (cashBalances st)
      | Some holding =>
          let holding' :=
            match tx_type t with
            | BUY => applyBuy holding t
            | SELL => applySell holding t
            | _ => holding
            end in
          mkLedger (dset String.eqb key holding' hs) (cashBalances st)
      end
  end.

Definition foldTransactions (transactions : list Transaction) : Ledger :=
  fold_left applyTransaction transactions emptyLedger.

(** l.101-118: every strictly positive balance becomes a [CASH] holding. *)
Definition cashHolding (c : Currency) (balance : Q) : HoldingData :=
  mkHolding "CASH" balance 1 1 c balance balance 0 0 true.

Definition addCashPositions (st : Ledger) : Dict string HoldingData :=
  fold_left
    (fun hs '(c, balance) =>
       if Qgtb balance 0
       then dset String.eqb ("CASH-" ++ currencyName c) (cashHolding c balance) hs
       else hs)
    (cashBalances st) (holdings st).

(** l.120-121. *)
Definition activeHoldings (hs : Dict string HoldingData) : list HoldingData :=
  filter (fun h => Qgtb (quantity h) 0) (dvalues hs).

Definition holdingsOf (transactions : list Transaction) : list HoldingData :=
  activeHoldings (addCashPositions (foldTransactions transactions)).

(** Totals of a ledger of purchases. *)
Definition totalBought (l : list Transaction) : Q :=
  fold_right (fun t acc => tx_quantity t + acc) 0 l.

Definition totalSpent (l : list Transaction) : Q :=
  fold_right (fun t acc => tx_quantity t * tx_price t + acc) 0 l.

Definition buysOf (s : string) (c : Currency) (l : list Transaction) : Prop :=
  Forall (fun t => tx_type t = BUY /\ tx_symbol t = s /\ tx_currency t = c) l.

(** ** Price Source Adapter

    [getOrFetchCurrentPrice] and [getCurrentPrices] (asset-pricing.ts) are
    consumed through what they answer for a symbol at the time of the
    request: an [AssetPrice] or [null]. *)

Record AssetPrice : Type := mkAssetPrice {
  ap_symbol   : string;
  ap_price    : Q;
  ap_currency : Currency
}.

Definition PriceAdapter : Type := string -> option AssetPrice.

(** ** Valuation: [GET /api/portfolio] (part_002 l.123-179) *)

(** l.146-162, on one element of [stockHoldings]; cash holdings are not in
    that array and stay as they are.  The objects are shared with
    [activeHoldings], so the update is seen there. *)
Definition priceHolding (prices : PriceAdapter) (h : HoldingData) : HoldingData :=
  if isCash h then h
  else
    match prices (symbol h) with
    | Some currentPriceData =>
        let cp := ap_price currentPriceData in
        let tv := quantity h * cp in
        let gl := tv - totalCost h in
        mkHolding (symbol h) (quantity h) (avgPrice h) cp (currency h) tv
          (totalCost h) gl
          (if Qgtb (totalCost h) 0 then gl / totalCost h * 100 else 0)
          (isCash h)
    | None =>
        mkHolding (symbol h) (quantity h) (avgPrice h) (avgPrice h) (currency h)
          (quantity h * avgPrice h) (totalCost h) 0 0 (isCash h)
    end.

Record Summary : Type := mkSummary {
  sm_totalValue           : Q;
  sm_totalCost            : Q;
  sm_totalGainLoss        : Q;
  sm_totalGainLossPercent : Q;
  sm_holdingsCount        : nat
}.

(** [xs.reduce((sum, h) => sum + f(h), 0)]. *)
Definition reduceSum {A : Type} (f : A -> Q) (xs : list A) : Q :=
  fold_left (fun sum h => sum + f h) xs 0.

(** l.164-178. *)
Definition summaryOf (active : list HoldingData) : Summary :=
  let tv := reduceSum totalValue active in
  let tc := reduceSum totalCost active in
  let gl := tv - tc in
  mkSummary tv tc gl (if Qgtb tc 0 then gl / tc * 100 else 0) (List.length active).

(** The body of the handler after authentication, on the rows that
    [findMany] returned. *)
Definition getPortfolio (prices : PriceAdapter) (transactions : list Transaction)
  : list HoldingData * Summary :=
  let active := map (priceHolding prices) (holdingsOf transactions) in
  (active, summaryOf active).

(** ** Valuation: [calculateLivePortfolioValue] (snapshot/route.ts l.23-189) *)

(** What one request to [/api/exchange-rates?base=...] gives: the fetch
    throws, the response is not ok, or a body whose wanted rate may be
    missing. *)
Inductive RatesReply : Type :=
| ReplyThrows
| ReplyNotOk
| ReplyRate (rate : option Q).

Record LiveRates : Type := mkLiveRates {
  usdToCadRate : Q;
  cadToUsdRate : Q
}.

(** [x || d] on an optional number. *)
Definition orDefault (x : option Q) (d : Q) : Q :=
  match x with
  | Some r => if truthyNum r then r else d
  | None => d
  end.

(** l.30-47: the defaults stay in place for whatever was not fetched; a
    throw in the first request skips the second. *)
Definition liveRates (usdReply cadReply : RatesReply) : LiveRates :=
  match usdReply with
  | ReplyThrows => mkLiveRates (137 # 100) (73 # 100)
  | _ =>
      let u := match usdReply with
               | ReplyRate r => orDefault r (137 # 100)
               | _ => 137 # 100
               end in
      match cadReply with
      | ReplyRate r => mkLiveRates u (orDefault r (73 # 100))
      | _ => mkLiveRates u (73 # 100)
      end
  end.

(** What a reply contributes: its rate when it has one that is not zero. *)
Definition usableRate (reply : RatesReply) : option Q :=
  match reply with
  | ReplyRate (Some x) => if truthyNum x then Some x else None
  | _ => None
  end.

(** l.158-168: only [currentPrice] and [totalValue] are assigned. *)
Definition livePriceHolding (prices : PriceAdapter) (h : HoldingData) : HoldingData :=
  if isCash h then h
  else
    let cp := match prices (symbol h) with
              | Some currentPriceData => ap_price currentPriceData
              | None => avgPrice h
              end in
    mkHolding (symbol h) (quantity h) (avgPrice h) cp (currency h)
      (quantity h * cp) (totalCost h) (gainLoss h) (gainLossPercent h) (isCash h).

(** l.174-183. *)
Definition convertedValue (rates : LiveRates) (targetCurrency : Currency)
                          (h : HoldingData) : Q :=
  if currency_eqb (currency h) targetCurrency then totalValue h
  else
    match currency h, targetCurrency with
    | USD, CAD => totalValue h * usdToCadRate rates
    | CAD, USD => totalValue h * cadToUsdRate rates
    | _, _ => totalValue h
    end.

(** l.49-188, on the rows of the user in ascending date order. *)
Definition liveValueOf (prices : PriceAdapter) (rates : LiveRates)
                       (targetCurrency : Currency)
                       (transactions : list Transaction) : Q :=
  fold_left
    (fun totalValue h => totalValue + convertedValue rates targetCurrency h)
    (map (livePriceHolding prices) (holdingsOf transactions)) 0.

(** ** Persistent store (src/unnamed/part_001) *)

Record User : Type := mkUser {
  u_id              : string;
  u_defaultCurrency : Currency
}.

Record ExchangeRate : Type := mkExchangeRate {
  er_fromCurrency : Currency;
  er_toCurrency   : Currency;
  er_rate         : Q;
  er_timestamp    : Z
}.

Record PortfolioSnapshot : Type := mkSnapshot {
  ps_userId     : string;
  ps_date       : Z;
  ps_totalValue : Q;
  ps_currency   : Currency
}.

Record Database : Type := mkDatabase {
  users              : list User;
  transactions       : list Transaction;
  exchangeRates      : list ExchangeRate;
  portfolioSnapshots : list PortfolioSnapshot
}.

Definition findUser (userId : string) (db : Database) : option User :=
  find (fun u => String.eqb (u_id u) userId) (users db).

(** [prisma.transaction.findMany({ where: { userId } })]. *)
Definition transactionsOf (userId : string) (db : Database) : list Transaction :=
  filter (fun t => String.eqb (tx_userId t) userId) (transactions db).

(** [orderBy: { date: 'asc' }]; rows of one date keep their insertion
    order. *)
Fixpoint insertByDate (t : Transaction) (l : list Transaction) : list Transaction :=
  match l with
  | [] => [t]
  | x :: r =>
      if (tx_date t <=? tx_date x)%Z then t :: l else x :: insertByDate t r
  end.

Definition sortByDate (l : list Transaction) : list Transaction :=
  fold_right insertByDate [] l.

Definition transactionsByDate (userId : string) (db : Database) : list Transaction :=
  sortByDate (transactionsOf userId db).

(** [calculateLivePortfolioValue(userId, targetCurrency)]. *)
Definition calculateLivePortfolioValue
    (prices : PriceAdapter) (usdReply cadReply : RatesReply)
    (db : Database) (userId : string) (targetCurrency : Currency) : Q :=
  liveValueOf prices (liveRates usdReply cadReply) targetCurrency
              (transactionsByDate userId db).

(** ** Currency Conversion Service (src/src/lib/currency.ts) *)

Inductive Error : Type :=
| FetchFailed      (* fetch rejected *)
| BadStatus        (* [!response.ok] *)
| RateNotFound     (* [!rate] *)
| UserMissing.     (* a transaction without its user *)

Inductive Result (A : Type) : Type :=
| Ok (a : A)
| Throw (e : Error).

Arguments Ok {A} a.
Arguments Throw {A} e.

(** What [GET EXCHANGE_API_BASE/<from>] gives. *)
Inductive ProviderReply : Type :=
| ProviderThrows
| ProviderNotOk
| ProviderRates (rates : Currency -> option Q).

Definition Provider : Type := Currency -> ProviderReply.

(** l.16-38. *)
Definition fetchLatestExchangeRate (provider : Provider) (from to : Currency)
  : Result Q :=
  if currency_eqb from to then Ok 1
  else
    match provider from with
    | ProviderThrows => Throw FetchFailed
    | ProviderNotOk => Throw BadStatus
    | ProviderRates rates =>
        match rates to with
        | Some rate => if truthyNum rate then Ok rate else Throw RateNotFound
        | None => Throw RateNotFound
        end
    end.

(** [findFirst({ orderBy: { timestamp: 'desc' } })] on the rows that passed
    the [where] clause. *)
Fixpoint latestRow (rows : list ExchangeRate) : option ExchangeRate :=
  match rows with
  | [] => None
  | r :: rest =>
      match latestRow rest with
      | Some r' => if (er_timestamp r <? er_timestamp r')%Z then Some r' else Some r
      | None => Some r
      end
  end.

Definition forPair (from to : Currency) (r : ExchangeRate) : bool :=
  currency_eqb (er_fromCurrency r) from && currency_eqb (er_toCurrency r) to.

(** l.40-59; [latestRate?.rate || null]. *)
Definition getLatestStoredRate (from to : Currency) (rows : list ExchangeRate)
  : option Q :=
  if currency_eqb from to then Some 1
  else
    match latestRow (filter (forPair from to) rows) with
    | Some latestRate =>
        if truthyNum (er_rate latestRate) then Some (er_rate latestRate) else None
    | None => None
    end.

(** l.61-74; the timestamp column defaults to the time of the insert. *)
Definition saveExchangeRate (now : Z) (from to : Currency) (rate : Q)
                            (rows : list ExchangeRate) : list ExchangeRate :=
  rows ++ [mkExchangeRate from to rate now].

Definition msPerHour : Z := 60 * 60 * 1000.

Definition recentFor (now : Z) (from to : Currency) (r : ExchangeRate) : bool :=
  forPair from to r && (now - msPerHour <=? er_timestamp r)%Z.

(** l.76-114. *)
Definition getExchangeRate (now : Z) (provider : Provider) (from to : Currency)
                           (rows : list ExchangeRate)
  : Result Q * list ExchangeRate :=
  if currency_eqb from to then (Ok 1, rows)
  else
    match latestRow (filter (recentFor now from to) rows) with
    | Some recentRate => (Ok (er_rate recentRate), rows)
    | None =>
        match fetchLatestExchangeRate provider from to with
        | Ok rate => (Ok rate, saveExchangeRate now from to rate rows)
        | Throw error =>
            match getLatestStoredRate from to rows with
            | Some fallbackRate =>
                if truthyNum fallbackRate then (Ok fallbackRate, rows)
                else (Throw error, rows)
            | None => (Throw error, rows)
            end
        end
    end.

(** l.116-125. *)
Definition convertAmount (now : Z) (provider : Provider) (amount : Q)
                         (fromCurrency toCurrency : Currency)
                         (rows : list ExchangeRate)
  : Result Q * list ExchangeRate :=
  if currency_eqb fromCurrency toCurrency then (Ok amount, rows)
  else
    match getExchangeRate now provider fromCurrency toCurrency rows with
    | (Ok rate, rows') => (Ok (amount * rate), rows')
    | (Throw e, rows') => (Throw e, rows')
    end.

(** [convert(convert(x, A, B), B, A)], the second call on the store the
    first one left. *)
Definition roundTrip (now : Z) (provider : Provider) (x : Q) (a b : Currency)
                     (rows : list ExchangeRate)
  : Result Q * list ExchangeRate :=
  match convertAmount now provider x a b rows with
  | (Ok y, rows') => convertAmount now provider y b a rows'
  | (Throw e, rows') => (Throw e, rows')
  end.

(** Every row the service writes carries a rate that passed [!rate]. *)
Definition ratesTruthy (rows : list ExchangeRate) : Prop :=
  Forall (fun r => truthyNum (er_rate r) = true) rows.

(** ** Calendar *)

Definition msPerDay : Z := 24 * msPerHour.

(** [d.setHours(0, 0, 0, 0)] for a process [tz] milliseconds ahead of UTC. *)
Definition startOfDay (tz : Z) (t : Z) : Z := (t - (t + tz) mod msPerDay)%Z.

(** [d.setHours(16, 0, 0, 0)]. *)
Definition marketClose (tz : Z) (t : Z) : Z := (startOfDay tz t + 16 * msPerHour)%Z.

(** [d.setHours(23, 59, 59, 999)]. *)
Definition endOfDay (tz : Z) (t : Z) : Z := (startOfDay tz t + msPerDay - 1)%Z.

(** [d.toISOString().split('T')[0]]: the UTC calendar day, as a day
    number. *)
Definition dateKey (t : Z) : Z := (t / msPerDay)%Z.

(** ** Snapshot write path: [createPortfolioSnapshot]
       (asset-pricing.ts l.250-330) *)

Record Position : Type := mkPosition {
  pos_quantity : Q;
  pos_symbol   : string
}.

(** l.264-274. *)
Definition snapshotStep (hs : Dict string Position) (t : Transaction)
  : Dict string Position :=
  let existing :=
    match dget String.eqb (tx_symbol t) hs with
    | Some e => e
    | None => mkPosition 0 (tx_symbol t)
    end in
  let q :=
    match tx_type t with
    | BUY => pos_quantity existing + tx_quantity t
    | _ => pos_quantity existing - tx_quantity t
    end in
  dset String.eqb (tx_symbol t) (mkPosition q (pos_symbol existing)) hs.

Definition snapshotHoldings (transactions : list Transaction) : Dict string Position :=
  fold_left snapshotStep transactions [].

(** l.285-301; an exception of [convertAmount] leaves the loop, the rate
    rows written before it stay. *)
Fixpoint snapshotTotal (now : Z) (provider : Provider) (prices : PriceAdapter)
                       (defaultCurrency : Currency)
                       (hs : list (string * Position)) (totalValue : Q)
                       (rows : list ExchangeRate)
  : Result Q * list ExchangeRate :=
  match hs with
  | [] => (Ok totalValue, rows)
  | (sym, holding) :: rest =>
      if Qle_bool (pos_quantity holding) 0
      then snapshotTotal now provider prices defaultCurrency rest totalValue rows
      else
        match prices sym with
        | None => snapshotTotal now provider prices defaultCurrency rest totalValue rows
        | Some price =>
            let value := pos_quantity holding * ap_price price in
            if currency_eqb (ap_currency price) defaultCurrency
            then snapshotTotal now provider prices defaultCurrency rest
                               (totalValue + value) rows
            else
              match convertAmount now provider value (ap_currency price)
                                  defaultCurrency rows with
              | (Ok value', rows') =>
                  snapshotTotal now provider prices defaultCurrency rest
                                (totalValue + value') rows'
              | (Throw e, rows') => (Throw e, rows')
              end
        end
  end.

(** How far the body of the [try] gets before the upsert. *)
Inductive Valuation : Type :=
| NoTransactions
| Failed (e : Error)
| Valued (totalValue : Q) (defaultCurrency : Currency).

(** l.252-301. *)
Definition snapshotValuation (now : Z) (provider : Provider) (prices : PriceAdapter)
                             (userId : string) (db : Database)
  : Valuation * list ExchangeRate :=
  match transactionsOf userId db with
  | [] => (NoTransactions, exchangeRates db)
  | (t0 :: _) as txs =>
      match findUser (tx_userId t0) db with
      | None => (Failed UserMissing, exchangeRates db)
      | Some user =>
          match snapshotTotal now provider prices (u_defaultCurrency user)
                              (snapshotHoldings txs) 0 (exchangeRates db) with
          | (Ok v, rows) => (Valued v (u_defaultCurrency user), rows)
          | (Throw e, rows) => (Failed e, rows)
          end
      end
  end.

Definition snapshotAt (userId : string) (date : Z) (s : PortfolioSnapshot) : bool :=
  String.eqb (ps_userId s) userId && (ps_date s =? date)%Z.

(** The column [totalValue Decimal @db.Decimal(15, 2)] (part_001 l.75): a
    value is rounded to two decimals, half away from zero; the stored
    decimal is kept in lowest terms. *)
Definition toDecimal2 (x : Q) : Q :=
  let scaled := x * 100 in
  let n := if Qle_bool 0 scaled
           then Qfloor (scaled + (1 # 2))
           else (- Qfloor (- scaled + (1 # 2)))%Z in
  Qred (inject_Z n / 100).

(** At most thirteen digits before the point fit the column. *)
Definition fitsDecimal15_2 (x : Q) : bool :=
  negb (Qle_bool 10000000000000 (Qabs (toDecimal2 x))).

(** What [upsert] does to the table on the unique key [userId_date], for
    the value [v] that the column keeps: the row of the key is rewritten in
    place, or a new row goes last. *)
Definition upsertRow (userId : string) (date : Z) (v : Q) (c : Currency)
                     (rows : list PortfolioSnapshot) : list PortfolioSnapshot :=
  if existsb (snapshotAt userId date) rows
  then map (fun s => if snapshotAt userId date s
                     then mkSnapshot (ps_userId s) (ps_date s) v c else s) rows
  else rows ++ [mkSnapshot userId date v c].

(** l.307-324: [prisma.portfolioSnapshot.upsert].  The row holds the total
    rounded to the column's two decimals; a total that does not fit the
    column makes the call throw ([None]) and the table stays as it is. *)
Definition upsertSnapshot (userId : string) (date : Z) (totalValue : Q)
                          (c : Currency) (rows : list PortfolioSnapshot)
  : option (list PortfolioSnapshot) :=
  if fitsDecimal15_2 totalValue
  then Some (upsertRow userId date (toDecimal2 totalValue) c rows)
  else None.

(** The whole function; the [catch] only logs, also when the upsert
    throws: the rate rows written during the valuation stay. *)
Definition createPortfolioSnapshot (tz now : Z) (provider : Provider)
                                   (prices : PriceAdapter)
                                   (userId : string) (db : Database) : Database :=
  match snapshotValuation now provider prices userId db with
  | (NoTransactions, _) => db
  | (Failed _, rows) =>
      mkDatabase (users db) (transactions db) rows (portfolioSnapshots db)
  | (Valued v c, rows) =>
      match upsertSnapshot userId (marketClose tz now) v c (portfolioSnapshots db) with
      | Some snapshots => mkDatabase (users db) (transactions db) rows snapshots
      | None =>
          mkDatabase (users db) (transactions db) rows (portfolioSnapshots db)
      end
  end.

(** The unique constraint [@@unique([userId, date])]. *)
Definition snapshotKey (s : PortfolioSnapshot) : string * Z := (ps_userId s, ps_date s).

Definition uniqueSnapshots (rows : list PortfolioSnapshot) : Prop :=
  NoDup (map snapshotKey rows).

Definition snapshotsAt (userId : string) (date : Z) (rows : list PortfolioSnapshot)
  : list PortfolioSnapshot :=
  filter (snapshotAt userId date) rows.

(** ** Snapshot read path: [GET /api/portfolio/snapshot]
       (snapshot/route.ts l.221-340) *)

Record ChartPoint : Type := mkPoint {
  cp_date     : Z;
  cp_value    : Q;
  cp_currency : Currency
}.

(** l.249-258. *)
Definition getDaysFromRange (range : string) : Z :=
  if String.eqb range "7d" then 7
  else if String.eqb range "30d" then 30
  else if String.eqb range "3m" then 90
  else if String.eqb range "6m" then 180
  else if String.eqb range "12m" then 365
  else 30.

(** l.261-263: [setDate(getDate() - days)], then [setHours(0, 0, 0, 0)]. *)
Definition windowStart (tz now days : Z) : Z :=
  startOfDay tz (now - days * msPerDay).

Fixpoint insertSnapshot (s : PortfolioSnapshot) (l : list PortfolioSnapshot)
  : list PortfolioSnapshot :=
  match l with
  | [] => [s]
  | x :: r =>
      if (ps_date s <=? ps_date x)%Z then s :: l else x :: insertSnapshot s r
  end.

(** l.269-278: the user's rows with [startDate <= date < today], by
    ascending date. *)
Definition snapshotsInWindow (userId : string) (startDate today : Z)
                             (db : Database) : list PortfolioSnapshot :=
  fold_right insertSnapshot []
    (filter (fun s => String.eqb (ps_userId s) userId
                      && (startDate <=? ps_date s)%Z
                      && (ps_date s <? today)%Z)
            (portfolioSnapshots db)).

(** l.281-289. *)
Definition pointOfSnapshot (s : PortfolioSnapshot) : ChartPoint :=
  mkPoint (dateKey (ps_date s)) (ps_totalValue s) (ps_currency s).

Definition snapshotMapOf (snapshots : list PortfolioSnapshot) : Dict Z ChartPoint :=
  fold_left
    (fun m s => dset Z.eqb (dateKey (ps_date s)) (pointOfSnapshot s) m)
    snapshots [].

(** l.302-319: what one iteration pushes. *)
Definition pointFor (snapshotMap : Dict Z ChartPoint) (todayKey : Z)
                    (todayValue : Q) (userCurrency : Currency)
                    (currentDate : Z) : ChartPoint :=
  let key := dateKey currentDate in
  if (key =? todayKey)%Z then mkPoint key todayValue userCurrency
  else
    match dget Z.eqb key snapshotMap with
    | Some p => p
    | None => mkPoint key 0 userCurrency
    end.

(** l.301-322: [while (currentDate <= endDate)], one local day per turn. *)
Equations? chartLoop (snapshotMap : Dict Z ChartPoint) (todayKey : Z)
                     (todayValue : Q) (userCurrency : Currency)
                     (endDate currentDate : Z) : list ChartPoint
  by wf (Z.to_nat ((endDate - currentDate) / msPerDay + 1)) lt :=
  chartLoop snapshotMap todayKey todayValue userCurrency endDate currentDate
    with Z_le_dec currentDate endDate := {
    | left _ =>
        pointFor snapshotMap todayKey todayValue userCurrency currentDate
        :: chartLoop snapshotMap todayKey todayValue userCurrency endDate
                     (currentDate + msPerDay)%Z
    | right _ => [] }.
Proof.
  replace (endDate - (currentDate + msPerDay))%Z
    with ((endDate - currentDate) + (-1) * msPerDay)%Z by ring.
  rewrite Z.div_add by (vm_compute; discriminate).
  assert (0 <= (endDate - currentDate) / msPerDay)%Z.
  { apply Z.div_pos; [lia | vm_compute; reflexivity]. }
  lia.
Qed.

Record SeriesResponse : Type := mkSeries {
  sr_data              : list ChartPoint;
  sr_totalSnapshots    : nat;
  sr_daysInRange       : Z;
  sr_liveValueForToday : Q;
  sr_userCurrency      : Currency
}.

(** The handler after authentication. *)
Definition getSeries (tz now : Z) (prices : PriceAdapter)
                     (usdReply cadReply : RatesReply)
                     (db : Database) (userId range : string) : SeriesResponse :=
  let userCurrency :=
    match findUser userId db with
    | Some user => u_defaultCurrency user
    | None => CAD
    end in
  let days := getDaysFromRange range in
  let startDate := windowStart tz now days in
  let today := startOfDay tz now in
  let snapshots := snapshotsInWindow userId startDate today db in
  let snapshotMap := snapshotMapOf snapshots in
  let todayValue :=
    calculateLivePortfolioValue prices usdReply cadReply db userId userCurrency in
  let todayKey := dateKey today in
  mkSeries
    (chartLoop snapshotMap todayKey todayValue userCurrency (endOfDay tz now) startDate)
    (List.length snapshots) days todayValue userCurrency.

(** ** Ledger write boundary: [POST /api/transactions]
       (src/unnamed/part_003 l.143-208) *)

Inductive Auth : Type :=
| NoToken
| InvalidToken
| Verified (userId : string).

(** A field of the JSON body as the handler receives it.  [JAbsent] is a
    field that is not there ([undefined]).  [JOther] is an array or an
    object: the handler never looks inside one, it only tests it (always
    truthy), turns it into text ([parseFloat], [new Date]) or hands it to
    the database client, so it is kept as the text that [String(...)] gives
    for it. *)
Inductive Json : Type :=
| JAbsent
| JNull
| JBool (b : bool)
| JNum (n : Q)
| JStr (s : string)
| JOther (text : string).

(** Truthiness, as [!x] tests it. *)
Definition truthy (v : Json) : bool :=
  match v with
  | JAbsent | JNull => false
  | JBool b => b
  | JNum n => truthyNum n
  | JStr s => negb (String.eqb s "")
  | JOther _ => true
  end.

(** The body, already destructured (l.156). *)
Record TransactionRequest : Type := mkRequest {
  rq_symbol   : Json;
  rq_type     : Json;
  rq_quantity : Json;
  rq_price    : Json;
  rq_currency : Json;
  rq_date     : Json
}.

Inductive Response : Type :=
| Unauthorized                  (* 401 *)
| BadRequest                    (* 400 *)
| ServerError                   (* 500: the outer [catch] *)
| Created (t : Transaction).    (* 200 *)

(** The active symbols of the ticker directory, or [None] when the lookup
    throws. *)
Definition TickerDirectory : Type := option (list string).

Definition upperChar (a : ascii) : ascii :=
  let n := nat_of_ascii a in
  if (97 <=? n)%nat && (n <=? 122)%nat then ascii_of_nat (n - 32) else a.

(** [toUpperCase] on ASCII text. *)
Fixpoint toUpperCase (s : string) : string :=
  match s with
  | EmptyString => EmptyString
  | String a r => String (upperChar a) (toUpperCase r)
  end.

Definition truthyStr (s : option string) : bool :=
  match s with
  | Some EmptyString | None => false
  | Some _ => true
  end.

(** *** [parseFloat]

    On ASCII text, [parseFloat] reads the longest prefix of the trimmed
    text that is a decimal literal: an optional sign, digits with an optional fraction (or
    a fraction alone), and an exponent when [e] is followed by digits.  The
    answer is [None] when there is no such prefix ([NaN]) and for
    [Infinity]. *)

Definition isDigit (a : ascii) : bool :=
  let n := nat_of_ascii a in (48 <=? n)%nat && (n <=? 57)%nat.

Definition digitValue (a : ascii) : Z := Z.of_nat (nat_of_ascii a - 48).

(** Tab, line feed, vertical tab, form feed, carriage return, space. *)
Definition isWhiteSpace (a : ascii) : bool :=
  let n := nat_of_ascii a in
  ((9 <=? n)%nat && (n <=? 13)%nat) || (n =? 32)%nat.

Fixpoint trimStart (s : string) : string :=
  match s with
  | String a r => if isWhiteSpace a then trimStart r else s
  | EmptyString => EmptyString
  end.

(** A run of digits at the head of [s]: the number they spell after the
    digits of [acc], how many there are after [n], and what follows. *)
Fixpoint digits (s : string) (acc : Z) (n : nat) : Z * nat * string :=
  match s with
  | String a r =>
      if isDigit a then digits r (10 * acc + digitValue a)%Z (S n) else (acc, n, s)
  | EmptyString => (acc, n, s)
  end.

Definition pow10 (e : Z) : Q :=
  if (0 <=? e)%Z then inject_Z (10 ^ e) else 1 / inject_Z (10 ^ (- e)).

(** The exponent part at the head of [s], 0 when there is none: [e] or
    [E], an optional sign and at least one digit. *)
Definition exponentOf (s : string) : Z :=
  let signed (r : string) : Z :=
    match r with
    | String "+" r' =>
        match digits r' 0 0 with (v, S _, _) => v | _ => 0%Z end
    | String "-" r' =>
        match digits r' 0 0 with (v, S _, _) => (- v)%Z | _ => 0%Z end
    | _ =>
        match digits r 0 0 with (v, S _, _) => v | _ => 0%Z end
    end in
  match s with
  | String "e" r | String "E" r => signed r
  | _ => 0%Z
  end.

Definition unsignedLiteral (s : string) : option Q :=
  match digits s 0 0 with
  | (i, ni, String "." r) =>
      match digits r 0 0 with
      | (f, nf, rest) =>
          if (ni + nf =? 0)%nat then None
          else Some ((inject_Z i + inject_Z f / inject_Z (10 ^ Z.of_nat nf))
                     * pow10 (exponentOf rest))
      end
  | (i, ni, rest) =>
      if (ni =? 0)%nat then None else Some (inject_Z i * pow10 (exponentOf rest))
  end.

Definition parseFloatText (s : string) : option Q :=
  match trimStart s with
  | String "+" r => unsignedLiteral r
  | String "-" r => option_map Qopp (unsignedLiteral r)
  | t => unsignedLiteral t
  end.

(** [parseFloat(x)] first turns [x] into text.  A number prints and reads
    back as itself; [true], [false], [null] and [undefined] spell no
    number. *)
Definition parseFloat (v : Json) : option Q :=
  match v with
  | JNum n => Some n
  | JStr s | JOther s => parseFloatText s
  | JAbsent | JNull | JBool _ => None
  end.

(** [new Date(x)], [None] for an invalid date.  A number is a time value,
    cut to an integer, valid up to 8.64e15 either way; a boolean or [null]
    counts as the number it converts to; text goes through the platform's
    date parser [parseDate]. *)
Definition newDate (parseDate : string -> option Z) (v : Json) : option Z :=
  match v with
  | JNum n =>
      if Qle_bool (Qabs n) 8640000000000000
      then Some (if Qle_bool 0 n then Qfloor n else Qceiling n)
      else None
  | JBool true => Some 1%Z
  | JBool false | JNull => Some 0%Z
  | JAbsent => None
  | JStr s | JOther s => parseDate s
  end.

(** What the database client takes for an enum column: one of its
    names, as a string. *)
Definition parseType (v : Json) : option TransactionType :=
  match v with
  | JStr s =>
      if String.eqb s "BUY" then Some BUY
      else if String.eqb s "SELL" then Some SELL
      else if String.eqb s "DEPOSIT" then Some DEPOSIT
      else if String.eqb s "WITHDRAWAL" then Some WITHDRAWAL
      else None
  | _ => None
  end.

Definition parseCurrencyField (v : Json) : option Currency :=
  match v with
  | JStr s => parseCurrency s
  | _ => None
  end.

(** The handler.  Everything that throws inside the [try] ends in the
    outer [catch] (500) with the table as it was: [toUpperCase] on a symbol
    that is not a string, and [prisma.transaction.create] on a value that
    is no enum name, on a quantity or price that [parseFloat] could not
    read ([NaN]), or on an invalid date.  The user of a verified token is
    taken to exist (tokens are issued to stored users, and nothing in the
    repository deletes one), so the foreign key of the new row holds. *)
Definition postTransaction (parseDate : string -> option Z) (now : Z)
                           (auth : Auth) (tickers : TickerDirectory)
                           (rq : TransactionRequest) (table : list Transaction)
  : Response * list Transaction :=
  match auth with
  | NoToken | InvalidToken => (Unauthorized, table)
  | Verified userId =>
      if negb (truthy (rq_symbol rq) && truthy (rq_type rq)
               && truthy (rq_quantity rq) && truthy (rq_price rq)
               && truthy (rq_currency rq))
      then (BadRequest, table)
      else
        match rq_symbol rq with
        | JStr symbol =>
            let upperSymbol := toUpperCase symbol in
            let valid :=
              if String.eqb upperSymbol "CASH" then true
              else
                match tickers with
                | Some active => existsb (String.eqb upperSymbol) active
                | None => true
                end in
            if valid then
              match parseType (rq_type rq),
                    parseFloat (rq_quantity rq),
                    parseFloat (rq_price rq),
                    parseCurrencyField (rq_currency rq),
                    (if truthy (rq_date rq)
                     then newDate parseDate (rq_date rq) else Some now) with
              | Some type, Some quantity, Some price, Some currency, Some date =>
                  let transaction :=
                    mkTransaction userId upperSymbol type quantity price currency
                                  date in
                  (Created transaction, (table ++ [transaction])%list)
              | _, _, _, _, _ => (ServerError, table)
              end
            else (BadRequest, table)
        | _ => (ServerError, table)
        end
  end.

(** ** Reading aids for the statements *)

Definition sumQ (l : list Q) : Q := fold_right Qplus 0 l.

(** A row of the exchange-rate table for the pair. *)
Definition storedFor (from to : Currency) (rows : list ExchangeRate)
                     (r : ExchangeRate) : Prop :=
  In r rows /\ er_fromCurrency r = from /\ er_toCurrency r = to.

(** The row of the pair with the greatest timestamp. *)
Definition mostRecent (from to : Currency) (rows : list ExchangeRate)
                      (r : ExchangeRate) : Prop :=
  storedFor from to rows r /\
  forall r', storedFor from to rows r' -> (er_timestamp r' <= er_timestamp r)%Z.

(** Timestamped within the last hour. *)
Definition fresh (now : Z) (r : ExchangeRate) : Prop :=
  (now - msPerHour <= er_timestamp r)%Z.

(** A row that the window query of the read path returns. *)
Definition inWindow (userId : string) (startDate today : Z) (db : Database)
                    (s : PortfolioSnapshot) : Prop :=
  In s (portfolioSnapshots db) /\ ps_userId s = userId /\
  (startDate <= ps_date s < today)%Z.

(** A row dated as the write path dates it: at the market close of some
    local day. *)
Definition writtenAtClose (tz : Z) (s : PortfolioSnapshot) : Prop :=
  exists t, ps_date s = marketClose tz t.

(** What the map answers for a day, in terms of the rows it was built
    from. *)
Definition mapAnswers (rows : list PortfolioSnapshot) (m : Dict Z ChartPoint)
                      (key : Z) : Prop :=
  match dget Z.eqb key m with
  | Some p =>
      exists s, In s rows /\ dateKey (ps_date s) = key /\ p = pointOfSnapshot s
  | None => forall s, In s rows -> dateKey (ps_date s) <> key
  end.

(** The sum of the native values, and of the native costs, of the
    holdings kept in one currency. *)
Definition nativeValue (c : Currency) (hs : list HoldingData) : Q :=
  sumQ (map totalValue (filter (fun h => currency_eqb (currency h) c) hs)).

Definition nativeCost (c : Currency) (hs : list HoldingData) : Q :=
  sumQ (map totalCost (filter (fun h => currency_eqb (currency h) c) hs)).

(** The ranges of the read boundary and their day counts. *)
Definition supportedRanges : list (string * Z) :=
  [("7d", 7); ("30d", 30); ("3m", 90); ("6m", 180); ("12m", 365)]%Z.

(** ** Currency service: rate tables and the update route *)

(** [Record<Currency, number>]. *)
Record RateTable : Type := mkRateTable {
  rt_CAD : Q;
  rt_USD : Q
}.

(** currency.ts l.128-140. *)
Definition getAllRates (now : Z) (provider : Provider) (baseCurrency : Currency)
                       (rows : list ExchangeRate)
  : Result RateTable * list ExchangeRate :=
  match baseCurrency with
  | CAD =>
      match getExchangeRate now provider CAD USD rows with
      | (Ok r, rows') => (Ok (mkRateTable 1 r), rows')
      | (Throw e, rows') => (Throw e, rows')
      end
  | USD =>
      match getExchangeRate now provider USD CAD rows with
      | (Ok r, rows') => (Ok (mkRateTable r 1), rows')
      | (Throw e, rows') => (Throw e, rows')
      end
  end.

(** currency.ts l.155-176. *)
Definition convertAmountWithRate (amount : Q) (fromCurrency toCurrency : Currency)
                                 (rates : RateTable) : Q :=
  if currency_eqb fromCurrency toCurrency then amount
  else
    match fromCurrency, toCurrency with
    | CAD, USD => amount * orDefault (Some (rt_USD rates)) 1
    | USD, CAD => amount * orDefault (Some (rt_CAD rates)) 1
    | _, _ => amount
    end.

(** [POST /api/exchange-rates/update] (update/route.ts l.6-40): the body of
    the inner loop, with its own [try]. *)
Definition updatePair (now : Z) (provider : Provider) (from to : Currency)
                      (acc : list (Currency * Currency * Q) * list ExchangeRate)
  : list (Currency * Currency * Q) * list ExchangeRate :=
  if currency_eqb from to then acc
  else
    match fetchLatestExchangeRate provider from to with
    | Ok rate =>
        ((fst acc ++ [(from, to, rate)])%list,
         saveExchangeRate now from to rate (snd acc))
    | Throw _ => acc
    end.

Definition currencies : list Currency := [CAD; USD].

(** The two nested [for ... of currencies] loops; the result is
    [updatedRates] and the table. *)
Definition updateExchangeRates (now : Z) (provider : Provider)
                               (rows : list ExchangeRate)
  : list (Currency * Currency * Q) * list ExchangeRate :=
  fold_left
    (fun acc from =>
       fold_left (fun acc to => updatePair now provider from to acc) currencies acc)
    currencies ([], rows).

(** The row that the update route stores for a reported rate. *)
Definition rowOfUpdate (now : Z) (u : Currency * Currency * Q) : ExchangeRate :=
  mkExchangeRate (fst (fst u)) (snd (fst u)) (snd u) now.

(** The other currency of the closed set. *)
Definition otherCurrency (c : Currency) : Currency :=
  match c with CAD => USD | USD => CAD end.

(** No row of the pair is timestamped at or after [now]. *)
Definition olderThan (now : Z) (from to : Currency) (rows : list ExchangeRate) : Prop :=
  forall r, storedFor from to rows r -> (er_timestamp r < now)%Z.

(** ** Price Source Adapter: the functions of asset-pricing.ts *)

(** [s.startsWith(sub)]. *)
Fixpoint startsWith (sub s : string) : bool :=
  match sub, s with
  | EmptyString, _ => true
  | String _ _, EmptyString => false
  | String a sub', String b s' => Ascii.eqb a b && startsWith sub' s'
  end.

(** [s.includes(sub)]. *)
Fixpoint includes (sub s : string) : bool :=
  startsWith sub s ||
  match s with
  | EmptyString => false
  | String _ r => includes sub r
  end.

Definition tsxSymbols : list string := ["VDY"; "HXQ"; "TDB902"; "VCN"; "VTI.TO"].

Definition usSymbols : list string := ["VOO"; "VTI"; "SPY"; "QQQ"; "AAPL"; "MSFT"].

Definition listed (symbols : list string) (s : string) : bool :=
  existsb (String.eqb s) symbols.

(** l.31-46. *)
Definition formatSymbolForAPI (sym : string) : string :=
  if listed tsxSymbols sym || includes ".TO" sym || includes ".TRT" sym
  then (if includes "." sym then sym else sym ++ ".TO")
  else if listed usSymbols sym then sym
  else sym.

(** The whole [AssetPrice] object: symbol, price and currency, with the
    time of the quote; the source tag is always 'alphavantage'. *)
Record Quote : Type := mkQuote {
  q_price     : AssetPrice;
  q_timestamp : Z
}.

(** What a request to Alpha Vantage gives: the request throws, the body
    carries 'Error Message' or 'Note', the quote or its price is missing, or
    a price. *)
Inductive QuoteReply : Type :=
| QuoteThrows
| QuoteRefused
| QuoteEmpty
| QuotePrice (price : Q).

(** [GLOBAL_QUOTE] by formatted symbol, and the BTC to USD exchange rate. *)
Record MarketApi : Type := mkMarketApi {
  globalQuote : string -> QuoteReply;
  btcRate     : QuoteReply
}.

(** l.51-85. *)
Definition fetchStockPrice (now : Z) (api : MarketApi) (sym : string) : option Quote :=
  let formattedSymbol := formatSymbolForAPI sym in
  match globalQuote api formattedSymbol with
  | QuotePrice price =>
      let cur := if includes ".TO" formattedSymbol || includes ".TRT" formattedSymbol
                 then CAD else USD in
      Some (mkQuote (mkAssetPrice sym price cur) now)
  | _ => None
  end.

(** l.90-119. *)
Definition fetchBitcoinPrice (now : Z) (api : MarketApi) : option Quote :=
  match btcRate api with
  | QuotePrice price => Some (mkQuote (mkAssetPrice "BTC" price USD) now)
  | _ => None
  end.

(** The in-process cache and the AssetPrice table. *)
Record PriceStore : Type := mkPriceStore {
  priceCache  : Dict string (Quote * Z);
  assetPrices : list Quote
}.

Definition CACHE_DURATION : Z := 5 * 60 * 1000.

(** The column [price Decimal @db.Decimal(15, 4)] (part_001 l.88): the
    value is rounded to four decimals, half away from zero. *)
Definition toDecimal4 (x : Q) : Q :=
  let scaled := x * 10000 in
  let n := if Qle_bool 0 scaled
           then Qfloor (scaled + (1 # 2))
           else (- Qfloor (- scaled + (1 # 2)))%Z in
  inject_Z n / 10000.

(** At most eleven digits before the point fit the column. *)
Definition fitsDecimal15_4 (x : Q) : bool :=
  negb (Qle_bool 100000000000 (Qabs (toDecimal4 x))).

(** The row that the table keeps for a quote. *)
Definition storedQuote (assetPrice : Quote) : Quote :=
  mkQuote (mkAssetPrice (ap_symbol (q_price assetPrice))
                        (toDecimal4 (ap_price (q_price assetPrice)))
                        (ap_currency (q_price assetPrice)))
          (q_timestamp assetPrice).

Definition sameQuoteKey (a b : Quote) : bool :=
  String.eqb (ap_symbol (q_price a)) (ap_symbol (q_price b))
  && (q_timestamp a =? q_timestamp b)%Z.

(** l.186-200: the insert fails when the price does not fit the column or
    on [@@unique([symbol, timestamp])], and the [catch] only logs. *)
Definition saveAssetPrice (assetPrice : Quote) (rows : list Quote) : list Quote :=
  if fitsDecimal15_4 (ap_price (q_price assetPrice))
     && negb (existsb (sameQuoteKey assetPrice) rows)
  then (rows ++ [storedQuote assetPrice])%list
  else rows.

(** [cached && (Date.now() - cached.timestamp) < CACHE_DURATION]. *)
Definition cachedPrice (now : Z) (sym : string) (st : PriceStore) : option Quote :=
  match dget String.eqb sym (priceCache st) with
  | Some (price, timestamp) =>
      if (now - timestamp <? CACHE_DURATION)%Z then Some price else None
  | None => None
  end.

(** l.124-147. *)
Definition getCurrentPrice (now : Z) (api : MarketApi) (sym : string)
                           (st : PriceStore) : option Quote * PriceStore :=
  match cachedPrice now sym st with
  | Some price => (Some price, st)
  | None =>
      let price := if String.eqb sym "BTC" then fetchBitcoinPrice now api
                   else fetchStockPrice now api sym in
      match price with
      | Some p =>
          (Some p,
           mkPriceStore (dset String.eqb sym (p, now) (priceCache st))
                        (saveAssetPrice p (assetPrices st)))
      | None => (None, st)
      end
  end.

(** [findFirst({ where: { symbol }, orderBy: { timestamp: 'desc' } })]. *)
Fixpoint latestQuote (rows : list Quote) : option Quote :=
  match rows with
  | [] => None
  | r :: rest =>
      match latestQuote rest with
      | Some r' => if (q_timestamp r <? q_timestamp r')%Z then Some r' else Some r
      | None => Some r
      end
  end.

(** l.205-225. *)
Definition getLatestStoredPrice (sym : string) (rows : list Quote) : option Quote :=
  latestQuote (filter (fun r => String.eqb (ap_symbol (q_price r)) sym) rows).

(** l.230-245. *)
Definition getOrFetchCurrentPrice (now : Z) (api : MarketApi) (sym : string)
                                  (st : PriceStore) : option Quote * PriceStore :=
  match cachedPrice now sym st with
  | Some price => (Some price, st)
  | None =>
      match getLatestStoredPrice sym (assetPrices st) with
      | Some stored =>
          if (now - q_timestamp stored <? msPerHour)%Z then (Some stored, st)
          else getCurrentPrice now api sym st
      | None => getCurrentPrice now api sym st
      end
  end.

(** l.156-161: [for (i = 0; i < symbols.length; i += batchSize)
    batches.push(symbols.slice(i, i + batchSize))]. *)
Equations? batchesFrom (symbols : list string) (i : nat) : list (list string)
  by wf (List.length symbols - i)%nat lt :=
  batchesFrom symbols i with lt_dec i (List.length symbols) := {
    | left _ => firstn 5 (skipn i symbols) :: batchesFrom symbols (i + 5)%nat
    | right _ => [] }.
Proof. lia. Qed.

(** ** Scheduler (src/src/lib/scheduler.ts) *)

(** [d.getDay()]: 0 is Sunday; the first of January 1970 was a Thursday. *)
Definition getDay (tz now : Z) : Z := (((now + tz) / msPerDay + 4) mod 7)%Z.

(** [d.getHours()]. *)
Definition getHours (tz now : Z) : Z := (((now + tz) mod msPerDay) / msPerHour)%Z.

(** l.38-42. *)
Definition isWeekday (tz now : Z) : bool :=
  (1 <=? getDay tz now)%Z && (getDay tz now <=? 5)%Z.

(** l.47-51. *)
Definition isMarketClosed (tz now : Z) : bool := (16 <=? getHours tz now)%Z.

(** What is in effect while one user is processed: the time, the rate
    provider and the price adapter. *)
Record Env : Type := mkEnv {
  env_now      : Z;
  env_provider : Provider;
  env_prices   : PriceAdapter
}.

(** l.8-33: the users are read once, then processed in turn;
    [createPortfolioSnapshot] never throws. *)
Definition scheduleDailySnapshots (tz : Z) (envOf : string -> Env) (db : Database)
  : Database :=
  fold_left
    (fun db user =>
       createPortfolioSnapshot tz (env_now (envOf (u_id user)))
         (env_provider (envOf (u_id user))) (env_prices (envOf (u_id user)))
         (u_id user) db)
    (users db) db.

(** l.56-68. *)
Definition runDailyScheduler (tz now : Z) (envOf : string -> Env) (db : Database)
  : Database :=
  if negb (isWeekday tz now) then db
  else if negb (isMarketClosed tz now) then db
  else scheduleDailySnapshots tz envOf db.

(** ** Authentication header (src/unnamed/part_007 l.31-36) *)

(** [s.slice(n)] for [n] within the string. *)
Fixpoint slice (n : nat) (s : string) : string :=
  match n, s with
  | O, _ => s
  | S n', String _ r => slice n' r
  | S _, EmptyString => EmptyString
  end.

Definition getTokenFromRequest (authHeader : option string) : option string :=
  match authHeader with
  | None => None
  | Some h =>
      if negb (truthyStr (Some h)) || negb (startsWith "Bearer " h)
      then None
      else Some (slice 7 h)
  end.

(** The first lines of every protected handler: a missing or empty token is
    'Unauthorized', a token that [verifyToken] rejects is 'Invalid token'. *)
Definition authenticate (verifyToken : string -> option string)
                        (authorization : option string) : Auth :=
  match getTokenFromRequest
          (Some (match authorization with Some h => h | None => "" end)) with
  | None => NoToken
  | Some token =>
      if truthyStr (Some token) then
        match verifyToken token with
        | Some userId => Verified userId
        | None => InvalidToken
        end
      else NoToken
  end.

(** ** User settings: [PUT /api/user/settings] (src/unnamed/part_004 l.44-84) *)

Inductive SettingsResponse : Type :=
| SettingsUnauthorized             (* 401 *)
| SettingsBadRequest               (* 400 *)
| SettingsError                    (* 500: no such user *)
| SettingsUpdated (user : User).   (* 200 *)

(** [defaultCurrency] is the field of the body as it comes; only the
    strings 'CAD' and 'USD' pass
    [!defaultCurrency || !['CAD', 'USD'].includes(defaultCurrency)]. *)
Definition putSettings (auth : Auth) (defaultCurrency : Json) (db : Database)
  : SettingsResponse * Database :=
  match auth with
  | NoToken | InvalidToken => (SettingsUnauthorized, db)
  | Verified userId =>
      match defaultCurrency with
      | JAbsent | JNull | JBool _ | JNum _ | JOther _ => (SettingsBadRequest, db)
      | JStr s =>
          match parseCurrency s with
          | None => (SettingsBadRequest, db)
          | Some c =>
              if existsb (fun u => String.eqb (u_id u) userId) (users db)
              then (SettingsUpdated (mkUser userId c),
                    mkDatabase
                      (map (fun u => if String.eqb (u_id u) userId
                                     then mkUser (u_id u) c else u) (users db))
                      (transactions db) (exchangeRates db) (portfolioSnapshots db))
              else (SettingsError, db)
          end
      end
  end.

(** The rows of a user. *)
Definition snapshotsOf (userId : string) (rows : list PortfolioSnapshot)
  : list PortfolioSnapshot :=
  filter (fun s => String.eqb (ps_userId s) userId) rows.

(** The rows other than the one of a user and date. *)
Definition snapshotsBut (userId : string) (date : Z) (rows : list PortfolioSnapshot)
  : list PortfolioSnapshot :=
  filter (fun s => negb (snapshotAt userId date s)) rows.

(** ** Reading aids for the ledger *)

(** The Transaction invariant of the schema's users: quantities are
    positive. *)
Definition positiveQuantities (l : list Transaction) : Prop :=
  Forall (fun t => 0 < tx_quantity t) l.

(** What one transaction adds to the cash of a currency. *)
Definition cashEffect (c : Currency) (t : Transaction) : Q :=
  if currency_eqb (tx_currency t) c then
    match tx_type t with
    | DEPOSIT => tx_quantity t * tx_price t
    | WITHDRAWAL => - (tx_quantity t * tx_price t)
    | _ => 0
    end
  else 0.

(** Deposits minus withdrawals in a currency. *)
Fixpoint netCash (c : Currency) (l : list Transaction) : Q :=
  match l with
  | [] => 0
  | t :: r => cashEffect c t + netCash c r
  end.

(** The cost basis of a holding is its quantity at its average cost. *)
Definition basisOk (h : HoldingData) : Prop :=
  0 <= quantity h /\ totalCost h == quantity h * avgPrice h.

(** ** Sample data *)

Definition sampleBuy : Transaction :=
  mkTransaction "u1" "X" BUY 10 5 USD 0.

Definition sampleBuyMore : Transaction :=
  mkTransaction "u1" "X" BUY 10 7 USD 1.

Definition sampleSellPart : Transaction :=
  mkTransaction "u1" "X" SELL 4 9 USD 1.

Definition sampleSellAll : Transaction :=
  mkTransaction "u1" "X" SELL 10 9 USD 1.

(** The ledger of the end-to-end example: 1000 CAD deposited, 10 units of X
    bought at 100 USD, X later quoted at 110 USD. *)
Definition sampleDeposit : Transaction :=
  mkTransaction "u1" "CASH" DEPOSIT 1000 1 CAD 0.

Definition sampleBuyX : Transaction :=
  mkTransaction "u1" "X" BUY 10 100 USD 1.

Definition samplePrices : PriceAdapter :=
  fun s => if String.eqb s "X" then Some (mkAssetPrice "X" 110 USD) else None.

Definition noPrices : PriceAdapter := fun _ => None.

(** A quote of 0.3375 CAD for every symbol. *)
Definition sampleCents : PriceAdapter :=
  fun sym => Some (mkAssetPrice sym (3375 # 10000) CAD).

Definition defaultRates : LiveRates := mkLiveRates (137 # 100) (73 # 100).

Definition deadProvider : Provider := fun _ => ProviderThrows.

Definition sampleDb (txs : list Transaction) : Database :=
  mkDatabase [mkUser "u1" CAD] txs [] [].

(** One row per direction, both written at time 0, with the two rates that
    snapshot/route.ts uses as defaults. *)
Definition sampleRates : list ExchangeRate :=
  [mkExchangeRate CAD USD (73 # 100) 0; mkExchangeRate USD CAD (137 # 100) 0].

Definition tenHours : Z := 10 * msPerHour.

(** At [tenHours]: a CAD to USD rate just written, and a USD to CAD rate
    that is ten hours old. *)
Definition unevenRates : list ExchangeRate :=
  [mkExchangeRate CAD USD (73 # 100) tenHours;
   mkExchangeRate USD CAD (125 # 100) 0].

(** A provider that quotes 1.37 CAD for one USD and 0.73 USD for one CAD. *)
Definition sampleProvider : Provider :=
  fun from =>
    ProviderRates (fun to =>
      match from, to with
      | USD, CAD => Some (137 # 100)
      | CAD, USD => Some (73 # 100)
      | _, _ => Some 1
      end).

Definition sampleRequest (qty : Json) : TransactionRequest :=
  mkRequest (JStr "x") (JStr "BUY") qty (JNum 100) (JStr "USD") JAbsent.

(** A date parser that knows no date. *)
Definition noDates : string -> option Z := fun _ => None.

(** Ten in the morning of day 100, and a store with one snapshot taken at
    the market close of day 97. *)
Definition sampleNow : Z := 100 * msPerDay + 10 * msPerHour.

(** A purchase with a negative quantity, as the write boundary lets it
    through. *)
Definition sampleBuyNegative : Transaction :=
  mkTransaction "u1" "X" BUY (-5) 100 USD 1.

(** A process one hour east of UTC, at 10:00 local time on day 100, and a
    store whose only snapshot was written the day before at 16:00 local
    time. *)
Definition eastNow : Z := 100 * msPerDay + 9 * msPerHour.

Definition eastDb : Database :=
  mkDatabase [mkUser "u1" CAD] [] []
    [mkSnapshot "u1" (marketClose msPerHour (eastNow - msPerDay)) 500 CAD].

Definition seriesDb : Database :=
  mkDatabase [mkUser "u1" CAD] [sampleDeposit] []
    [mkSnapshot "u1" (97 * msPerDay + 16 * msPerHour) 950 CAD].

(** A market that quotes VDY.TO at 45.12345 and nothing else. *)
Definition sampleApi : MarketApi :=
  mkMarketApi
    (fun s => if String.eqb s "VDY.TO" then QuotePrice (4512345 # 100000)
              else QuoteEmpty)
    QuoteRefused.

Definition deadApi : MarketApi := mkMarketApi (fun _ => QuoteThrows) QuoteThrows.

Definition emptyStore : PriceStore := mkPriceStore [] [].

(** Nine in the morning of day 103. *)
Definition laterNow : Z := 103 * msPerDay + 9 * msPerHour.

(** * Properties *)

Section DictFacts.
Context {K V : Type}.
Variable eqb : K -> K -> bool.
Hypothesis eqb_refl : forall k, eqb k k = true.

Lemma dget_dset_same (k : K) (v : V) (d : Dict K V) :
  dget eqb k (dset eqb k v d) = Some v.
Proof.
  induction d as [|[k' v'] r IH]; simpl.
  - now rewrite eqb_refl.
  - destruct (eqb k k') eqn:E; simpl.
    + now rewrite eqb_refl.
    + now rewrite E.
Qed.
End DictFacts.

Lemma Qgtb_lt (x y : Q) : Qgtb x y = true <-> y < x.
Proof.
  unfold Qgtb. rewrite negb_true_iff.
  split; intro H.
  - apply Qnot_le_lt. intro L. apply Qle_bool_iff in L. congruence.
  - destruct (Qle_bool x y) eqn:E; [|reflexivity].
    apply Qle_bool_iff in E. exfalso. now apply (Qlt_not_le y x).
Qed.

Lemma Qle_bool_false (x y : Q) : Qle_bool x y = false <-> y < x.
Proof.
  rewrite <- Qgtb_lt. unfold Qgtb. now rewrite negb_true_iff.
Qed.

(** ** Holdings Calculator *)

Lemma applyTransaction_trade (st : Ledger) (t : Transaction) (h : HoldingData) :
  tx_type t = BUY \/ tx_type t = SELL ->
  dget String.eqb (holdingKey (tx_symbol t) (tx_currency t)) (holdings st) = Some h ->
  dget String.eqb (holdingKey (tx_symbol t) (tx_currency t))
       (holdings (applyTransaction st t))
  = Some (match tx_type t with BUY => applyBuy h t | _ => applySell h t end).
Proof.
  intros Ht Hg. unfold applyTransaction, dhas.
  destruct Ht as [Ht|Ht]; rewrite Ht, Hg; simpl; rewrite Hg; simpl;
    apply dget_dset_same, String.eqb_refl.
Qed.

Lemma applyTransaction_trade_fresh (st : Ledger) (t : Transaction) :
  tx_type t = BUY \/ tx_type t = SELL ->
  dget String.eqb (holdingKey (tx_symbol t) (tx_currency t)) (holdings st) = None ->
  dget String.eqb (holdingKey (tx_symbol t) (tx_currency t))
       (holdings (applyTransaction st t))
  = Some (match tx_type t with
          | BUY => applyBuy (newHolding t) t
          | _ => applySell (newHolding t) t
          end).
Proof.
  intros Ht Hg. unfold applyTransaction, dhas.
  destruct Ht as [Ht|Ht]; rewrite Ht, Hg; simpl;
    rewrite (dget_dset_same _ String.eqb_refl); simpl;
    apply dget_dset_same, String.eqb_refl.
Qed.

(** C1 (amended): a SELL of strictly less than the held quantity keeps the
    average cost, lowers the quantity by the sold amount and the total cost
    by sold quantity times the current average cost; a SELL that brings the
    quantity to zero or below resets quantity, total cost and average cost
    to zero. *)
Theorem sell_step (st : Ledger) (t : Transaction) (h : HoldingData) :
  tx_type t = SELL ->
  dget String.eqb (holdingKey (tx_symbol t) (tx_currency t)) (holdings st) = Some h ->
  exists h',
    dget String.eqb (holdingKey (tx_symbol t) (tx_currency t))
         (holdings (applyTransaction st t)) = Some h' /\
    (tx_quantity t < quantity h ->
       avgPrice h' = avgPrice h /\
       quantity h' = quantity h - tx_quantity t /\
       totalCost h' = totalCost h - tx_quantity t * avgPrice h) /\
    (quantity h - tx_quantity t <= 0 ->
       quantity h' = 0 /\ totalCost h' = 0 /\ avgPrice h' = 0).
Proof.
  intros Ht Hg.
  exists (applySell h t). split.
  - rewrite (applyTransaction_trade st t h (or_intror Ht) Hg). now rewrite Ht.
  - unfold applySell. split; intro Hq.
    + assert (E : Qle_bool (quantity h - tx_quantity t) 0 = false).
      { apply Qle_bool_false. unfold Qminus. rewrite <- Qlt_minus_iff. exact Hq. }
      rewrite E. simpl. auto.
    + apply Qle_bool_iff in Hq. rewrite Hq. simpl. auto.
Qed.

Lemma sell_step_witness :
  exists h',
    dget String.eqb "X-USD"
         (holdings (applyTransaction (foldTransactions [sampleBuy]) sampleSellPart))
    = Some h' /\ avgPrice h' = avgPrice (applyBuy (newHolding sampleBuy) sampleBuy).
Proof.
  destruct (sell_step (foldTransactions [sampleBuy]) sampleSellPart
                      (applyBuy (newHolding sampleBuy) sampleBuy)
                      eq_refl eq_refl) as [h' [G [P _]]].
  exists h'. split; [exact G|].
  apply P. reflexivity.
Defined.

(** C1 as worded ("at most") fails when the whole position is sold: the
    resulting quantity is zero, so the average cost is reset. *)
Lemma sell_whole_position_resets_average :
  ~ (forall st t h,
       tx_type t = SELL ->
       dget String.eqb (holdingKey (tx_symbol t) (tx_currency t)) (holdings st) = Some h ->
       tx_quantity t <= quantity h ->
       exists h',
         dget String.eqb (holdingKey (tx_symbol t) (tx_currency t))
              (holdings (applyTransaction st t)) = Some h' /\
         avgPrice h' == avgPrice h).
Proof.
  intro C.
  destruct (C (foldTransactions [sampleBuy]) sampleSellAll
              (applyBuy (newHolding sampleBuy) sampleBuy)
              eq_refl eq_refl) as [h' [G E]].
  - vm_compute. discriminate.
  - vm_compute in G. injection G as <-. vm_compute in E. discriminate.
Qed.

Lemma applyBuy_average (h : HoldingData) (t : Transaction) :
  0 < quantity h + tx_quantity t ->
  avgPrice (applyBuy h t)
  = (totalCost h + tx_quantity t * tx_price t) / (quantity h + tx_quantity t).
Proof.
  intro Hpos. unfold applyBuy. simpl.
  apply Qgtb_lt in Hpos. now rewrite Hpos.
Qed.

Lemma applyBuy_no_average (h : HoldingData) (t : Transaction) :
  quantity h + tx_quantity t <= 0 -> avgPrice (applyBuy h t) = 0.
Proof.
  intro Hq. unfold applyBuy, Qgtb. simpl.
  apply Qle_bool_iff in Hq. now rewrite Hq.
Qed.

Lemma fold_buys (s : string) (c : Currency) (l : list Transaction) :
  buysOf s c l ->
  forall st h0,
    dget String.eqb (holdingKey s c) (holdings st) = Some h0 ->
    exists h,
      dget String.eqb (holdingKey s c) (holdings (fold_left applyTransaction l st))
      = Some h /\
      quantity h == quantity h0 + totalBought l /\
      totalCost h == totalCost h0 + totalSpent l /\
      (l <> [] ->
       (0 < quantity h -> avgPrice h == totalCost h / quantity h) /\
       (quantity h <= 0 -> avgPrice h == 0)).
Proof.
  induction 1 as [|t l [Ht [Hs Hc]] Hl IH]; intros st h0 Hg.
  - exists h0. simpl. repeat split; try ring; congruence.
  - subst s c.
    pose proof (applyTransaction_trade st t h0 (or_introl Ht) Hg) as G.
    rewrite Ht in G.
    destruct (IH (applyTransaction st t) (applyBuy h0 t) G)
      as [h [Gh [Eq [Ec Ea]]]].
    exists h. simpl fold_left. split; [exact Gh|].
    simpl in Eq, Ec. simpl totalBought. simpl totalSpent.
    split; [rewrite Eq; ring|]. split; [rewrite Ec; ring|].
    intros _. destruct l as [|t' l'].
    + simpl in Gh. rewrite G in Gh. injection Gh as <-. split; intro Hq.
      * rewrite (applyBuy_average h0 t Hq). simpl. reflexivity.
      * rewrite (applyBuy_no_average h0 t Hq). reflexivity.
    + apply Ea. discriminate.
Qed.

(** C2 (amended): on a ledger of purchases of one symbol in one currency,
    the fold ends with the accumulated quantity and the accumulated cost;
    when the accumulated quantity is positive the average cost is their
    quotient, and otherwise it is 0.  Every BUY sets the average cost to
    (total cost + quantity * price) / (quantity + quantity bought) when
    that new quantity is positive, and to 0 when it is not. *)
Theorem buys_average_cost (s : string) (c : Currency) (l : list Transaction) :
  l <> [] ->
  buysOf s c l ->
  (forall h t,
     (0 < quantity h + tx_quantity t ->
      avgPrice (applyBuy h t)
      == (totalCost h + tx_quantity t * tx_price t) / (quantity h + tx_quantity t)) /\
     (quantity h + tx_quantity t <= 0 -> avgPrice (applyBuy h t) == 0)) /\
  exists h,
    dget String.eqb (holdingKey s c) (holdings (foldTransactions l)) = Some h /\
    quantity h == totalBought l /\
    totalCost h == totalSpent l /\
    (0 < totalBought l -> avgPrice h == totalSpent l / totalBought l) /\
    (totalBought l <= 0 -> avgPrice h == 0).
Proof.
  intros Hne Hb. split.
  { intros h t. split; intro Hq.
    - now rewrite applyBuy_average.
    - now rewrite applyBuy_no_average. }
  destruct l as [|t l]; [congruence|].
  inversion Hb as [|? ? [Ht [Hs Hc]] Hb']; subst.
  unfold foldTransactions. simpl fold_left.
  assert (G : dget String.eqb (holdingKey (tx_symbol t) (tx_currency t))
                (holdings (applyTransaction emptyLedger t))
              = Some (applyBuy (newHolding t) t)).
  { rewrite applyTransaction_trade_fresh by (auto || reflexivity). now rewrite Ht. }
  destruct (fold_buys _ _ l Hb' _ _ G) as [h [Gh [Eq [Ec Ea]]]].
  exists h. split; [exact Gh|].
  simpl in Eq, Ec. simpl totalBought. simpl totalSpent.
  assert (Eq' : quantity h == tx_quantity t + totalBought l) by (rewrite Eq; ring).
  assert (Ec' : totalCost h == tx_quantity t * tx_price t + totalSpent l)
    by (rewrite Ec; ring).
  split; [exact Eq'|]. split; [exact Ec'|].
  assert (Ha : (0 < quantity h -> avgPrice h == totalCost h / quantity h) /\
               (quantity h <= 0 -> avgPrice h == 0)).
  { destruct l as [|t' l']; [|apply Ea; discriminate].
    simpl in Gh. rewrite G in Gh. injection Gh as <-. split; intro Hq.
    - rewrite applyBuy_average by exact Hq. simpl. reflexivity.
    - rewrite applyBuy_no_average by exact Hq. reflexivity. }
  destruct Ha as [Hpos Hzero]. split; intro Hq.
  - rewrite <- Ec', <- Eq'. apply Hpos. now rewrite Eq'.
  - apply Hzero. now rewrite Eq'.
Qed.

Lemma buys_average_cost_witness :
  exists h,
    dget String.eqb "X-USD" (holdings (foldTransactions [sampleBuy; sampleBuyMore]))
    = Some h /\
    avgPrice h == 6.
Proof.
  destruct (buys_average_cost "X" USD [sampleBuy; sampleBuyMore])
    as [_ [h [G [_ [_ [A _]]]]]].
  - discriminate.
  - repeat constructor.
  - exists h. split; [exact G|]. rewrite A; reflexivity.
Defined.

(** C2 as worded fails on a ledger that the write boundary lets through: a
    single BUY of -5 at 100 leaves quantity -5 and total cost -500, whose
    quotient is 100, with average cost 0. *)
Lemma negative_buy_has_no_average :
  ~ (forall s c l,
       l <> [] -> buysOf s c l ->
       exists h,
         dget String.eqb (holdingKey s c) (holdings (foldTransactions l)) = Some h /\
         avgPrice h == totalCost h / quantity h).
Proof.
  intro C.
  destruct (C "X" USD [sampleBuyNegative]) as [h [G E]].
  - discriminate.
  - repeat constructor.
  - vm_compute in G. injection G as <-. vm_compute in E. discriminate.
Qed.

(** ** Valuation *)

Lemma reduceSum_from {A : Type} (f : A -> Q) (l : list A) (a : Q) :
  fold_left (fun sum h => sum + f h) l a == a + sumQ (map f l).
Proof.
  revert a. induction l as [|x l IH]; intro a; simpl.
  - ring.
  - rewrite IH. ring.
Qed.

Lemma reduceSum_sumQ {A : Type} (f : A -> Q) (l : list A) :
  reduceSum f l == sumQ (map f l).
Proof.
  unfold reduceSum. rewrite reduceSum_from. ring.
Qed.

Lemma convertedValue_same (rates : LiveRates) (target : Currency) (h : HoldingData) :
  currency h = target -> convertedValue rates target h = totalValue h.
Proof.
  intros <-. unfold convertedValue. now destruct (currency h).
Qed.

Lemma converted_sum_CAD (rates : LiveRates) (hs : list HoldingData) :
  sumQ (map (convertedValue rates CAD) hs)
  == nativeValue CAD hs + nativeValue USD hs * usdToCadRate rates.
Proof.
  unfold nativeValue. induction hs as [|h hs IH]; simpl; [ring|].
  rewrite IH. unfold convertedValue.
  destruct (currency h); simpl; ring.
Qed.

Lemma converted_sum_USD (rates : LiveRates) (hs : list HoldingData) :
  sumQ (map (convertedValue rates USD) hs)
  == nativeValue USD hs + nativeValue CAD hs * cadToUsdRate rates.
Proof.
  unfold nativeValue. induction hs as [|h hs IH]; simpl; [ring|].
  rewrite IH. unfold convertedValue.
  destruct (currency h); simpl; ring.
Qed.

Lemma native_sum (f : HoldingData -> Q) (hs : list HoldingData) :
  sumQ (map f hs)
  == sumQ (map f (filter (fun h => currency_eqb (currency h) CAD) hs))
     + sumQ (map f (filter (fun h => currency_eqb (currency h) USD) hs)).
Proof.
  induction hs as [|h hs IH]; simpl; [ring|].
  rewrite IH. destruct (currency h); simpl; ring.
Qed.

(** C3 (amended): [calculateLivePortfolioValue] converts before it adds:
    its total in CAD is the value of the holdings kept in CAD plus the
    value of the holdings kept in USD multiplied by the USD-to-CAD rate,
    and its total in USD is the value of the USD holdings plus the value of
    the CAD holdings multiplied by the CAD-to-USD rate.  The summary of
    [GET /api/portfolio] applies no rate: its total value is the value of
    the CAD holdings plus the value of the USD holdings as they are, and
    its total cost likewise; that is a sum of converted values when every
    active holding is in the target currency. *)
Theorem totals_and_conversion
    (prices : PriceAdapter) (rates : LiveRates) (target : Currency)
    (txs : list Transaction) :
  liveValueOf prices rates CAD txs
  == nativeValue CAD (map (livePriceHolding prices) (holdingsOf txs))
     + nativeValue USD (map (livePriceHolding prices) (holdingsOf txs))
       * usdToCadRate rates /\
  liveValueOf prices rates USD txs
  == nativeValue USD (map (livePriceHolding prices) (holdingsOf txs))
     + nativeValue CAD (map (livePriceHolding prices) (holdingsOf txs))
       * cadToUsdRate rates /\
  sm_totalValue (snd (getPortfolio prices txs))
  == nativeValue CAD (fst (getPortfolio prices txs))
     + nativeValue USD (fst (getPortfolio prices txs)) /\
  sm_totalCost (snd (getPortfolio prices txs))
  == nativeCost CAD (fst (getPortfolio prices txs))
     + nativeCost USD (fst (getPortfolio prices txs)) /\
  (Forall (fun h => currency h = target) (fst (getPortfolio prices txs)) ->
   sm_totalValue (snd (getPortfolio prices txs))
   == sumQ (map (convertedValue rates target) (fst (getPortfolio prices txs)))).
Proof.
  split; [|split; [|split; [|split]]].
  - unfold liveValueOf. rewrite reduceSum_from, converted_sum_CAD. ring.
  - unfold liveValueOf. rewrite reduceSum_from, converted_sum_USD. ring.
  - simpl. rewrite reduceSum_sumQ. apply native_sum.
  - simpl. rewrite reduceSum_sumQ. apply native_sum.
  - simpl. intro Hall. rewrite reduceSum_sumQ.
    induction Hall as [|h l Hh Hl IH]; simpl; [reflexivity|].
    rewrite (convertedValue_same rates target h Hh), IH. reflexivity.
Qed.

(** 1000 CAD in cash and 10 X quoted at 110 USD: 2507 in CAD at 1.37. *)
Lemma totals_and_conversion_witness :
  liveValueOf samplePrices defaultRates CAD [sampleDeposit; sampleBuyX]
  == 1000 + 1100 * (137 # 100).
Proof.
  destruct (totals_and_conversion samplePrices defaultRates CAD
              [sampleDeposit; sampleBuyX]) as [P _].
  rewrite P. reflexivity.
Defined.

(** C3 as worded fails on [GET /api/portfolio]: with cash in CAD and a
    position in USD the summary total is 1000 + 1100, which is the sum of
    the converted values in neither currency. *)
Lemma portfolio_summary_adds_native_totals :
  ~ (forall prices rates txs,
       exists target,
         sm_totalValue (snd (getPortfolio prices txs))
         == sumQ (map (convertedValue rates target)
                      (fst (getPortfolio prices txs)))).
Proof.
  intro C.
  destruct (C samplePrices defaultRates [sampleDeposit; sampleBuyX]) as [target E].
  destruct target; vm_compute in E; discriminate.
Qed.

(** C4: on a ledger that holds one cash deposit of 1000 CAD, whatever the
    clock, the rate provider, the price adapter and the rate replies are,
    the write path stores a total of 0 while the live valuation in the
    user's currency is 1000. *)
Theorem snapshot_total_differs_from_live_value
    (tz now : Z) (provider : Provider) (prices : PriceAdapter)
    (usdReply cadReply : RatesReply) :
  portfolioSnapshots
    (createPortfolioSnapshot tz now provider prices "u1" (sampleDb [sampleDeposit]))
  = [mkSnapshot "u1" (marketClose tz now) 0 CAD] /\
  calculateLivePortfolioValue prices usdReply cadReply
    (sampleDb [sampleDeposit]) "u1" CAD == 1000.
Proof.
  split.
  - reflexivity.
  - unfold calculateLivePortfolioValue, liveValueOf. simpl. reflexivity.
Qed.

(** The same divergence without cash: a position whose price is unknown is
    left out by the write path and valued at its average cost by the live
    valuation. *)
Lemma snapshot_skips_unpriced_position (tz now : Z) (provider : Provider)
    (usdReply cadReply : RatesReply) :
  portfolioSnapshots
    (createPortfolioSnapshot tz now provider noPrices "u1"
       (sampleDb [mkTransaction "u1" "X" BUY 10 100 CAD 0]))
  = [mkSnapshot "u1" (marketClose tz now) 0 CAD] /\
  calculateLivePortfolioValue noPrices usdReply cadReply
    (sampleDb [mkTransaction "u1" "X" BUY 10 100 CAD 0]) "u1" CAD == 1000.
Proof.
  split; [reflexivity|].
  unfold calculateLivePortfolioValue, liveValueOf. simpl. reflexivity.
Qed.

(** ** Currency Conversion Service *)

Lemma currency_eqb_eq (a b : Currency) : currency_eqb a b = true <-> a = b.
Proof. destruct a, b; simpl; split; congruence. Qed.

Lemma currency_eqb_neq (a b : Currency) : a <> b -> currency_eqb a b = false.
Proof. destruct a, b; simpl; congruence. Qed.

Lemma latestRow_spec (l : list ExchangeRate) (r : ExchangeRate) :
  latestRow l = Some r ->
  In r l /\ forall r', In r' l -> (er_timestamp r' <= er_timestamp r)%Z.
Proof.
  revert r. induction l as [|x l IH]; intros r H; simpl in H; [discriminate|].
  destruct (latestRow l) as [m|] eqn:E.
  - destruct (IH m eq_refl) as [Hin Hmax].
    destruct (er_timestamp x <? er_timestamp m)%Z eqn:C; injection H as <-.
    + apply Z.ltb_lt in C. split; [now right|].
      intros r' [<-|Hr']; [lia|auto].
    + apply Z.ltb_ge in C. split; [now left|].
      intros r' [<-|Hr']; [lia|]. specialize (Hmax r' Hr'). lia.
  - injection H as <-. split; [now left|].
    destruct l; [|simpl in E; destruct (latestRow l); [destruct (_ <? _)%Z|]; discriminate].
    intros r' [<-|[]]. lia.
Qed.

Lemma latestRow_none (l : list ExchangeRate) : latestRow l = None <-> l = [].
Proof.
  split; [|now intros ->].
  destruct l as [|x l]; [reflexivity|]. simpl.
  destruct (latestRow l); [destruct (_ <? _)%Z|]; discriminate.
Qed.

Lemma in_forPair (from to : Currency) (rows : list ExchangeRate) (r : ExchangeRate) :
  In r (filter (forPair from to) rows) <-> storedFor from to rows r.
Proof.
  rewrite filter_In. unfold storedFor, forPair.
  rewrite andb_true_iff, !currency_eqb_eq. tauto.
Qed.

Lemma in_recentFor (now : Z) (from to : Currency) (rows : list ExchangeRate)
                   (r : ExchangeRate) :
  In r (filter (recentFor now from to) rows)
  <-> storedFor from to rows r /\ fresh now r.
Proof.
  rewrite filter_In. unfold storedFor, recentFor, forPair, fresh.
  rewrite !andb_true_iff, !currency_eqb_eq, Z.leb_le. tauto.
Qed.

Lemma no_fresh_row (now : Z) (from to : Currency) (rows : list ExchangeRate) :
  (forall r, storedFor from to rows r -> ~ fresh now r) ->
  latestRow (filter (recentFor now from to) rows) = None.
Proof.
  intro H. apply latestRow_none.
  destruct (filter (recentFor now from to) rows) as [|r l] eqn:E; [reflexivity|].
  assert (Hin : In r (filter (recentFor now from to) rows)) by (rewrite E; now left).
  apply in_recentFor in Hin. destruct Hin as [Hs Hf]. now destruct (H r Hs).
Qed.

Lemma some_row (l : list ExchangeRate) (r : ExchangeRate) :
  In r l -> exists m, latestRow l = Some m.
Proof.
  intro Hin. destruct (latestRow l) as [m|] eqn:E; [now exists m|].
  apply latestRow_none in E. subst. destruct Hin.
Qed.

(** C7: for two distinct currencies, on a table whose rates all passed the
    service's own check, [getExchangeRate] (1) returns the latest stored rate
    when one is timestamped within the last hour, and leaves the table alone;
    (2) otherwise returns the rate the provider gives and appends it as a
    new row; (3) when the fetch fails, returns the most recent stored rate
    of the pair whatever its age; (4) when none is stored either, fails with
    the error of the fetch.  For equal currencies the rate is 1. *)
Theorem rate_resolution_order
    (now : Z) (provider : Provider) (from to : Currency)
    (rows : list ExchangeRate) :
  ratesTruthy rows ->
  from <> to ->
  ((exists r, storedFor from to rows r /\ fresh now r) ->
   exists r, mostRecent from to rows r /\ fresh now r /\
             getExchangeRate now provider from to rows = (Ok (er_rate r), rows)) /\
  ((forall r, storedFor from to rows r -> ~ fresh now r) ->
   (forall rate,
      fetchLatestExchangeRate provider from to = Ok rate ->
      getExchangeRate now provider from to rows
      = (Ok rate, (rows ++ [mkExchangeRate from to rate now])%list)) /\
   (forall e,
      fetchLatestExchangeRate provider from to = Throw e ->
      ((exists r, storedFor from to rows r) ->
       exists r, mostRecent from to rows r /\
                 getExchangeRate now provider from to rows = (Ok (er_rate r), rows)) /\
      ((forall r, ~ storedFor from to rows r) ->
       getExchangeRate now provider from to rows = (Throw e, rows)))) /\
  getExchangeRate now provider from from rows = (Ok 1, rows).
Proof.
  intros Htruthy Hneq.
  pose proof (currency_eqb_neq from to Hneq) as Hne.
  split; [|split].
  - intros [r0 [Hs0 Hf0]].
    destruct (some_row (filter (recentFor now from to) rows) r0) as [m Hm].
    { apply in_recentFor. now split. }
    destruct (latestRow_spec _ _ Hm) as [Hin Hmax].
    apply in_recentFor in Hin. destruct Hin as [Hsm Hfm].
    exists m. split; [|split; [exact Hfm|]].
    + split; [exact Hsm|]. intros r' Hr'.
      destruct (Z_le_gt_dec (now - msPerHour) (er_timestamp r')) as [L|G].
      * apply Hmax. apply in_recentFor. now split.
      * unfold fresh in Hfm. lia.
    + unfold getExchangeRate. now rewrite Hne, Hm.
  - intro Hstale. pose proof (no_fresh_row now from to rows Hstale) as Hnone.
    split.
    + intros rate Hfetch. unfold getExchangeRate.
      now rewrite Hne, Hnone, Hfetch.
    + intros e Hfetch. split.
      * intros [r0 Hs0].
        destruct (some_row (filter (forPair from to) rows) r0) as [m Hm].
        { now apply in_forPair. }
        destruct (latestRow_spec _ _ Hm) as [Hin Hmax].
        apply in_forPair in Hin.
        exists m. split.
        -- split; [exact Hin|]. intros r' Hr'. apply Hmax. now apply in_forPair.
        -- assert (Ht : truthyNum (er_rate m) = true).
           { unfold ratesTruthy in Htruthy. rewrite Forall_forall in Htruthy.
             apply Htruthy. apply Hin. }
           unfold getExchangeRate, getLatestStoredRate.
           now rewrite Hne, Hnone, Hfetch, Hm, Ht, Ht.
      * intro Hempty.
        assert (Hnone' : latestRow (filter (forPair from to) rows) = None).
        { apply latestRow_none.
          destruct (filter (forPair from to) rows) as [|r l] eqn:E; [reflexivity|].
          destruct (Hempty r). apply in_forPair. rewrite E. now left. }
        unfold getExchangeRate, getLatestStoredRate.
        now rewrite Hne, Hnone, Hfetch, Hnone'.
  - unfold getExchangeRate.
    assert (E : currency_eqb from from = true) by now apply currency_eqb_eq.
    now rewrite E.
Qed.

(** The table keeps that shape under the service. *)
Lemma getExchangeRate_keeps_truthy
    (now : Z) (provider : Provider) (from to : Currency)
    (rows : list ExchangeRate) :
  ratesTruthy rows ->
  ratesTruthy (snd (getExchangeRate now provider from to rows)).
Proof.
  intro H. unfold getExchangeRate.
  destruct (currency_eqb from to) eqn:Eft; [exact H|].
  destruct (latestRow _); [exact H|].
  unfold fetchLatestExchangeRate. rewrite Eft.
  assert (Hfb : forall e,
             ratesTruthy
               (snd (match getLatestStoredRate from to rows with
                     | Some fallbackRate =>
                         if truthyNum fallbackRate
                         then (Ok fallbackRate, rows) else (@Throw Q e, rows)
                     | None => (Throw e, rows)
                     end))).
  { intro e. destruct (getLatestStoredRate from to rows) as [q|]; [|exact H].
    now destruct (truthyNum q). }
  destruct (provider from) as [| |rates]; try apply Hfb.
  destruct (rates to) as [rate|]; [|apply Hfb].
  destruct (truthyNum rate) eqn:Et; [|apply Hfb].
  simpl. unfold saveExchangeRate, ratesTruthy.
  apply Forall_app. split; [exact H|]. now repeat constructor.
Qed.

Lemma rate_resolution_order_witness :
  exists r, mostRecent CAD USD sampleRates r /\
            getExchangeRate tenHours deadProvider CAD USD sampleRates
            = (Ok (er_rate r), sampleRates).
Proof.
  assert (Ht : ratesTruthy sampleRates) by (repeat constructor).
  assert (Hd : CAD <> USD) by discriminate.
  destruct (rate_resolution_order tenHours deadProvider CAD USD sampleRates Ht Hd)
    as [_ [P _]].
  assert (Hstale : forall r, storedFor CAD USD sampleRates r -> ~ fresh tenHours r).
  { intros r [[<-|[<-|[]]] _]; vm_compute; intro L; now apply L. }
  destruct (P Hstale) as [_ F].
  destruct (F FetchFailed eq_refl) as [G _].
  apply G. exists (mkExchangeRate CAD USD (73 # 100) 0).
  split; [now left|split; reflexivity].
Defined.

Lemma roundTrip_value
    (now : Z) (provider : Provider) (x : Q) (a b : Currency)
    (rows rows1 rows2 : list ExchangeRate) (r1 r2 : Q) :
  a <> b ->
  getExchangeRate now provider a b rows = (Ok r1, rows1) ->
  getExchangeRate now provider b a rows1 = (Ok r2, rows2) ->
  roundTrip now provider x a b rows = (Ok (x * r1 * r2), rows2).
Proof.
  intros Hab H1 H2. unfold roundTrip, convertAmount.
  rewrite (currency_eqb_neq a b Hab), H1.
  rewrite (currency_eqb_neq b a (not_eq_sym Hab)), H2. reflexivity.
Qed.

(** C8 (amended): when the service resolves rate r1 for (A, B) and then r2
    for (B, A), [convert(convert(x, A, B), B, A)] is x * r1 * r2; it is x
    when the two rates are reciprocal. *)
Theorem round_trip_scales_by_both_rates
    (now : Z) (provider : Provider) (x : Q) (a b : Currency)
    (rows rows1 rows2 : list ExchangeRate) (r1 r2 : Q) :
  a <> b ->
  getExchangeRate now provider a b rows = (Ok r1, rows1) ->
  getExchangeRate now provider b a rows1 = (Ok r2, rows2) ->
  exists y,
    roundTrip now provider x a b rows = (Ok y, rows2) /\
    y == x * (r1 * r2) /\
    (r1 * r2 == 1 -> y == x).
Proof.
  intros Hab H1 H2. exists (x * r1 * r2). split; [|split].
  - now apply (roundTrip_value now provider x a b rows rows1 rows2).
  - ring.
  - intro Hrec. rewrite <- Qmult_assoc, Hrec. ring.
Qed.

Lemma round_trip_scales_by_both_rates_witness :
  exists y,
    roundTrip 0 deadProvider 10000 CAD USD sampleRates = (Ok y, sampleRates) /\
    y == 10000 * ((73 # 100) * (137 # 100)).
Proof.
  destruct (round_trip_scales_by_both_rates 0 deadProvider 10000 CAD USD
              sampleRates sampleRates sampleRates (73 # 100) (137 # 100))
    as [y [R [E _]]].
  - discriminate.
  - reflexivity.
  - reflexivity.
  - exists y. split; [exact R | exact E].
Defined.

(** C8 as worded fails: the two rates are resolved independently.  With
    0.73 stored for CAD to USD and 1.37 for USD to CAD the round trip of x
    is 1.0001 * x, so no absolute tolerance holds for every amount; with a
    fresh 0.73 one way and, the provider being down, a ten hours old 1.25
    the other way, 100 comes back as 91.25, more than one percent off. *)
Lemma round_trip_is_not_identity :
  ~ (exists eps,
       forall now provider x rows y rows',
         roundTrip now provider x CAD USD rows = (Ok y, rows') ->
         Qabs (y - x) <= eps) /\
  ~ (forall now provider x rows y rows',
       roundTrip now provider x CAD USD rows = (Ok y, rows') ->
       Qabs (y - x) <= (1 # 100) * Qabs x).
Proof.
  split.
  - intros [eps C].
    set (x := 10000 * (Qabs eps + 1)).
    assert (R : roundTrip 0 deadProvider x CAD USD sampleRates
                = (Ok (x * (73 # 100) * (137 # 100)), sampleRates)).
    { apply (roundTrip_value 0 deadProvider x CAD USD
               sampleRates sampleRates sampleRates);
        [discriminate | reflexivity | reflexivity]. }
    specialize (C _ _ _ _ _ _ R).
    assert (E : x * (73 # 100) * (137 # 100) - x == Qabs eps + 1).
    { unfold x. ring. }
    rewrite E in C.
    assert (P : 0 <= Qabs eps + 1).
    { apply Qle_trans with (Qabs eps); [apply Qabs_nonneg|].
      rewrite <- (Qplus_0_r (Qabs eps)) at 1. apply Qplus_le_r. discriminate. }
    rewrite (Qabs_pos _ P) in C.
    assert (L : eps < Qabs eps + 1).
    { apply Qle_lt_trans with (Qabs eps); [apply Qle_Qabs|].
      rewrite <- (Qplus_0_r (Qabs eps)) at 1. apply Qplus_lt_r. reflexivity. }
    apply (Qlt_not_le _ _ L). exact C.
  - intro C.
    assert (R : roundTrip tenHours deadProvider 100 CAD USD unevenRates
                = (Ok (100 * (73 # 100) * (125 # 100)), unevenRates)).
    { apply (roundTrip_value tenHours deadProvider 100 CAD USD
               unevenRates unevenRates unevenRates);
        [discriminate | reflexivity | reflexivity]. }
    specialize (C _ _ _ _ _ _ R).
    vm_compute in C. now apply C.
Qed.

(** ** Snapshot write path *)

Lemma snapshotAt_spec (userId : string) (date : Z) (s : PortfolioSnapshot) :
  snapshotAt userId date s = true <-> snapshotKey s = (userId, date).
Proof.
  unfold snapshotAt, snapshotKey.
  rewrite andb_true_iff, String.eqb_eq, Z.eqb_eq.
  split; [intros [-> ->]; reflexivity | intro H; injection H; auto].
Qed.

Lemma snapshotsAt_absent (userId : string) (date : Z) (rows : list PortfolioSnapshot) :
  ~ In (userId, date) (map snapshotKey rows) ->
  snapshotsAt userId date rows = [].
Proof.
  induction rows as [|s rows IH]; simpl; intro H; [reflexivity|].
  destruct (snapshotAt userId date s) eqn:E.
  - apply snapshotAt_spec in E. destruct H. now left.
  - apply IH. intro Hin. apply H. now right.
Qed.

Lemma existsb_snapshotAt (userId : string) (date : Z) (rows : list PortfolioSnapshot) :
  existsb (snapshotAt userId date) rows = true
  <-> In (userId, date) (map snapshotKey rows).
Proof.
  rewrite existsb_exists, in_map_iff. split.
  - intros [s [Hin Hs]]. exists s. split; [now apply snapshotAt_spec | exact Hin].
  - intros [s [Hk Hin]]. exists s. split; [exact Hin | now apply snapshotAt_spec].
Qed.

Lemma upsert_keys_update (userId : string) (date : Z) (v : Q) (c : Currency)
                         (rows : list PortfolioSnapshot) :
  map snapshotKey
      (map (fun s => if snapshotAt userId date s
                     then mkSnapshot (ps_userId s) (ps_date s) v c else s) rows)
  = map snapshotKey rows.
Proof.
  rewrite map_map. apply map_ext. intro s.
  now destruct (snapshotAt userId date s).
Qed.

Lemma upsert_unique (userId : string) (date : Z) (v : Q) (c : Currency)
                    (rows : list PortfolioSnapshot) :
  uniqueSnapshots rows -> uniqueSnapshots (upsertRow userId date v c rows).
Proof.
  unfold uniqueSnapshots, upsertRow. intro H.
  destruct (existsb (snapshotAt userId date) rows) eqn:E.
  - now rewrite upsert_keys_update.
  - rewrite map_app. simpl.
    apply NoDup_app; [exact H | repeat constructor; intros [] |].
    intros k Hk [<-|[]].
    apply existsb_snapshotAt in Hk. simpl in Hk. congruence.
Qed.

Lemma updated_row_found (userId : string) (date : Z) (v : Q) (c : Currency)
                        (rows : list PortfolioSnapshot) :
  NoDup (map snapshotKey rows) ->
  In (userId, date) (map snapshotKey rows) ->
  snapshotsAt userId date
    (map (fun s => if snapshotAt userId date s
                   then mkSnapshot (ps_userId s) (ps_date s) v c else s) rows)
  = [mkSnapshot userId date v c].
Proof.
  induction rows as [|s rows IH]; simpl; intros Hnd Hin; [destruct Hin|].
  inversion Hnd as [|k ks Hk Hnd']; subst.
  destruct (snapshotAt userId date s) eqn:E.
  - pose proof E as Ekey. apply snapshotAt_spec in Ekey.
    unfold snapshotKey in Ekey. injection Ekey as Eu Ed.
    unfold snapshotsAt. simpl. unfold snapshotAt at 1. simpl.
    rewrite Eu, Ed, String.eqb_refl, Z.eqb_refl. simpl. f_equal.
    apply snapshotsAt_absent. rewrite upsert_keys_update.
    unfold snapshotKey in Hk. now rewrite Eu, Ed in Hk.
  - unfold snapshotsAt. simpl. rewrite E. apply IH; [exact Hnd'|].
    destruct Hin as [Hs|Hin]; [|exact Hin].
    apply snapshotAt_spec in Hs. congruence.
Qed.

Lemma upsert_one_row (userId : string) (date : Z) (v : Q) (c : Currency)
                     (rows : list PortfolioSnapshot) :
  uniqueSnapshots rows ->
  snapshotsAt userId date (upsertRow userId date v c rows)
  = [mkSnapshot userId date v c].
Proof.
  unfold uniqueSnapshots, upsertRow. intro H.
  destruct (existsb (snapshotAt userId date) rows) eqn:E.
  - apply updated_row_found; [exact H | now apply existsb_snapshotAt].
  - unfold snapshotsAt. rewrite filter_app.
    assert (Hn : ~ In (userId, date) (map snapshotKey rows)).
    { intro Hin. apply existsb_snapshotAt in Hin. congruence. }
    fold (snapshotsAt userId date rows). rewrite (snapshotsAt_absent _ _ _ Hn).
    simpl. unfold snapshotAt. simpl. now rewrite String.eqb_refl, Z.eqb_refl.
Qed.

Lemma createPortfolioSnapshot_unique
    (tz now : Z) (provider : Provider) (prices : PriceAdapter)
    (userId : string) (db : Database) :
  uniqueSnapshots (portfolioSnapshots db) ->
  uniqueSnapshots
    (portfolioSnapshots (createPortfolioSnapshot tz now provider prices userId db)).
Proof.
  intro H. unfold createPortfolioSnapshot, upsertSnapshot.
  destruct (snapshotValuation now provider prices userId db) as [[| e | v c] rows];
    simpl; auto.
  destruct (fitsDecimal15_2 v); simpl; auto using upsert_unique.
Qed.

Lemma toDecimal2_close (x : Q) : Qabs (toDecimal2 x - x) <= 1 # 200.
Proof.
  unfold toDecimal2. cbv zeta. rewrite Qred_correct.
  apply Qabs_Qle_condition.
  destruct (Qle_bool 0 (x * 100)).
  - pose proof (Qfloor_le (x * 100 + (1 # 2))) as L.
    pose proof (Qlt_floor (x * 100 + (1 # 2))) as U.
    rewrite inject_Z_plus in U.
    set (n := inject_Z (Qfloor (x * 100 + (1 # 2)))) in *.
    change (inject_Z 1) with 1 in U.
    unfold Qdiv; change (/ 100) with (1 # 100); split; lra.
  - pose proof (Qfloor_le (- (x * 100) + (1 # 2))) as L.
    pose proof (Qlt_floor (- (x * 100) + (1 # 2))) as U.
    rewrite inject_Z_plus in U. rewrite inject_Z_opp.
    set (n := inject_Z (Qfloor (- (x * 100) + (1 # 2)))) in *.
    change (inject_Z 1) with 1 in U.
    unfold Qdiv; change (/ 100) with (1 # 100); split; lra.
Qed.

Lemma createPortfolioSnapshot_valued
    (tz now : Z) (provider : Provider) (prices : PriceAdapter)
    (userId : string) (db : Database) (v : Q) (c : Currency)
    (rows : list ExchangeRate) :
  snapshotValuation now provider prices userId db = (Valued v c, rows) ->
  portfolioSnapshots (createPortfolioSnapshot tz now provider prices userId db)
  = if fitsDecimal15_2 v
    then upsertRow userId (marketClose tz now) (toDecimal2 v) c (portfolioSnapshots db)
    else portfolioSnapshots db.
Proof.
  intro Hval. unfold createPortfolioSnapshot, upsertSnapshot. rewrite Hval.
  now destruct (fitsDecimal15_2 v).
Qed.

(** C6 (amended): when the second of two invocations of the write path on
    one day values the portfolio (the ledger is not empty and no conversion
    fails) at a total that fits the column [Decimal(15, 2)], the table holds
    exactly one row for that user and date; its value is the second total
    rounded to two decimals, at most 0.005 away from it, and its currency is
    that of the second valuation.  A second total that does not fit the
    column leaves the table as the first invocation left it.  The unique
    constraint holds afterwards in both cases. *)
Theorem snapshot_written_twice
    (tz now1 now2 : Z) (provider1 provider2 : Provider)
    (prices1 prices2 : PriceAdapter) (userId : string) (db : Database)
    (v : Q) (c : Currency) (rows : list ExchangeRate) :
  uniqueSnapshots (portfolioSnapshots db) ->
  startOfDay tz now1 = startOfDay tz now2 ->
  snapshotValuation now2 provider2 prices2 userId
    (createPortfolioSnapshot tz now1 provider1 prices1 userId db)
  = (Valued v c, rows) ->
  (fitsDecimal15_2 v = true ->
   snapshotsAt userId (marketClose tz now1)
     (portfolioSnapshots
        (createPortfolioSnapshot tz now2 provider2 prices2 userId
           (createPortfolioSnapshot tz now1 provider1 prices1 userId db)))
   = [mkSnapshot userId (marketClose tz now1) (toDecimal2 v) c] /\
   Qabs (toDecimal2 v - v) <= 1 # 200) /\
  (fitsDecimal15_2 v = false ->
   portfolioSnapshots
     (createPortfolioSnapshot tz now2 provider2 prices2 userId
        (createPortfolioSnapshot tz now1 provider1 prices1 userId db))
   = portfolioSnapshots
       (createPortfolioSnapshot tz now1 provider1 prices1 userId db)) /\
  uniqueSnapshots
    (portfolioSnapshots
       (createPortfolioSnapshot tz now2 provider2 prices2 userId
          (createPortfolioSnapshot tz now1 provider1 prices1 userId db))).
Proof.
  intros Hu Hday Hval.
  pose proof (createPortfolioSnapshot_unique tz now1 provider1 prices1 userId db Hu)
    as Hu1.
  pose proof (createPortfolioSnapshot_valued tz now2 provider2 prices2 userId _ v c
                rows Hval) as Hrows.
  split; [|split].
  - intro Hfit. rewrite Hrows, Hfit. split; [|apply toDecimal2_close].
    unfold marketClose. rewrite Hday.
    now apply upsert_one_row.
  - intro Hfit. now rewrite Hrows, Hfit.
  - now apply createPortfolioSnapshot_unique.
Qed.

Lemma snapshot_written_twice_witness :
  snapshotsAt "u1" (marketClose 0 1000)
    (portfolioSnapshots
       (createPortfolioSnapshot 0 2000 sampleProvider sampleCents "u1"
          (createPortfolioSnapshot 0 1000 sampleProvider noPrices "u1"
             (sampleDb [sampleBuyX]))))
  = [mkSnapshot "u1" (marketClose 0 1000) (169 # 50) CAD].
Proof.
  destruct (snapshot_written_twice 0 1000 2000 sampleProvider sampleProvider
              noPrices sampleCents "u1" (sampleDb [sampleBuyX])
              (0 + 10 * (3375 # 10000)) CAD []) as [P _].
  - constructor.
  - reflexivity.
  - reflexivity.
  - apply P. reflexivity.
Defined.

(** The row holds cents: a total of 3.375 is stored as 3.38 (169/50), not
    as computed. *)
Example snapshot_value_is_rounded_to_cents :
  map ps_totalValue
      (portfolioSnapshots
         (createPortfolioSnapshot 0 1000 sampleProvider sampleCents "u1"
            (sampleDb [sampleBuyX])))
  = [169 # 50] /\
  fst (snapshotValuation 1000 sampleProvider sampleCents "u1" (sampleDb [sampleBuyX]))
  = Valued (0 + 10 * (3375 # 10000)) CAD.
Proof. split; reflexivity. Qed.

(** A total of 10^13 or more does not fit the column: the upsert throws
    and no row is written. *)
Example snapshot_overflow_writes_nothing :
  portfolioSnapshots
    (createPortfolioSnapshot 0 1000 sampleProvider
       (fun _ => Some (mkAssetPrice "X" 1000000000000 CAD)) "u1"
       (sampleDb [sampleBuyX]))
  = [].
Proof. reflexivity. Qed.

(** C6 as worded fails for a user without transactions: both invocations
    return before the upsert and no row exists afterwards. *)
Lemma empty_ledger_leaves_no_row :
  ~ (forall tz now1 now2 provider prices userId db,
       uniqueSnapshots (portfolioSnapshots db) ->
       startOfDay tz now1 = startOfDay tz now2 ->
       List.length
         (snapshotsAt userId (marketClose tz now1)
            (portfolioSnapshots
               (createPortfolioSnapshot tz now2 provider prices userId
                  (createPortfolioSnapshot tz now1 provider prices userId db))))
       = 1%nat).
Proof.
  intro C.
  specialize (C 0%Z 1000%Z 2000%Z deadProvider noPrices "u1" (sampleDb [])).
  simpl in C. discriminate C; [constructor | reflexivity].
Qed.

(** C10: for a user without transactions [createPortfolioSnapshot] returns
    the store it was given: no snapshot row is created or updated, and no
    other table changes. *)
Theorem empty_ledger_writes_nothing
    (tz now : Z) (provider : Provider) (prices : PriceAdapter)
    (userId : string) (db : Database) :
  transactionsOf userId db = [] ->
  createPortfolioSnapshot tz now provider prices userId db = db.
Proof.
  intro H. unfold createPortfolioSnapshot, snapshotValuation. now rewrite H.
Qed.

Lemma empty_ledger_writes_nothing_witness :
  createPortfolioSnapshot 0 1000 sampleProvider samplePrices "u2"
    (sampleDb [sampleBuyX])
  = sampleDb [sampleBuyX].
Proof.
  apply empty_ledger_writes_nothing. reflexivity.
Defined.

(** ** Ledger write boundary *)

Lemma truthyNum_nonzero (q : Q) : truthyNum q = true <-> ~ q == 0.
Proof.
  unfold truthyNum. rewrite negb_true_iff. split.
  - intros H E. apply Qeq_bool_iff in E. congruence.
  - intro H. destruct (Qeq_bool q 0) eqn:E; [|reflexivity].
    apply Qeq_bool_iff in E. contradiction.
Qed.

Lemma truthy_text (s : string) : truthy (JStr s) = true <-> s <> "".
Proof.
  simpl. rewrite negb_true_iff. split.
  - intros H E. subst s. discriminate.
  - intro H. now apply String.eqb_neq.
Qed.

(** The outcomes of the handler: a refusal that leaves the table as it
    was, or one appended row built from the request. *)
Lemma postTransaction_cases
    (parseDate : string -> option Z) (now : Z) (auth : Auth)
    (tickers : TickerDirectory) (rq : TransactionRequest)
    (table : list Transaction) :
  (exists r, postTransaction parseDate now auth tickers rq table = (r, table) /\
             (r = Unauthorized \/ r = BadRequest \/ r = ServerError)) \/
  (exists userId symbol type quantity price currency date,
     auth = Verified userId /\
     rq_symbol rq = JStr symbol /\ symbol <> "" /\
     parseType (rq_type rq) = Some type /\
     truthy (rq_quantity rq) = true /\
     parseFloat (rq_quantity rq) = Some quantity /\
     truthy (rq_price rq) = true /\
     parseFloat (rq_price rq) = Some price /\
     parseCurrencyField (rq_currency rq) = Some currency /\
     (if truthy (rq_date rq) then newDate parseDate (rq_date rq) else Some now)
     = Some date /\
     (toUpperCase symbol = "CASH" \/ tickers = None \/
      exists active, tickers = Some active /\ In (toUpperCase symbol) active) /\
     postTransaction parseDate now auth tickers rq table
     = (Created (mkTransaction userId (toUpperCase symbol) type quantity price
                               currency date),
        (table ++ [mkTransaction userId (toUpperCase symbol) type quantity price
                                 currency date])%list)).
Proof.
  unfold postTransaction.
  destruct auth as [| |userId]; [left; eauto | left; eauto |].
  destruct (truthy (rq_symbol rq) && truthy (rq_type rq)
            && truthy (rq_quantity rq) && truthy (rq_price rq)
            && truthy (rq_currency rq)) eqn:T; simpl; [|left; eauto].
  apply andb_true_iff in T. destruct T as [T Tc].
  apply andb_true_iff in T. destruct T as [T Tp].
  apply andb_true_iff in T. destruct T as [T Tq].
  apply andb_true_iff in T. destruct T as [Ts Tt].
  destruct (rq_symbol rq) as [| | | |symbol|]; try (left; now eauto).
  apply truthy_text in Ts.
  set (valid := if String.eqb (toUpperCase symbol) "CASH" then true
                else match tickers with
                     | Some active => existsb (String.eqb (toUpperCase symbol)) active
                     | None => true
                     end).
  assert (Hv : valid = true ->
               toUpperCase symbol = "CASH" \/ tickers = None \/
               exists active, tickers = Some active /\
                              In (toUpperCase symbol) active).
  { unfold valid.
    destruct (String.eqb_spec (toUpperCase symbol) "CASH") as [E|N]; [now left|].
    destruct tickers as [active|]; [|right; now left].
    intro X. right. right. exists active. split; [reflexivity|].
    apply existsb_exists in X. destruct X as [x [Hin Hx]].
    apply String.eqb_eq in Hx. now subst x. }
  destruct valid; [|left; eauto].
  destruct (parseType (rq_type rq)) as [type|]; [|left; eauto].
  destruct (parseFloat (rq_quantity rq)) as [quantity|]; [|left; eauto].
  destruct (parseFloat (rq_price rq)) as [price|]; [|left; eauto].
  destruct (parseCurrencyField (rq_currency rq)) as [currency|]; [|left; eauto].
  destruct (if truthy (rq_date rq) then newDate parseDate (rq_date rq)
            else Some now) as [date|]; [|left; eauto].
  right. exists userId, symbol, type, quantity, price, currency, date.
  repeat split; auto.
Qed.

(** C9 (amended): a transaction that the POST handler accepts carries the
    quantity that [parseFloat] reads from the request's quantity field,
    which is present and truthy, and is appended to the table; when the
    field is a JSON number, the stored quantity is that number and is not
    zero.  A request whose quantity is missing, null, false, the number
    zero or the empty string is never accepted and leaves the table as it
    was. *)
Theorem accepted_quantity_is_nonzero
    (parseDate : string -> option Z) (now : Z) (auth : Auth)
    (tickers : TickerDirectory) (rq : TransactionRequest)
    (table : list Transaction) :
  (forall t table',
     postTransaction parseDate now auth tickers rq table = (Created t, table') ->
     truthy (rq_quantity rq) = true /\
     parseFloat (rq_quantity rq) = Some (tx_quantity t) /\
     (forall n, rq_quantity rq = JNum n -> tx_quantity t = n /\ ~ n == 0) /\
     table' = (table ++ [t])%list) /\
  (truthy (rq_quantity rq) = false ->
   exists r,
     postTransaction parseDate now auth tickers rq table = (r, table) /\
     (r = Unauthorized \/ r = BadRequest)).
Proof.
  split.
  - intros t table' H.
    destruct (postTransaction_cases parseDate now auth tickers rq table)
      as [[r0 [H0 Hr0]]|[userId [symbol [type [quantity [price [currency [date
           [Ha [Hs [Hne [Ht [Tq [Hq [Tp [Hp [Hc [Hd [Hv H']]]]]]]]]]]]]]]]]]].
    + rewrite H0 in H. injection H as E _.
      destruct Hr0 as [->|[->| ->]]; discriminate.
    + rewrite H' in H. injection H as <- <-. simpl.
      split; [exact Tq|]. split; [exact Hq|]. split; [|reflexivity].
      intros n En. rewrite En in Tq, Hq. simpl in Tq, Hq.
      injection Hq as <-. split; [reflexivity|]. now apply truthyNum_nonzero.
  - intro Hq. unfold postTransaction.
    destruct auth as [| |userId]; eauto.
    rewrite Hq, !andb_false_r. simpl. eauto.
Qed.

Lemma accepted_quantity_is_nonzero_witness :
  exists r,
    postTransaction noDates 0 (Verified "u1") None (sampleRequest (JNum 0)) []
    = (r, []) /\ (r = Unauthorized \/ r = BadRequest).
Proof.
  apply (accepted_quantity_is_nonzero noDates 0 (Verified "u1") None
           (sampleRequest (JNum 0)) []).
  reflexivity.
Defined.

(** C9 as worded fails: the handler tests the quantity for truthiness
    only, so a request with quantity -5 is accepted and persisted. *)
Lemma negative_quantity_is_accepted :
  ~ (forall parseDate now auth tickers rq table t table',
       postTransaction parseDate now auth tickers rq table = (Created t, table') ->
       0 < tx_quantity t).
Proof.
  intro C.
  assert (H : 0 < -5).
  { apply (C noDates 0%Z (Verified "u1") None (sampleRequest (JNum (-5))) []
             (mkTransaction "u1" "X" BUY (-5) 100 USD 0)
             [mkTransaction "u1" "X" BUY (-5) 100 USD 0]).
    reflexivity. }
  discriminate H.
Qed.

(** The test comes before [parseFloat]: a quantity sent as the text '0' is
    truthy, so the request is accepted and the row holds quantity 0.  Sent
    as the number 0, the same quantity is refused. *)
Lemma zero_quantity_as_text_is_accepted :
  postTransaction noDates 0 (Verified "u1") None (sampleRequest (JStr "0")) []
  = (Created (mkTransaction "u1" "X" BUY 0 100 USD 0),
     [mkTransaction "u1" "X" BUY 0 100 USD 0]) /\
  postTransaction noDates 0 (Verified "u1") None (sampleRequest (JNum 0)) []
  = (BadRequest, []).
Proof. split; reflexivity. Qed.

(** What [parseFloat] reads from some texts. *)
Example parseFloat_of_texts :
  option_map Qred (parseFloatText "  -12.50abc") = Some (- (25 # 2)) /\
  option_map Qred (parseFloatText ".5e1") = Some 5 /\
  option_map Qred (parseFloatText "7e") = Some 7 /\
  option_map Qred (parseFloatText "1e-2x") = Some (1 # 100) /\
  parseFloatText "abc" = None /\
  parseFloatText "" = None /\
  parseFloatText "." = None /\
  parseFloatText "Infinity" = None.
Proof.
  repeat split; reflexivity.
Qed.

(** ** Snapshot read path *)

Lemma msPerDay_pos : (0 < msPerDay)%Z.
Proof. reflexivity. Qed.

Lemma startOfDay_shift (tz t k : Z) :
  startOfDay tz (t - k * msPerDay) = (startOfDay tz t - k * msPerDay)%Z.
Proof.
  unfold startOfDay.
  replace (t - k * msPerDay + tz)%Z with (t + tz + (- k) * msPerDay)%Z by ring.
  rewrite Z.mod_add by (pose proof msPerDay_pos; lia). ring.
Qed.

Lemma dateKey_shift (t k : Z) : dateKey (t + k * msPerDay) = (dateKey t + k)%Z.
Proof.
  unfold dateKey. apply Z.div_add. pose proof msPerDay_pos; lia.
Qed.

Lemma chartLoop_step (m : Dict Z ChartPoint) (tk : Z) (tv : Q) (uc : Currency)
                     (endDate c : Z) :
  (c <= endDate)%Z ->
  chartLoop m tk tv uc endDate c
  = pointFor m tk tv uc c :: chartLoop m tk tv uc endDate (c + msPerDay)%Z.
Proof.
  intro H. rewrite chartLoop_equation_1.
  destruct (Z_le_dec c endDate) as [L|G]; [reflexivity | contradiction].
Qed.

Lemma chartLoop_stop (m : Dict Z ChartPoint) (tk : Z) (tv : Q) (uc : Currency)
                     (endDate c : Z) :
  (endDate < c)%Z -> chartLoop m tk tv uc endDate c = [].
Proof.
  intro H. rewrite chartLoop_equation_1.
  destruct (Z_le_dec c endDate) as [L|G]; [lia | reflexivity].
Qed.

(** The loop makes one turn per local day from [c] to the day of
    [endDate]. *)
Lemma chartLoop_days (m : Dict Z ChartPoint) (tk : Z) (tv : Q) (uc : Currency)
                     (endDate : Z) (n : nat) :
  forall c,
    (c + Z.of_nat n * msPerDay <= endDate < c + (Z.of_nat n + 1) * msPerDay)%Z ->
    chartLoop m tk tv uc endDate c
    = map (fun i => pointFor m tk tv uc (c + Z.of_nat i * msPerDay)%Z) (seq 0 (S n)).
Proof.
  pose proof msPerDay_pos as HD.
  induction n as [|n IH]; intros c Hc.
  - rewrite chartLoop_step by lia. rewrite chartLoop_stop by lia.
    simpl. now rewrite Z.add_0_r.
  - rewrite chartLoop_step by nia.
    rewrite IH by (rewrite Nat2Z.inj_succ in Hc; nia).
    change (seq 0 (S (S n))) with (0%nat :: seq 1 (S n)).
    rewrite <- seq_shift, map_cons, map_map. f_equal.
    + now rewrite Z.add_0_r.
    + apply map_ext. intro i. f_equal. rewrite Nat2Z.inj_succ. ring.
Qed.

Lemma dget_dset_other {V : Type} (k k' : Z) (v : V) (d : Dict Z V) :
  k <> k' -> dget Z.eqb k (dset Z.eqb k' v d) = dget Z.eqb k d.
Proof.
  intro Hne. induction d as [|[k0 v0] r IH]; simpl.
  - destruct (Z.eqb_spec k k'); [contradiction | reflexivity].
  - destruct (Z.eqb_spec k' k0) as [->|N]; simpl.
    + destruct (Z.eqb_spec k k0); [contradiction | reflexivity].
    + destruct (Z.eqb_spec k k0); [reflexivity | exact IH].
Qed.

Lemma snapshotMap_fold (key : Z) (rows : list PortfolioSnapshot) :
  forall seen m,
    mapAnswers seen m key ->
    mapAnswers (seen ++ rows)
      (fold_left
         (fun m s => dset Z.eqb (dateKey (ps_date s)) (pointOfSnapshot s) m)
         rows m)
      key.
Proof.
  induction rows as [|s rows IH]; intros seen m H; simpl.
  - now rewrite app_nil_r.
  - replace (seen ++ s :: rows)%list with ((seen ++ [s]) ++ rows)%list
      by (rewrite <- app_assoc; reflexivity).
    apply IH. unfold mapAnswers in *.
    destruct (Z.eq_dec key (dateKey (ps_date s))) as [->|Hne].
    + rewrite (dget_dset_same Z.eqb Z.eqb_refl).
      exists s. split; [apply in_or_app; right; now left | auto].
    + rewrite (dget_dset_other _ _ _ _ Hne).
      destruct (dget Z.eqb key m) as [p|].
      * destruct H as [s0 [Hin Hs0]]. exists s0.
        split; [apply in_or_app; now left | exact Hs0].
      * intros s0 Hin. apply in_app_or in Hin.
        destruct Hin as [Hin|[<-|[]]]; [now apply H | congruence].
Qed.

Lemma snapshotMapOf_answers (rows : list PortfolioSnapshot) (key : Z) :
  mapAnswers rows (snapshotMapOf rows) key.
Proof.
  apply (snapshotMap_fold key rows [] []). intros s [].
Qed.

Lemma in_insertSnapshot (x s : PortfolioSnapshot) (l : list PortfolioSnapshot) :
  In x (insertSnapshot s l) <-> x = s \/ In x l.
Proof.
  induction l as [|y l IH]; simpl.
  - intuition.
  - destruct (ps_date s <=? ps_date y)%Z; simpl; [intuition|].
    rewrite IH. intuition.
Qed.

Lemma in_snapshotsInWindow (userId : string) (startDate today : Z)
                           (db : Database) (s : PortfolioSnapshot) :
  In s (snapshotsInWindow userId startDate today db)
  <-> inWindow userId startDate today db s.
Proof.
  unfold snapshotsInWindow, inWindow.
  set (keep := fun s => _).
  assert (G : forall l, In s (fold_right insertSnapshot [] l) <-> In s l).
  { induction l as [|y l IH]; simpl; [tauto|].
    rewrite in_insertSnapshot, IH. intuition. }
  rewrite G, filter_In. unfold keep.
  rewrite !andb_true_iff, String.eqb_eq, Z.leb_le, Z.ltb_lt. tauto.
Qed.

Lemma supportedRanges_days (range : string) (days : Z) :
  In (range, days) supportedRanges ->
  getDaysFromRange range = days /\ (0 <= days)%Z.
Proof.
  unfold supportedRanges. simpl.
  intros [H|[H|[H|[H|[H|[]]]]]]; injection H as <- <-; split; (reflexivity || lia).
Qed.


Lemma startOfDay_local (tz t : Z) :
  startOfDay tz t = (msPerDay * ((t + tz) / msPerDay) - tz)%Z.
Proof.
  unfold startOfDay. pose proof msPerDay_pos as HD.
  pose proof (Z.div_mod (t + tz) msPerDay ltac:(lia)). lia.
Qed.

Lemma dateKey_within (k r : Z) :
  (0 <= r < msPerDay)%Z -> dateKey (msPerDay * k + r) = k.
Proof.
  intro Hr. unfold dateKey. symmetry.
  apply (Z.div_unique _ _ k r); [left; exact Hr | reflexivity].
Qed.

(** West of UTC by less than eight hours, a row written at the market
    close of a local day carries that day's key and falls in the window
    with it. *)
Lemma close_window_by_day (tz now days : Z) (userId : string) (db : Database)
                          (s : PortfolioSnapshot) :
  (- (8 * msPerHour) < tz <= 0)%Z ->
  writtenAtClose tz s ->
  In s (portfolioSnapshots db) ->
  ps_userId s = userId ->
  (dateKey (startOfDay tz now) - days <= dateKey (ps_date s)
   < dateKey (startOfDay tz now))%Z ->
  inWindow userId (windowStart tz now days) (startOfDay tz now) db s.
Proof.
  intros Htz [t Ht] Hin Hu Hk. split; [exact Hin|]. split; [exact Hu|].
  unfold windowStart. rewrite startOfDay_shift.
  rewrite Ht in *. unfold marketClose in *.
  rewrite !startOfDay_local in *.
  set (J := ((now + tz) / msPerDay)%Z) in *.
  set (j := ((t + tz) / msPerDay)%Z) in *.
  assert (E1 : dateKey (msPerDay * J - tz) = J).
  { replace (msPerDay * J - tz)%Z with (msPerDay * J + (- tz))%Z by ring.
    apply dateKey_within. unfold msPerDay, msPerHour in *. lia. }
  assert (E2 : dateKey (msPerDay * j - tz + 16 * msPerHour) = j).
  { replace (msPerDay * j - tz + 16 * msPerHour)%Z
      with (msPerDay * j + (16 * msPerHour - tz))%Z by ring.
    apply dateKey_within. unfold msPerDay, msPerHour in *. lia. }
  rewrite E1, E2 in Hk.
  unfold msPerDay, msPerHour in *. lia.
Qed.

Lemma series_data (tz now : Z) (prices : PriceAdapter)
    (usdReply cadReply : RatesReply) (db : Database) (userId range : string)
    (days : Z) :
  getDaysFromRange range = days ->
  (0 <= days)%Z ->
  sr_data (getSeries tz now prices usdReply cadReply db userId range)
  = map (fun i =>
           pointFor
             (snapshotMapOf
                (snapshotsInWindow userId (windowStart tz now days)
                                   (startOfDay tz now) db))
             (dateKey (startOfDay tz now))
             (sr_liveValueForToday
                (getSeries tz now prices usdReply cadReply db userId range))
             (sr_userCurrency
                (getSeries tz now prices usdReply cadReply db userId range))
             (windowStart tz now days + Z.of_nat i * msPerDay)%Z)
        (seq 0 (S (Z.to_nat days))).
Proof.
  intros Hd Hpos. unfold getSeries. simpl. rewrite Hd.
  apply chartLoop_days.
  unfold windowStart, endOfDay. rewrite startOfDay_shift.
  rewrite Z2Nat.id by exact Hpos.
  pose proof msPerDay_pos. lia.
Qed.

Lemma window_day_key (tz now days : Z) (i : nat) :
  dateKey (windowStart tz now days + Z.of_nat i * msPerDay)
  = (dateKey (startOfDay tz now) - days + Z.of_nat i)%Z.
Proof.
  unfold windowStart. rewrite startOfDay_shift, dateKey_shift.
  replace (startOfDay tz now - days * msPerDay)%Z
    with (startOfDay tz now + (- days) * msPerDay)%Z by ring.
  rewrite dateKey_shift. ring.
Qed.




(** The series of that store: eight points named by the UTC dates 92 to
    99, the last one the live value, and the row of day 99 on none. *)
Example series_east_of_utc :
  map (fun p => (cp_date p, Qred (cp_value p)))
      (sr_data (getSeries msPerHour eastNow noPrices ReplyThrows ReplyThrows
                          eastDb "u1" "7d"))
  = [(92%Z, 0); (93%Z, 0); (94%Z, 0); (95%Z, 0); (96%Z, 0); (97%Z, 0);
     (98%Z, 0); (99%Z, 0)] /\
  map (fun s => dateKey (ps_date s)) (portfolioSnapshots eastDb) = [99%Z].
Proof. split; vm_compute; reflexivity. Qed.

(** The 7-day series of a user whose only snapshot is three days old. *)
Example series_of_seven_days :
  map (fun p => (cp_date p, Qred (cp_value p)))
      (sr_data (getSeries 0 sampleNow noPrices ReplyThrows ReplyThrows
                          seriesDb "u1" "7d"))
  = [(93%Z, 0); (94%Z, 0); (95%Z, 0); (96%Z, 0); (97%Z, 950); (98%Z, 0);
     (99%Z, 0); (100%Z, 1000)].
Proof. vm_compute. reflexivity. Qed.

(** ** Worked examples *)

(** 1000 CAD deposited, 10 X bought at 100 USD, X quoted at 110 USD. *)
Example holdings_of_sample_ledger :
  map (fun h => (symbol h, currency h,
                 [Qred (quantity h); Qred (avgPrice h); Qred (currentPrice h);
                  Qred (totalValue h); Qred (gainLoss h);
                  Qred (gainLossPercent h)]))
      (fst (getPortfolio samplePrices [sampleDeposit; sampleBuyX]))
  = [("X", USD, [10; 100; 110; 1100; 100; 10]);
     ("CASH", CAD, [1000; 1; 1; 1000; 0; 0])].
Proof. vm_compute. reflexivity. Qed.

(** Selling part of a position keeps its average cost. *)
Example partial_sale_keeps_average :
  option_map (fun h => [Qred (quantity h); Qred (avgPrice h); Qred (totalCost h)])
    (dget String.eqb "X-USD"
          (holdings (foldTransactions [sampleBuy; sampleBuyMore; sampleSellPart])))
  = Some [16; 6; 96].
Proof. vm_compute. reflexivity. Qed.

(** A stale rate is used when the provider is down, a fresh quote is stored
    when it is up. *)
Example stale_rate_fallback :
  getExchangeRate tenHours deadProvider USD CAD sampleRates
  = (Ok (137 # 100), sampleRates).
Proof. reflexivity. Qed.

Example fresh_quote_is_stored :
  getExchangeRate tenHours sampleProvider USD CAD sampleRates
  = (Ok (137 # 100),
     (sampleRates ++ [mkExchangeRate USD CAD (137 # 100) tenHours])%list).
Proof. reflexivity. Qed.

(** * Further properties of the code *)

(** ** Dictionaries *)

Section DictKeys.
Context {K V : Type}.
Variable eqb : K -> K -> bool.
Hypothesis eqb_spec : forall a b, eqb a b = true <-> a = b.

Lemma dget_dset_diff (k k' : K) (v : V) (d : Dict K V) :
  k <> k' -> dget eqb k (dset eqb k' v d) = dget eqb k d.
Proof.
  intro Hne.
  assert (Hk : eqb k k' = false).
  { destruct (eqb k k') eqn:E; [|reflexivity]. apply eqb_spec in E. contradiction. }
  induction d as [|[k0 v0] r IH]; simpl.
  - now rewrite Hk.
  - destruct (eqb k' k0) eqn:E; simpl.
    + apply eqb_spec in E. subst k0. now rewrite Hk.
    + destruct (eqb k k0); [reflexivity | exact IH].
Qed.

Lemma dget_in_values (k : K) (v : V) (d : Dict K V) :
  dget eqb k d = Some v -> In v (dvalues d).
Proof.
  induction d as [|[k0 v0] r IH]; simpl; [discriminate|].
  destruct (eqb k k0).
  - intro H. injection H as <-. now left.
  - intro H. right. now apply IH.
Qed.

Lemma in_values_dset (k : K) (v x : V) (d : Dict K V) :
  In x (dvalues (dset eqb k v d)) -> x = v \/ In x (dvalues d).
Proof.
  induction d as [|[k0 v0] r IH]; simpl.
  - intros [<-|[]]. now left.
  - destruct (eqb k k0); simpl.
    + intros [<-|H]; [now left | right; now right].
    + intros [<-|H]; [right; now left|].
      destruct (IH H) as [->|H']; [now left | right; now right].
Qed.

Lemma keys_dset (k : K) (v : V) (d : Dict K V) (x : K) :
  In x (map fst (dset eqb k v d)) -> x = k \/ In x (map fst d).
Proof.
  induction d as [|[k0 v0] r IH]; simpl.
  - intros [<-|[]]. now left.
  - destruct (eqb k k0) eqn:E; simpl.
    + apply eqb_spec in E. subst k0. intros [<-|H]; [now left | right; now right].
    + intros [<-|H]; [right; now left|].
      destruct (IH H) as [->|H']; [now left | right; now right].
Qed.

Lemma nodup_keys_dset (k : K) (v : V) (d : Dict K V) :
  NoDup (map fst d) -> NoDup (map fst (dset eqb k v d)).
Proof.
  induction d as [|[k0 v0] r IH]; simpl; intro H.
  - repeat constructor. intros [].
  - inversion H as [|? ? Hn Hr]; subst.
    destruct (eqb k k0) eqn:E; simpl.
    + apply eqb_spec in E. subst k0. now constructor.
    + constructor; [|now apply IH].
      intro Hin. apply keys_dset in Hin. destruct Hin as [->|Hin]; [|contradiction].
      assert (eqb k k = true) by now apply eqb_spec. congruence.
Qed.

Lemma dget_of_entry (k : K) (v : V) (d : Dict K V) :
  NoDup (map fst d) -> In (k, v) d -> dget eqb k d = Some v.
Proof.
  induction d as [|[k0 v0] r IH]; simpl; intros Hnd Hin; [destruct Hin|].
  inversion Hnd as [|? ? Hn Hr]; subst.
  destruct Hin as [E|Hin].
  - injection E as -> ->.
    assert (eqb k k = true) by now apply eqb_spec. now rewrite H.
  - destruct (eqb k k0) eqn:E.
    + apply eqb_spec in E. subst k0. destruct Hn.
      change k with (fst (k, v)). now apply in_map.
    + now apply IH.
Qed.

Lemma entry_of_dget (k : K) (v : V) (d : Dict K V) :
  dget eqb k d = Some v -> In (k, v) d.
Proof.
  induction d as [|[k0 v0] r IH]; simpl; [discriminate|].
  destruct (eqb k k0) eqn:E.
  - apply eqb_spec in E. subst k0. intro H. injection H as <-. now left.
  - intro H. right. now apply IH.
Qed.
End DictKeys.

Lemma currency_eqb_spec (a b : Currency) : currency_eqb a b = true <-> a = b.
Proof. apply currency_eqb_eq. Qed.

(** ** Holdings Calculator: what the fold keeps *)

Lemma string_eqb_spec (a b : string) : String.eqb a b = true <-> a = b.
Proof. apply String.eqb_eq. Qed.

Lemma forall_values_dset {V : Type} (P : V -> Prop) (k : string) (v : V)
                         (d : Dict string V) :
  Forall P (dvalues d) -> P v -> Forall P (dvalues (dset String.eqb k v d)).
Proof.
  intros Hd Hv. apply Forall_forall. intros x Hx.
  apply in_values_dset in Hx. destruct Hx as [->|Hx]; [exact Hv|].
  rewrite Forall_forall in Hd. now apply Hd.
Qed.

Lemma applyTransaction_values (P : HoldingData -> Prop) (st : Ledger)
                              (t : Transaction) :
  P (newHolding t) ->
  (forall h, P h -> P (applyBuy h t)) ->
  (forall h, P h -> P (applySell h t)) ->
  Forall P (dvalues (holdings st)) ->
  Forall P (dvalues (holdings (applyTransaction st t))).
Proof.
  intros Hnew Hbuy Hsell Hst. unfold applyTransaction.
  set (key := holdingKey (tx_symbol t) (tx_currency t)).
  set (hs := if dhas String.eqb key (holdings st) then holdings st
             else dset String.eqb key (newHolding t) (holdings st)).
  assert (Hhs : Forall P (dvalues hs)).
  { unfold hs. destruct (dhas String.eqb key (holdings st)); [exact Hst|].
    now apply forall_values_dset. }
  assert (Htrade : forall f, (forall h, P h -> P (f h)) ->
            Forall P (dvalues (holdings
              match dget String.eqb key hs with
              | None => mkLedger hs (cashBalances st)
              | Some holding =>
                  mkLedger (dset String.eqb key (f holding) hs) (cashBalances st)
              end))).
  { intros f Hf. destruct (dget String.eqb key hs) as [h|] eqn:G; simpl; [|exact Hhs].
    apply forall_values_dset; [exact Hhs|]. apply Hf.
    rewrite Forall_forall in Hhs. apply Hhs.
    now apply (dget_in_values String.eqb key). }
  destruct (tx_type t); simpl.
  - apply (Htrade (fun h => applyBuy h t)). exact Hbuy.
  - apply (Htrade (fun h => applySell h t)). exact Hsell.
  - exact Hst.
  - exact Hst.
Qed.

Lemma applyBuy_basis (h : HoldingData) (t : Transaction) :
  0 < tx_quantity t -> basisOk h -> basisOk (applyBuy h t).
Proof.
  intros Hq [Hpos Hbasis]. unfold basisOk, applyBuy. simpl.
  assert (Hnew : 0 < quantity h + tx_quantity t).
  { apply Qlt_le_trans with (0 + tx_quantity t).
    - now rewrite Qplus_0_l.
    - apply Qplus_le_l. exact Hpos. }
  split; [now apply Qlt_le_weak|].
  pose proof Hnew as Hb. apply Qgtb_lt in Hb. rewrite Hb.
  field. intro E. rewrite E in Hnew. now apply (Qlt_irrefl 0).
Qed.

Lemma applySell_basis (h : HoldingData) (t : Transaction) :
  basisOk h -> basisOk (applySell h t).
Proof.
  intros [Hpos Hbasis]. unfold basisOk, applySell.
  destruct (Qle_bool (quantity h - tx_quantity t) 0) eqn:E; simpl.
  - split; [apply Qle_refl | ring].
  - apply Qle_bool_false in E. split; [now apply Qlt_le_weak|].
    rewrite Hbasis. ring.
Qed.

Lemma newHolding_basis (t : Transaction) : basisOk (newHolding t).
Proof. unfold basisOk. simpl. split; [apply Qle_refl | ring]. Qed.

Lemma fold_values (P : HoldingData -> Prop) (l : list Transaction) :
  (forall t, In t l -> P (newHolding t)) ->
  (forall t h, In t l -> P h -> P (applyBuy h t)) ->
  (forall t h, In t l -> P h -> P (applySell h t)) ->
  forall st,
    Forall P (dvalues (holdings st)) ->
    Forall P (dvalues (holdings (fold_left applyTransaction l st))).
Proof.
  induction l as [|t l IH]; intros Hn Hb Hs st Hst; simpl; [exact Hst|].
  apply IH.
  - intros t' Ht'. apply Hn. now right.
  - intros t' h Ht'. apply Hb. now right.
  - intros t' h Ht'. apply Hs. now right.
  - apply applyTransaction_values; auto.
    + apply Hn. now left.
    + intro h. apply Hb. now left.
    + intro h. apply Hs. now left.
Qed.

Lemma fold_basis (l : list Transaction) :
  positiveQuantities l ->
  Forall basisOk (dvalues (holdings (foldTransactions l))).
Proof.
  intro Hpos. unfold foldTransactions. apply fold_values.
  - intros t _. apply newHolding_basis.
  - intros t h0 Ht. apply applyBuy_basis.
    unfold positiveQuantities in Hpos. rewrite Forall_forall in Hpos. now apply Hpos.
  - intros t h0 _. apply applySell_basis.
  - constructor.
Qed.

(** On a ledger of positive quantities every holding of the fold has a
    non-negative quantity and a total cost equal to its quantity times its
    average cost; selling never leaves a short position. *)
Theorem cost_basis_invariant (l : list Transaction) (k : string) (h : HoldingData) :
  positiveQuantities l ->
  dget String.eqb k (holdings (foldTransactions l)) = Some h ->
  0 <= quantity h /\ totalCost h == quantity h * avgPrice h.
Proof.
  intros Hpos Hg.
  pose proof (fold_basis l Hpos) as H.
  rewrite Forall_forall in H. apply H.
  now apply (dget_in_values String.eqb k).
Qed.

Lemma cost_basis_invariant_witness :
  exists h,
    dget String.eqb "X-USD"
         (holdings (foldTransactions [sampleBuy; sampleBuyMore; sampleSellPart]))
    = Some h /\
    totalCost h == quantity h * avgPrice h.
Proof.
  eexists. split; [reflexivity|].
  apply (cost_basis_invariant [sampleBuy; sampleBuyMore; sampleSellPart] "X-USD").
  - repeat constructor.
  - reflexivity.
Defined.

(** ** Cash balances *)

Lemma cashOf_dset_same (c : Currency) (b : Q) (cb : Dict Currency Q) :
  cashOf c (dset currency_eqb c b cb) = b.
Proof.
  unfold cashOf. rewrite dget_dset_same; [reflexivity|].
  intro k. now apply currency_eqb_eq.
Qed.

Lemma cashOf_dset_other (c c' : Currency) (b : Q) (cb : Dict Currency Q) :
  c <> c' -> cashOf c (dset currency_eqb c' b cb) = cashOf c cb.
Proof.
  intro H. unfold cashOf.
  now rewrite (dget_dset_diff currency_eqb currency_eqb_spec c c' b cb H).
Qed.

Lemma cashOf_initCash (c c' : Currency) (cb : Dict Currency Q) :
  cashOf c (initCash c' cb) == cashOf c cb.
Proof.
  unfold initCash.
  destruct (dget currency_eqb c' cb) as [b|] eqn:G.
  - destruct (truthyNum b) eqn:T; [reflexivity|].
    destruct (currency_eqb c c') eqn:E.
    + apply currency_eqb_eq in E. subst c'. rewrite cashOf_dset_same.
      unfold cashOf. rewrite G. unfold truthyNum in T.
      apply negb_false_iff in T. apply Qeq_bool_iff in T. now rewrite T.
    + rewrite cashOf_dset_other; [reflexivity|].
      intro H. apply currency_eqb_eq in H. congruence.
  - destruct (currency_eqb c c') eqn:E.
    + apply currency_eqb_eq in E. subst c'. rewrite cashOf_dset_same.
      unfold cashOf. now rewrite G.
    + rewrite cashOf_dset_other; [reflexivity|].
      intro H. apply currency_eqb_eq in H. congruence.
Qed.

Lemma applyTransaction_cash (c : Currency) (st : Ledger) (t : Transaction) :
  cashOf c (cashBalances (applyTransaction st t))
  == cashOf c (cashBalances st) + cashEffect c t.
Proof.
  unfold applyTransaction, cashEffect.
  assert (Htrade : forall (hs : Dict string HoldingData) (f : HoldingData -> HoldingData),
            cashBalances
              match dget String.eqb (holdingKey (tx_symbol t) (tx_currency t)) hs with
              | None => mkLedger hs (cashBalances st)
              | Some holding =>
                  mkLedger (dset String.eqb
                              (holdingKey (tx_symbol t) (tx_currency t))
                              (f holding) hs) (cashBalances st)
              end = cashBalances st).
  { intros hs f. now destruct (dget String.eqb _ hs). }
  destruct (tx_type t) eqn:Ty; simpl.
  - rewrite (Htrade _ (fun h => applyBuy h t)).
    destruct (currency_eqb (tx_currency t) c); ring.
  - rewrite (Htrade _ (fun h => applySell h t)).
    destruct (currency_eqb (tx_currency t) c); ring.
  - destruct (currency_eqb (tx_currency t) c) eqn:E.
    + apply currency_eqb_eq in E. subst c.
      rewrite cashOf_dset_same, cashOf_initCash. reflexivity.
    + rewrite cashOf_dset_other, cashOf_initCash; [ring|].
      intro H. subst c. destruct (tx_currency t); discriminate.
  - destruct (currency_eqb (tx_currency t) c) eqn:E.
    + apply currency_eqb_eq in E. subst c.
      rewrite cashOf_dset_same, cashOf_initCash. reflexivity.
    + rewrite cashOf_dset_other, cashOf_initCash; [ring|].
      intro H. subst c. destruct (tx_currency t); discriminate.
Qed.

Lemma fold_cash (c : Currency) (l : list Transaction) :
  forall st,
    cashOf c (cashBalances (fold_left applyTransaction l st))
    == cashOf c (cashBalances st) + netCash c l.
Proof.
  induction l as [|t l IH]; intro st; simpl.
  - ring.
  - rewrite IH, applyTransaction_cash. ring.
Qed.

(** After the fold the cash balance of a currency is the sum of the
    deposits minus the sum of the withdrawals in that currency, each counted
    as quantity times price; trades do not move cash and the balance is not
    floored. *)
Theorem cash_balance_is_net (c : Currency) (l : list Transaction) :
  cashOf c (cashBalances (foldTransactions l)) == netCash c l.
Proof.
  unfold foldTransactions. rewrite fold_cash. simpl. unfold cashOf. simpl. ring.
Qed.

Lemma foldTransactions_cash (c : Currency) (l : list Transaction) :
  cashOf c (cashBalances (foldTransactions l)) == netCash c l.
Proof.
  unfold foldTransactions. rewrite fold_cash. simpl. unfold cashOf. simpl. ring.
Qed.

Lemma initCash_keys (c : Currency) (cb : Dict Currency Q) :
  NoDup (map fst cb) -> NoDup (map fst (initCash c cb)).
Proof.
  intro H. unfold initCash.
  destruct (dget currency_eqb c cb) as [b|]; [destruct (truthyNum b)|]; auto;
    now apply (nodup_keys_dset currency_eqb currency_eqb_spec).
Qed.

Lemma applyTransaction_cash_keys (st : Ledger) (t : Transaction) :
  NoDup (map fst (cashBalances st)) ->
  NoDup (map fst (cashBalances (applyTransaction st t))).
Proof.
  intro H. unfold applyTransaction.
  destruct (tx_type t); simpl;
    try (apply (nodup_keys_dset currency_eqb currency_eqb_spec);
         now apply initCash_keys);
    now destruct (dget String.eqb _ _).
Qed.

Lemma fold_cash_keys (l : list Transaction) :
  forall st,
    NoDup (map fst (cashBalances st)) ->
    NoDup (map fst (cashBalances (fold_left applyTransaction l st))).
Proof.
  induction l as [|t l IH]; intros st H; simpl; [exact H|].
  apply IH. now apply applyTransaction_cash_keys.
Qed.

Lemma cash_key_injective (c c' : Currency) :
  c <> c' -> "CASH-" ++ currencyName c <> "CASH-" ++ currencyName c'.
Proof. destruct c, c'; simpl; congruence. Qed.

Lemma cash_fold_other (c : Currency) (es : list (Currency * Q)) :
  ~ In c (map fst es) ->
  forall hs,
    dget String.eqb ("CASH-" ++ currencyName c)
      (fold_left
         (fun hs '(c, balance) =>
            if Qgtb balance 0
            then dset String.eqb ("CASH-" ++ currencyName c) (cashHolding c balance) hs
            else hs)
         es hs)
    = dget String.eqb ("CASH-" ++ currencyName c) hs.
Proof.
  induction es as [|[c0 b0] es IH]; intros Hn hs; cbn [fold_left]; [reflexivity|].
  rewrite IH by (intro H; apply Hn; now right).
  destruct (Qgtb b0 0); [|reflexivity].
  apply (dget_dset_diff String.eqb string_eqb_spec).
  apply cash_key_injective. intro E. apply Hn. left. simpl. congruence.
Qed.

Lemma cash_fold_entry (c : Currency) (b : Q) (es : list (Currency * Q)) :
  NoDup (map fst es) ->
  In (c, b) es ->
  Qgtb b 0 = true ->
  forall hs,
    dget String.eqb ("CASH-" ++ currencyName c)
      (fold_left
         (fun hs '(c, balance) =>
            if Qgtb balance 0
            then dset String.eqb ("CASH-" ++ currencyName c) (cashHolding c balance) hs
            else hs)
         es hs)
    = Some (cashHolding c b).
Proof.
  induction es as [|[c0 b0] es IH]; intros Hnd Hin Hb hs; [destruct Hin|].
  inversion Hnd as [|? ? Hn Hr]; subst. cbn [fold_left].
  destruct Hin as [E|Hin].
  - injection E as -> ->. rewrite Hb.
    rewrite cash_fold_other by exact Hn.
    apply dget_dset_same, String.eqb_refl.
  - now apply IH.
Qed.

Lemma cash_fold_values (h : HoldingData) (es : list (Currency * Q)) :
  forall hs,
    In h (dvalues
            (fold_left
               (fun hs '(c, balance) =>
                  if Qgtb balance 0
                  then dset String.eqb ("CASH-" ++ currencyName c)
                            (cashHolding c balance) hs
                  else hs)
               es hs)) ->
    In h (dvalues hs) \/
    exists c b, In (c, b) es /\ Qgtb b 0 = true /\ h = cashHolding c b.
Proof.
  induction es as [|[c0 b0] es IH]; intros hs Hin; simpl in Hin; [now left|].
  destruct (IH _ Hin) as [Hold|[c [b [Hc [Hb Hh]]]]].
  - destruct (Qgtb b0 0) eqn:E.
    + apply in_values_dset in Hold. destruct Hold as [->|Hold]; [|now left].
      right. exists c0, b0. split; [now left | auto].
    + now left.
  - right. exists c, b. split; [now right | auto].
Qed.

Lemma fold_not_cash (l : list Transaction) :
  Forall (fun h => isCash h = false) (dvalues (holdings (foldTransactions l))).
Proof.
  unfold foldTransactions. apply fold_values.
  - reflexivity.
  - intros t h _ H. exact H.
  - intros t h _ H. unfold applySell. now destruct (Qle_bool _ 0).
  - constructor.
Qed.

(** The cash position of a currency is reported exactly when deposits
    exceed withdrawals in it: it is then the [CASH] holding of that currency
    with the net balance as quantity, value and cost; with a zero or
    negative balance no cash holding of the currency is reported. *)
Theorem cash_holding_iff_positive_balance (l : list Transaction) (c : Currency) :
  (0 < netCash c l ->
   exists b, b == netCash c l /\ In (cashHolding c b) (holdingsOf l)) /\
  (forall h,
     In h (holdingsOf l) -> isCash h = true -> currency h = c ->
     0 < netCash c l /\ exists b, b == netCash c l /\ h = cashHolding c b).
Proof.
  pose proof (foldTransactions_cash c l) as Hnet.
  assert (Hnd : NoDup (map fst (cashBalances (foldTransactions l)))).
  { unfold foldTransactions. apply fold_cash_keys. constructor. }
  split.
  - intro Hpos. unfold cashOf in Hnet.
    destruct (dget currency_eqb c (cashBalances (foldTransactions l))) as [b|] eqn:G.
    + exists b. split; [exact Hnet|].
      assert (Hb : Qgtb b 0 = true) by (apply Qgtb_lt; now rewrite Hnet).
      unfold holdingsOf, activeHoldings. apply filter_In. split; [|exact Hb].
      apply (dget_in_values String.eqb ("CASH-" ++ currencyName c)).
      unfold addCashPositions. apply cash_fold_entry; [exact Hnd | | exact Hb].
      now apply (entry_of_dget currency_eqb currency_eqb_spec).
    + rewrite <- Hnet in Hpos. now apply Qlt_irrefl in Hpos.
  - intros h Hin Hcash Hcur.
    unfold holdingsOf, activeHoldings in Hin. apply filter_In in Hin.
    destruct Hin as [Hin _]. unfold addCashPositions in Hin.
    apply cash_fold_values in Hin.
    destruct Hin as [Hold|[c' [b [Hentry [Hb Hh]]]]].
    + pose proof (fold_not_cash l) as Hnc. rewrite Forall_forall in Hnc.
      specialize (Hnc h Hold). congruence.
    + subst h. simpl in Hcur. subst c'.
      apply (dget_of_entry currency_eqb currency_eqb_spec) in Hentry; [|exact Hnd].
      unfold cashOf in Hnet. rewrite Hentry in Hnet.
      split; [rewrite <- Hnet; now apply Qgtb_lt|].
      exists b. split; [exact Hnet | reflexivity].
Qed.

Lemma cash_holding_iff_positive_balance_witness :
  exists b, b == 1000 /\ In (cashHolding CAD b) (holdingsOf [sampleDeposit; sampleBuyX]).
Proof.
  destruct (cash_holding_iff_positive_balance [sampleDeposit; sampleBuyX] CAD)
    as [P _].
  destruct P as [b [E Hin]]; [reflexivity|].
  exists b. split; [|exact Hin]. rewrite E. reflexivity.
Defined.

(** ** Valuation: gains *)

Lemma holdingsOf_cases (l : list Transaction) (h : HoldingData) :
  In h (holdingsOf l) ->
  Qgtb (quantity h) 0 = true /\
  ((In h (dvalues (holdings (foldTransactions l))) /\ isCash h = false) \/
   exists c b, h = cashHolding c b).
Proof.
  unfold holdingsOf, activeHoldings, addCashPositions. intro Hin.
  apply filter_In in Hin. destruct Hin as [Hin Hq]. split; [exact Hq|].
  apply cash_fold_values in Hin.
  destruct Hin as [Hold|[c [b [_ [_ Hh]]]]].
  - left. split; [exact Hold|].
    pose proof (fold_not_cash l) as Hnc. rewrite Forall_forall in Hnc. now apply Hnc.
  - right. now exists c, b.
Qed.

Lemma priceHolding_gain (prices : PriceAdapter) (h : HoldingData) :
  (isCash h = false -> totalCost h == quantity h * avgPrice h) ->
  (isCash h = true -> gainLoss h == totalValue h - totalCost h) ->
  gainLoss (priceHolding prices h)
  == totalValue (priceHolding prices h) - totalCost (priceHolding prices h).
Proof.
  intros Htrade Hcash. unfold priceHolding.
  destruct (isCash h) eqn:E; [now apply Hcash|].
  destruct (prices (symbol h)); simpl.
  - reflexivity.
  - rewrite (Htrade eq_refl). ring.
Qed.

Lemma sum_of_gains (hs : list HoldingData) :
  Forall (fun h => gainLoss h == totalValue h - totalCost h) hs ->
  sumQ (map gainLoss hs) == sumQ (map totalValue hs) - sumQ (map totalCost hs).
Proof.
  induction 1 as [|h hs Hh _ IH]; simpl; [ring|].
  rewrite Hh, IH. ring.
Qed.

(** On a ledger of positive quantities, every holding that
    [GET /api/portfolio] reports has a positive quantity and a gain equal to
    its value minus its cost, also when its price is unknown (value and cost
    are then both quantity times average cost) and for cash; the summary's
    total gain is the sum of the holdings' gains. *)
Theorem gains_add_up (prices : PriceAdapter) (l : list Transaction) :
  positiveQuantities l ->
  (forall h, In h (fst (getPortfolio prices l)) ->
             0 < quantity h /\ gainLoss h == totalValue h - totalCost h) /\
  sm_totalGainLoss (snd (getPortfolio prices l))
  == sumQ (map gainLoss (fst (getPortfolio prices l))).
Proof.
  intro Hpos.
  assert (Hall : forall h, In h (fst (getPortfolio prices l)) ->
            0 < quantity h /\ gainLoss h == totalValue h - totalCost h).
  { simpl. intros h' Hin. apply in_map_iff in Hin. destruct Hin as [h [<- Hin]].
    destruct (holdingsOf_cases l h Hin) as [Hq Hcase]. split.
    - apply Qgtb_lt in Hq. unfold priceHolding.
      destruct (isCash h); [exact Hq|]. now destruct (prices (symbol h)).
    - apply priceHolding_gain.
      + intro Hc. destruct Hcase as [[Hold _]|[c [b ->]]]; [|discriminate].
        pose proof (fold_basis l Hpos) as Hb. rewrite Forall_forall in Hb.
        now destruct (Hb h Hold).
      + intro Hc. destruct Hcase as [[_ Hn]|[c [b ->]]]; [congruence|].
        simpl. ring. }
  split; [exact Hall|].
  rewrite sum_of_gains by (apply Forall_forall; intros h Hh; now apply Hall).
  simpl. now rewrite !reduceSum_sumQ.
Qed.

Lemma gains_add_up_witness :
  sm_totalGainLoss (snd (getPortfolio samplePrices [sampleDeposit; sampleBuyX]))
  == sumQ (map gainLoss (fst (getPortfolio samplePrices [sampleDeposit; sampleBuyX]))).
Proof.
  apply (gains_add_up samplePrices [sampleDeposit; sampleBuyX]).
  repeat constructor.
Defined.

(** ** Valuation: the two paths *)

Lemma convertedValue_priced (prices : PriceAdapter) (rates : LiveRates)
                            (target : Currency) (h : HoldingData) :
  convertedValue rates target (livePriceHolding prices h)
  = convertedValue rates target (priceHolding prices h).
Proof.
  unfold convertedValue, livePriceHolding, priceHolding.
  destruct (isCash h); [reflexivity|].
  destruct (prices (symbol h)); reflexivity.
Qed.

(** The live portfolio value is what a caller obtains from the holdings
    that [GET /api/portfolio] reports by converting each one's total value
    to the target currency and adding them up; when every reported holding
    is in the target currency it is the summary's total value, whatever the
    exchange-rate replies were. *)
Theorem live_value_agrees_with_portfolio
    (prices : PriceAdapter) (rates : LiveRates) (target : Currency)
    (l : list Transaction) :
  liveValueOf prices rates target l
  == sumQ (map (convertedValue rates target) (fst (getPortfolio prices l))) /\
  (Forall (fun h => currency h = target) (holdingsOf l) ->
   liveValueOf prices rates target l == sm_totalValue (snd (getPortfolio prices l))).
Proof.
  assert (E : liveValueOf prices rates target l
              == sumQ (map (convertedValue rates target)
                           (fst (getPortfolio prices l)))).
  { unfold liveValueOf. rewrite reduceSum_from. simpl. rewrite !map_map.
    rewrite (map_ext _ _ (convertedValue_priced prices rates target)). ring. }
  split; [exact E|].
  intro Hall. rewrite E. simpl. rewrite reduceSum_sumQ, !map_map.
  induction Hall as [|h hs Hh _ IH]; simpl; [reflexivity|].
  rewrite IH. apply Qplus_inj_r.
  rewrite convertedValue_same; [reflexivity|].
  unfold priceHolding. destruct (isCash h); [exact Hh|].
  now destruct (prices (symbol h)).
Qed.

Lemma live_value_agrees_with_portfolio_witness :
  liveValueOf samplePrices defaultRates USD [sampleBuyX]
  == sm_totalValue (snd (getPortfolio samplePrices [sampleBuyX])).
Proof.
  apply (live_value_agrees_with_portfolio samplePrices defaultRates USD [sampleBuyX]).
  repeat constructor.
Defined.

Lemma orDefault_truthy (x : option Q) (d : Q) :
  truthyNum d = true -> truthyNum (orDefault x d) = true.
Proof.
  intro Hd. unfold orDefault. destruct x as [r|]; [|exact Hd].
  destruct (truthyNum r) eqn:E; [exact E | exact Hd].
Qed.

(** The rates used by the live valuation are decided by the two replies.
    The USD-to-CAD rate is the rate of the first reply when that reply is
    ok and carries a rate other than zero, and 1.37 in every other case.
    The CAD-to-USD rate is the rate of the second reply when the first
    request did not throw and the second reply is ok and carries a rate
    other than zero, and 0.73 in every other case: a throw of the first
    request discards the second reply.  Neither rate is ever zero. *)
Theorem live_rates_are_never_zero (usdReply cadReply : RatesReply) :
  (forall x, usableRate usdReply = Some x ->
             usdToCadRate (liveRates usdReply cadReply) = x) /\
  (usableRate usdReply = None ->
   usdToCadRate (liveRates usdReply cadReply) = 137 # 100) /\
  (forall y, usdReply <> ReplyThrows -> usableRate cadReply = Some y ->
             cadToUsdRate (liveRates usdReply cadReply) = y) /\
  (usdReply = ReplyThrows \/ usableRate cadReply = None ->
   cadToUsdRate (liveRates usdReply cadReply) = 73 # 100) /\
  ~ usdToCadRate (liveRates usdReply cadReply) == 0 /\
  ~ cadToUsdRate (liveRates usdReply cadReply) == 0.
Proof.
  assert (Hsome : forall r d x, usableRate (ReplyRate r) = Some x -> orDefault r d = x).
  { intros [z|] d x; simpl; [|discriminate].
    destruct (truthyNum z); [|discriminate]. intro E. now injection E. }
  assert (Hnone : forall r d, usableRate (ReplyRate r) = None -> orDefault r d = d).
  { intros [z|] d; simpl; [|reflexivity].
    destruct (truthyNum z); [discriminate | reflexivity]. }
  split; [|split; [|split; [|split; [|split]]]].
  - intros x Hx. destruct usdReply as [| |r]; try discriminate.
    destruct cadReply; simpl; now apply Hsome.
  - intro Hx. destruct usdReply as [| |r]; try (now destruct cadReply).
    destruct cadReply; simpl; now apply Hnone.
  - intros y Hu Hy. destruct cadReply as [| |r']; try discriminate.
    destruct usdReply; simpl; [contradiction | now apply Hsome | now apply Hsome].
  - intros [->|Hy]; [reflexivity|].
    destruct cadReply as [| |r']; try (now destruct usdReply).
    destruct usdReply; simpl; [reflexivity | now apply Hnone | now apply Hnone].
  - apply truthyNum_nonzero.
    destruct usdReply as [| |r], cadReply as [| |r']; simpl;
      try reflexivity; now apply orDefault_truthy.
  - apply truthyNum_nonzero.
    destruct usdReply as [| |r], cadReply as [| |r']; simpl;
      try reflexivity; now apply orDefault_truthy.
Qed.

(** A reply of 1.40 is used; after a throw of the first request both
    defaults stay, whatever the second would have answered. *)
Example live_rates_of_two_replies :
  liveRates (ReplyRate (Some (140 # 100))) ReplyNotOk
  = mkLiveRates (140 # 100) (73 # 100) /\
  liveRates ReplyThrows (ReplyRate (Some (70 # 100)))
  = mkLiveRates (137 # 100) (73 # 100).
Proof. split; reflexivity. Qed.

(** ** Currency service: the table *)

Lemma fetch_truthy (provider : Provider) (from to : Currency) (rate : Q) :
  fetchLatestExchangeRate provider from to = Ok rate -> truthyNum rate = true.
Proof.
  unfold fetchLatestExchangeRate.
  destruct (currency_eqb from to).
  - intro H. injection H as <-. reflexivity.
  - destruct (provider from) as [| |rates]; try discriminate.
    destruct (rates to) as [r|]; [|discriminate].
    destruct (truthyNum r) eqn:E; [|discriminate].
    intro H. now injection H as <-.
Qed.

Lemma getExchangeRate_cases
    (now : Z) (provider : Provider) (from to : Currency)
    (rows : list ExchangeRate) :
  snd (getExchangeRate now provider from to rows) = rows \/
  exists rate,
    fetchLatestExchangeRate provider from to = Ok rate /\
    getExchangeRate now provider from to rows
    = (Ok rate, (rows ++ [mkExchangeRate from to rate now])%list).
Proof.
  unfold getExchangeRate.
  destruct (currency_eqb from to); [now left|].
  destruct (latestRow _); [now left|].
  destruct (fetchLatestExchangeRate provider from to) as [rate|e].
  - right. now exists rate.
  - left. destruct (getLatestStoredRate from to rows) as [q|]; [|reflexivity].
    now destruct (truthyNum q).
Qed.

(** The rate table is append-only under the service: a call leaves the
    rows as they are or appends exactly one row, which is for the requested
    pair, timestamped now, and carries the non-zero rate that the call
    returns; a failing call appends nothing. *)
Theorem rate_table_is_append_only
    (now : Z) (provider : Provider) (from to : Currency)
    (rows : list ExchangeRate) :
  (snd (getExchangeRate now provider from to rows) = rows \/
   exists rate,
     truthyNum rate = true /\
     getExchangeRate now provider from to rows
     = (Ok rate, (rows ++ [mkExchangeRate from to rate now])%list)) /\
  (forall e, fst (getExchangeRate now provider from to rows) = Throw e ->
             snd (getExchangeRate now provider from to rows) = rows).
Proof.
  destruct (getExchangeRate_cases now provider from to rows) as [H|[rate [Hf H]]].
  - split; [now left | auto].
  - split.
    + right. exists rate. split; [now apply (fetch_truthy provider from to) | exact H].
    + rewrite H. simpl. discriminate.
Qed.

Lemma stale_rows_not_recent (now now' : Z) (from to : Currency)
                            (rows : list ExchangeRate) :
  (now <= now')%Z ->
  (forall r, storedFor from to rows r -> ~ fresh now r) ->
  filter (recentFor now' from to) rows = [].
Proof.
  intros Hle Hstale.
  destruct (filter (recentFor now' from to) rows) as [|r l] eqn:E; [reflexivity|].
  assert (Hin : In r (filter (recentFor now' from to) rows)) by (rewrite E; now left).
  apply in_recentFor in Hin. destruct Hin as [Hs Hf].
  destruct (Hstale r Hs). unfold fresh in *. lia.
Qed.

Lemma recentFor_new_row (now now' : Z) (from to : Currency) (rate : Q) :
  (now <= now' <= now + msPerHour)%Z ->
  recentFor now' from to (mkExchangeRate from to rate now) = true.
Proof.
  intro H. unfold recentFor, forPair. simpl.
  assert (E1 : currency_eqb from from = true) by now apply currency_eqb_eq.
  assert (E2 : currency_eqb to to = true) by now apply currency_eqb_eq.
  rewrite E1, E2. simpl. apply Z.leb_le. lia.
Qed.

(** A rate fetched from the provider is served from the table for the next
    hour: any later call for the same pair within that hour returns the same
    rate without consulting the provider and without writing. *)
Theorem fetched_rate_is_cached
    (now now' : Z) (provider provider' : Provider) (from to : Currency)
    (rows : list ExchangeRate) (rate : Q) :
  from <> to ->
  (forall r, storedFor from to rows r -> ~ fresh now r) ->
  fetchLatestExchangeRate provider from to = Ok rate ->
  (now <= now' <= now + msPerHour)%Z ->
  getExchangeRate now provider from to rows
  = (Ok rate, (rows ++ [mkExchangeRate from to rate now])%list) /\
  getExchangeRate now' provider' from to
    (rows ++ [mkExchangeRate from to rate now])%list
  = (Ok rate, (rows ++ [mkExchangeRate from to rate now])%list).
Proof.
  intros Hneq Hstale Hfetch Hnow.
  pose proof (currency_eqb_neq from to Hneq) as Hne.
  split.
  - unfold getExchangeRate.
    now rewrite Hne, (no_fresh_row now from to rows Hstale), Hfetch.
  - unfold getExchangeRate. rewrite Hne, filter_app.
    rewrite (stale_rows_not_recent now now' from to rows) by (lia || exact Hstale).
    simpl. now rewrite (recentFor_new_row now now' from to rate Hnow).
Qed.

Lemma fetched_rate_is_cached_witness :
  getExchangeRate (tenHours + 1000) deadProvider USD CAD
    (sampleRates ++ [mkExchangeRate USD CAD (137 # 100) tenHours])%list
  = (Ok (137 # 100),
     (sampleRates ++ [mkExchangeRate USD CAD (137 # 100) tenHours])%list).
Proof.
  apply (fetched_rate_is_cached tenHours (tenHours + 1000) sampleProvider
           deadProvider USD CAD sampleRates (137 # 100)).
  - discriminate.
  - intros r [[<-|[<-|[]]] _]; vm_compute; intro L; now apply L.
  - reflexivity.
  - vm_compute. split; discriminate.
Defined.

Lemma getExchangeRate_truthy
    (now : Z) (provider : Provider) (from to : Currency)
    (rows rows' : list ExchangeRate) (r : Q) :
  ratesTruthy rows ->
  getExchangeRate now provider from to rows = (Ok r, rows') ->
  truthyNum r = true.
Proof.
  intros Ht. unfold getExchangeRate.
  destruct (currency_eqb from to).
  { intro H. injection H as <- _. reflexivity. }
  destruct (latestRow (filter (recentFor now from to) rows)) as [m|] eqn:Em.
  { intro H. injection H as <- _.
    apply latestRow_spec in Em. destruct Em as [Hin _].
    apply filter_In in Hin. destruct Hin as [Hin _].
    unfold ratesTruthy in Ht. rewrite Forall_forall in Ht. now apply Ht. }
  destruct (fetchLatestExchangeRate provider from to) as [rate|e] eqn:Ef.
  { intro H. injection H as <- _. now apply (fetch_truthy provider from to). }
  destruct (getLatestStoredRate from to rows) as [q|]; [|discriminate].
  destruct (truthyNum q) eqn:Eq; [|discriminate].
  intro H. now injection H as <- _.
Qed.

(** The table that [getAllRates] builds for a base currency has 1 for the
    base, and with it [convertAmountWithRate] converts out of the base
    exactly as [convertAmount] does; in the other direction it multiplies by
    the base's own entry and returns the amount unchanged. *)
Theorem rate_table_converts_from_its_base
    (now : Z) (provider : Provider) (base : Currency)
    (rows rows' : list ExchangeRate) (rates : RateTable) :
  ratesTruthy rows ->
  getAllRates now provider base rows = (Ok rates, rows') ->
  match base with CAD => rt_CAD rates | USD => rt_USD rates end = 1 /\
  (forall x,
     convertAmount now provider x base (otherCurrency base) rows
     = (Ok (convertAmountWithRate x base (otherCurrency base) rates), rows')) /\
  (forall x, convertAmountWithRate x (otherCurrency base) base rates == x) /\
  (forall x, convertAmountWithRate x base base rates = x).
Proof.
  intros Ht H. unfold getAllRates in H.
  destruct base; simpl otherCurrency.
  - destruct (getExchangeRate now provider CAD USD rows) as [[r|e] rows1] eqn:E;
      [|discriminate].
    injection H as <- <-.
    pose proof (getExchangeRate_truthy _ _ _ _ _ _ _ Ht E) as Hr.
    repeat split.
    + intro x. unfold convertAmount, convertAmountWithRate. simpl.
      now rewrite E, Hr.
    + intro x. unfold convertAmountWithRate. simpl. ring.
  - destruct (getExchangeRate now provider USD CAD rows) as [[r|e] rows1] eqn:E;
      [|discriminate].
    injection H as <- <-.
    pose proof (getExchangeRate_truthy _ _ _ _ _ _ _ Ht E) as Hr.
    repeat split.
    + intro x. unfold convertAmount, convertAmountWithRate. simpl.
      now rewrite E, Hr.
    + intro x. unfold convertAmountWithRate. simpl. ring.
Qed.

Lemma rate_table_converts_from_its_base_witness :
  convertAmount tenHours sampleProvider 200 CAD USD sampleRates
  = (Ok (convertAmountWithRate 200 CAD USD (mkRateTable 1 (73 # 100))),
     (sampleRates ++ [mkExchangeRate CAD USD (73 # 100) tenHours])%list).
Proof.
  apply (rate_table_converts_from_its_base tenHours sampleProvider CAD sampleRates).
  - repeat constructor.
  - reflexivity.
Defined.

(** ** Currency service: the update route *)

Lemma updateExchangeRates_unfold (now : Z) (provider : Provider)
                                 (rows : list ExchangeRate) :
  updateExchangeRates now provider rows
  = updatePair now provider USD CAD (updatePair now provider CAD USD ([], rows)).
Proof. reflexivity. Qed.


Lemma latestRow_strict_max (l : list ExchangeRate) (r : ExchangeRate) :
  In r l ->
  (forall r', In r' l -> r' = r \/ (er_timestamp r' < er_timestamp r)%Z) ->
  latestRow l = Some r.
Proof.
  intros Hin Hmax.
  destruct (some_row l r Hin) as [m Hm]. rewrite Hm. f_equal.
  destruct (latestRow_spec l m Hm) as [Hm_in Hm_max].
  destruct (Hmax m Hm_in) as [E|Hlt]; [exact E|].
  specialize (Hm_max r Hin). lia.
Qed.

(** After the update route has stored a rate for a pair, the service
    returns that rate for the next hour without consulting the provider and
    without writing, provided the older rows of the pair were written before
    the update. *)
Theorem updated_rate_is_served
    (now now' : Z) (provider provider' : Provider) (from to : Currency)
    (rows : list ExchangeRate) (rate : Q) :
  olderThan now from to rows ->
  In (from, to, rate) (fst (updateExchangeRates now provider rows)) ->
  (now <= now' <= now + msPerHour)%Z ->
  getExchangeRate now' provider' from to (snd (updateExchangeRates now provider rows))
  = (Ok rate, snd (updateExchangeRates now provider rows)).
Proof.
  intros Hold Hin Hnow.
  assert (Hshape :
            snd (updateExchangeRates now provider rows)
            = (rows ++ map (rowOfUpdate now)
                           (fst (updateExchangeRates now provider rows)))%list /\
            from <> to).
  { rewrite updateExchangeRates_unfold in *. unfold updatePair in *. simpl in *.
    destruct (fetchLatestExchangeRate provider CAD USD) as [r1|e1];
    destruct (fetchLatestExchangeRate provider USD CAD) as [r2|e2]; simpl in *.
    - split; [unfold saveExchangeRate; now rewrite <- app_assoc|].
      destruct Hin as [H|[H|[]]]; injection H as <- <- _; discriminate.
    - split; [reflexivity|].
      destruct Hin as [H|[]]; injection H as <- <- _; discriminate.
    - split; [reflexivity|].
      destruct Hin as [H|[]]; injection H as <- <- _; discriminate.
    - destruct Hin. }
  destruct Hshape as [Hshape Hneq].
  set (updated := fst (updateExchangeRates now provider rows)) in *.
  set (table := snd (updateExchangeRates now provider rows)) in *.
  assert (Hts : forall u, er_timestamp (rowOfUpdate now u) = now) by reflexivity.
  assert (Hlatest :
            latestRow (filter (recentFor now' from to) table)
            = Some (mkExchangeRate from to rate now)).
  { apply latestRow_strict_max.
    - apply filter_In. split.
      + rewrite Hshape. apply in_or_app. right.
        change (mkExchangeRate from to rate now) with (rowOfUpdate now (from, to, rate)).
        now apply in_map.
      + now apply recentFor_new_row.
    - intros r' Hr'. apply in_recentFor in Hr'. destruct Hr' as [[Hr' [Hf Ht]] _].
      rewrite Hshape in Hr'. apply in_app_or in Hr'. destruct Hr' as [Hr'|Hr'].
      + right. simpl. apply Hold. repeat split; assumption.
      + left. apply in_map_iff in Hr'. destruct Hr' as [[[f t] q] [<- Hu]].
        unfold rowOfUpdate in *. simpl in *. subst f t.
        assert (Huniq : forall q1 q2,
                  In (from, to, q1) updated -> In (from, to, q2) updated -> q1 = q2).
        { unfold updated. rewrite updateExchangeRates_unfold.
          unfold updatePair. simpl. clear.
          destruct (fetchLatestExchangeRate provider CAD USD) as [r1|e1];
          destruct (fetchLatestExchangeRate provider USD CAD) as [r2|e2]; simpl;
            intros q1 q2 H1 H2;
            repeat match goal with
                   | H : _ \/ _ |- _ => destruct H
                   | H : False |- _ => destruct H
                   | H : (_, _, _) = (_, _, _) |- _ => injection H as ? ? ?; subst
                   end; congruence. }
        now rewrite (Huniq q rate Hu Hin). }
  unfold getExchangeRate. now rewrite (currency_eqb_neq from to Hneq), Hlatest.
Qed.

Lemma updated_rate_is_served_witness :
  getExchangeRate (tenHours + 5) deadProvider USD CAD
    (snd (updateExchangeRates tenHours sampleProvider sampleRates))
  = (Ok (137 # 100), snd (updateExchangeRates tenHours sampleProvider sampleRates)).
Proof.
  apply (updated_rate_is_served tenHours (tenHours + 5) sampleProvider deadProvider
           USD CAD sampleRates (137 # 100)).
  - intros r [[<-|[<-|[]]] _]; reflexivity.
  - right. now left.
  - vm_compute. split; discriminate.
Defined.

(** ** Price Source Adapter: symbols *)

Lemma startsWith_refl (s : string) : startsWith s s = true.
Proof.
  induction s as [|a s IH]; simpl; [reflexivity|].
  now rewrite Ascii.eqb_refl.
Qed.

Lemma includes_cons (sub : string) (a : ascii) (s : string) :
  includes sub (String a s) = startsWith sub (String a s) || includes sub s.
Proof. reflexivity. Qed.

Lemma includes_app_r (sub s : string) : includes sub (s ++ sub) = true.
Proof.
  induction s as [|a s IH].
  - destruct sub as [|b sub]; [reflexivity|].
    change (("" ++ String b sub)%string) with (String b sub).
    rewrite includes_cons, startsWith_refl. reflexivity.
  - change ((String a s ++ sub)%string) with (String a (s ++ sub)).
    rewrite includes_cons, IH. apply orb_true_r.
Qed.

Lemma startsWith_first (a b : ascii) (sub s : string) :
  startsWith (String a sub) (String b s) = true ->
  startsWith (String a EmptyString) (String b s) = true.
Proof.
  cbn [startsWith]. intro H. apply andb_true_iff in H. destruct H as [H _].
  rewrite H. now destruct s.
Qed.

Lemma includes_first (a : ascii) (sub s : string) :
  includes (String a sub) s = true -> includes (String a EmptyString) s = true.
Proof.
  induction s as [|b s IH]; [discriminate|].
  rewrite !includes_cons. intro H. apply orb_true_iff in H.
  destruct H as [H|H].
  - now rewrite (startsWith_first a b sub s H).
  - rewrite (IH H). apply orb_true_r.
Qed.

Lemma includes_dot_of_TO (s : string) :
  includes ".TO" s = true -> includes "." s = true.
Proof. apply includes_first. Qed.

Lemma includes_dot_of_TRT (s : string) :
  includes ".TRT" s = true -> includes "." s = true.
Proof. apply includes_first. Qed.

Lemma append_changes (s suffix : string) :
  suffix <> EmptyString -> s ++ suffix <> s.
Proof.
  intro Hs. induction s as [|a s IH]; simpl.
  - exact Hs.
  - intro H. injection H as H. contradiction.
Qed.

Lemma listed_in (symbols : list string) (s : string) :
  listed symbols s = true <-> In s symbols.
Proof.
  unfold listed. rewrite existsb_exists. split.
  - intros [x [Hin E]]. apply String.eqb_eq in E. now subst.
  - intro H. exists s. split; [exact H | apply String.eqb_refl].
Qed.

Lemma tsx_with_dot (s : string) :
  listed tsxSymbols s = true -> includes "." s = true -> includes ".TO" s = true.
Proof.
  intro H. apply listed_in in H. unfold tsxSymbols in H. simpl in H.
  destruct H as [<-|[<-|[<-|[<-|[<-|[]]]]]]; vm_compute; auto.
Qed.

(** [formatSymbolForAPI] leaves a symbol as it is or appends '.TO'; it only
    appends to a symbol without a dot, and formatting twice is formatting
    once. *)
Theorem formatSymbol_is_idempotent (sym : string) :
  formatSymbolForAPI (formatSymbolForAPI sym) = formatSymbolForAPI sym /\
  (formatSymbolForAPI sym = sym \/
   (formatSymbolForAPI sym = sym ++ ".TO" /\ includes "." sym = false)) /\
  (formatSymbolForAPI sym = sym ++ ".TO" /\ includes "." sym = false <->
   listed tsxSymbols sym = true /\ includes "." sym = false).
Proof.
  assert (Hf : formatSymbolForAPI sym
               = if listed tsxSymbols sym || includes ".TO" sym || includes ".TRT" sym
                 then (if includes "." sym then sym else sym ++ ".TO")
                 else sym).
  { unfold formatSymbolForAPI. now destruct (listed usSymbols sym). }
  destruct (listed tsxSymbols sym || includes ".TO" sym || includes ".TRT" sym)
    eqn:C.
  - destruct (includes "." sym) eqn:D.
    + rewrite Hf. split; [exact Hf|]. split; [now left|].
      split; intros [_ H]; discriminate.
    + rewrite Hf. split; [|split].
      * unfold formatSymbolForAPI.
        rewrite (includes_app_r ".TO" sym), orb_true_r. cbn [orb].
        now rewrite (includes_dot_of_TO _ (includes_app_r ".TO" sym)).
      * right. now split.
      * split; [|intros _; now split].
        intros _. split; [|reflexivity].
        destruct (includes ".TO" sym) eqn:E1.
        { apply includes_dot_of_TO in E1. congruence. }
        destruct (includes ".TRT" sym) eqn:E2.
        { apply includes_dot_of_TRT in E2. congruence. }
        now rewrite !orb_false_r in C.
  - rewrite Hf. split; [exact Hf|]. split; [now left|].
    apply orb_false_iff in C. destruct C as [C _].
    apply orb_false_iff in C. destruct C as [C _].
    split; [|intros [H _]; congruence].
    intros [H _]. exfalso.
    apply (append_changes sym ".TO"); [discriminate | now symmetry].
Qed.

(** A stock quote keeps the requested symbol and the time of the request;
    it is in CAD exactly when the symbol is on the TSX list or contains
    '.TO' or '.TRT', and in USD otherwise; without a price in the reply there
    is no quote. *)
Theorem stock_quote_currency (now : Z) (api : MarketApi) (sym : string) :
  (forall q,
     fetchStockPrice now api sym = Some q ->
     ap_symbol (q_price q) = sym /\
     q_timestamp q = now /\
     globalQuote api (formatSymbolForAPI sym) = QuotePrice (ap_price (q_price q)) /\
     (ap_currency (q_price q) = CAD <->
      In sym tsxSymbols \/ includes ".TO" sym = true \/ includes ".TRT" sym = true)) /\
  (fetchStockPrice now api sym = None <->
   forall price, globalQuote api (formatSymbolForAPI sym) <> QuotePrice price).
Proof.
  split.
  - intros q H. unfold fetchStockPrice in H.
    destruct (globalQuote api (formatSymbolForAPI sym)) as [| | |price] eqn:G;
      try discriminate.
    injection H as <-. cbn [q_price q_timestamp ap_symbol ap_price ap_currency].
    repeat split; try reflexivity.
    + intro Hc. rewrite <- listed_in.
      unfold formatSymbolForAPI in Hc.
      destruct (listed tsxSymbols sym) eqn:L; [now left|].
      destruct (includes ".TO" sym) eqn:E1; [right; now left|].
      destruct (includes ".TRT" sym) eqn:E2; [right; now right|].
      cbn [orb] in Hc.
      assert (E : (if listed usSymbols sym then sym else sym) = sym)
        by now destruct (listed usSymbols sym).
      rewrite E, E1, E2 in Hc. discriminate.
    + intro Hc. rewrite <- listed_in in Hc.
      assert (C : listed tsxSymbols sym || includes ".TO" sym || includes ".TRT" sym
                  = true).
      { destruct Hc as [Hc|[Hc|Hc]]; rewrite Hc;
          [reflexivity | rewrite orb_true_r; reflexivity | apply orb_true_r]. }
      unfold formatSymbolForAPI. rewrite C.
      destruct (includes "." sym) eqn:D.
      * destruct (includes ".TO" sym) eqn:E1; [reflexivity|].
        destruct (includes ".TRT" sym) eqn:E2; [reflexivity|].
        rewrite !orb_false_r in C. now rewrite (tsx_with_dot sym C D) in E1.
      * now rewrite (includes_app_r ".TO" sym).
  - unfold fetchStockPrice.
    destruct (globalQuote api (formatSymbolForAPI sym)) as [| | |price];
      split; try reflexivity; try (intros _ p; discriminate).
    + discriminate.
    + intro H. now destruct (H price).
Qed.

(** ** Price Source Adapter: cache and table *)

Lemma fetched_quote (now : Z) (api : MarketApi) (sym : string) (p : Quote) :
  (if String.eqb sym "BTC" then fetchBitcoinPrice now api
   else fetchStockPrice now api sym) = Some p ->
  q_timestamp p = now /\ ap_symbol (q_price p) = sym.
Proof.
  destruct (String.eqb sym "BTC") eqn:E.
  - apply String.eqb_eq in E. subst sym. unfold fetchBitcoinPrice.
    destruct (btcRate api); try discriminate.
    intro H. injection H as <-. now split.
  - unfold fetchStockPrice.
    destruct (globalQuote api (formatSymbolForAPI sym)); try discriminate.
    intro H. injection H as <-. now split.
Qed.

(** [getCurrentPrice] never throws and only remembers successes: when it
    returns no price, neither the cache nor the table has changed; a price
    that did not come from the cache is timestamped now, is put in the cache
    under the requested symbol, and adds at most one row to the table, the
    quote rounded to four decimals. *)
Theorem getCurrentPrice_outcomes (now : Z) (api : MarketApi) (sym : string)
                                 (st : PriceStore) :
  (fst (getCurrentPrice now api sym st) = None ->
   snd (getCurrentPrice now api sym st) = st) /\
  (forall p, cachedPrice now sym st = Some p ->
             getCurrentPrice now api sym st = (Some p, st)) /\
  (forall p,
     cachedPrice now sym st = None ->
     fst (getCurrentPrice now api sym st) = Some p ->
     q_timestamp p = now /\
     ap_symbol (q_price p) = sym /\
     dget String.eqb sym (priceCache (snd (getCurrentPrice now api sym st)))
     = Some (p, now) /\
     (assetPrices (snd (getCurrentPrice now api sym st)) = assetPrices st \/
      assetPrices (snd (getCurrentPrice now api sym st))
      = (assetPrices st ++ [storedQuote p])%list)).
Proof.
  unfold getCurrentPrice. split; [|split].
  - destruct (cachedPrice now sym st); [discriminate|].
    destruct (if String.eqb sym "BTC" then _ else _); [discriminate | reflexivity].
  - intros p H. now rewrite H.
  - intros p Hc. rewrite Hc.
    destruct (if String.eqb sym "BTC" then _ else _) as [q|] eqn:F; [|discriminate].
    simpl. intro H. injection H as <-.
    destruct (fetched_quote now api sym q F) as [Ht Hs].
    repeat split; try assumption.
    + apply dget_dset_same, String.eqb_refl.
    + unfold saveAssetPrice. destruct (_ && _); [now right | now left].
Qed.

Lemma cachedPrice_after_set (now now' : Z) (sym : string) (p : Quote)
                            (cache : Dict string (Quote * Z)) (rows : list Quote) :
  (now' - now < CACHE_DURATION)%Z ->
  cachedPrice now' sym (mkPriceStore (dset String.eqb sym (p, now) cache) rows)
  = Some p.
Proof.
  intro H. unfold cachedPrice. simpl.
  rewrite (dget_dset_same String.eqb String.eqb_refl).
  apply Z.ltb_lt in H. now rewrite H.
Qed.

(** A fetched price is served from the in-process cache for the next five
    minutes: any later call for the symbol within that time returns the same
    quote, without a request to the provider and without touching the cache
    or the table. *)
Theorem price_cache_serves_five_minutes
    (now now' : Z) (api api' : MarketApi) (sym : string) (st : PriceStore)
    (p : Quote) :
  cachedPrice now sym st = None ->
  fst (getCurrentPrice now api sym st) = Some p ->
  (now' - now < CACHE_DURATION)%Z ->
  getCurrentPrice now' api' sym (snd (getCurrentPrice now api sym st))
  = (Some p, snd (getCurrentPrice now api sym st)).
Proof.
  intros Hc Hp Hnow.
  assert (E : getCurrentPrice now api sym st
              = (Some p,
                 mkPriceStore (dset String.eqb sym (p, now) (priceCache st))
                              (saveAssetPrice p (assetPrices st)))).
  { unfold getCurrentPrice in *. rewrite Hc in *.
    destruct (if String.eqb sym "BTC" then _ else _) as [q|]; [|discriminate].
    simpl in Hp. now injection Hp as ->. }
  rewrite E. simpl. unfold getCurrentPrice. now rewrite cachedPrice_after_set.
Qed.

Lemma price_cache_serves_five_minutes_witness :
  getCurrentPrice 60000 deadApi "VDY" (snd (getCurrentPrice 0 sampleApi "VDY" emptyStore))
  = (Some (mkQuote (mkAssetPrice "VDY" (4512345 # 100000) CAD) 0),
     snd (getCurrentPrice 0 sampleApi "VDY" emptyStore)).
Proof.
  apply (price_cache_serves_five_minutes 0 60000 sampleApi deadApi "VDY" emptyStore).
  - reflexivity.
  - reflexivity.
  - reflexivity.
Defined.

Lemma latestQuote_spec (l : list Quote) (r : Quote) :
  latestQuote l = Some r ->
  In r l /\ forall r', In r' l -> (q_timestamp r' <= q_timestamp r)%Z.
Proof.
  revert r. induction l as [|x l IH]; intros r H; simpl in H; [discriminate|].
  destruct (latestQuote l) as [m|] eqn:E.
  - destruct (IH m eq_refl) as [Hin Hmax].
    destruct (q_timestamp x <? q_timestamp m)%Z eqn:C; injection H as <-.
    + apply Z.ltb_lt in C. split; [now right|].
      intros r' [<-|Hr']; [lia|auto].
    + apply Z.ltb_ge in C. split; [now left|].
      intros r' [<-|Hr']; [lia|]. specialize (Hmax r' Hr'). lia.
  - injection H as <-. split; [now left|].
    destruct l; [|simpl in E; destruct (latestQuote l); [destruct (_ <? _)%Z|]; discriminate].
    intros r' [<-|[]]. lia.
Qed.

Lemma latestQuote_some (l : list Quote) (r : Quote) :
  In r l -> exists m, latestQuote l = Some m.
Proof.
  destruct l as [|x l]; [intros []|]. intros _. simpl.
  destruct (latestQuote l) as [m|]; [destruct (_ <? _)%Z|]; eauto.
Qed.

Lemma in_quotes_of (sym : string) (rows : list Quote) (r : Quote) :
  In r (filter (fun r => String.eqb (ap_symbol (q_price r)) sym) rows)
  <-> In r rows /\ ap_symbol (q_price r) = sym.
Proof. rewrite filter_In, String.eqb_eq. tauto. Qed.

(** [getOrFetchCurrentPrice] looks in three places, in this order: a cache
    entry younger than five minutes is returned as it is; otherwise, when
    the table holds a row of the symbol younger than one hour, the latest row
    of the symbol is returned; in both cases nothing is requested or written
    (the row is not put in the cache).  Otherwise the call is
    [getCurrentPrice]. *)
Theorem price_lookup_order (now : Z) (api : MarketApi) (sym : string)
                           (st : PriceStore) :
  (forall p, cachedPrice now sym st = Some p ->
             getOrFetchCurrentPrice now api sym st = (Some p, st)) /\
  (cachedPrice now sym st = None ->
   (exists r, In r (assetPrices st) /\ ap_symbol (q_price r) = sym /\
              (now - q_timestamp r < msPerHour)%Z) ->
   exists r,
     In r (assetPrices st) /\ ap_symbol (q_price r) = sym /\
     (forall r', In r' (assetPrices st) -> ap_symbol (q_price r') = sym ->
                 (q_timestamp r' <= q_timestamp r)%Z) /\
     getOrFetchCurrentPrice now api sym st = (Some r, st)) /\
  (cachedPrice now sym st = None ->
   (forall r, In r (assetPrices st) -> ap_symbol (q_price r) = sym ->
              (msPerHour <= now - q_timestamp r)%Z) ->
   getOrFetchCurrentPrice now api sym st = getCurrentPrice now api sym st).
Proof.
  unfold getOrFetchCurrentPrice, getLatestStoredPrice. split; [|split].
  - intros p H. now rewrite H.
  - intros Hc [r [Hin [Hs Hf]]]. rewrite Hc.
    destruct (latestQuote_some
                (filter (fun r => String.eqb (ap_symbol (q_price r)) sym)
                        (assetPrices st)) r) as [m Hm].
    { apply in_quotes_of. now split. }
    rewrite Hm. destruct (latestQuote_spec _ _ Hm) as [Hm_in Hm_max].
    apply in_quotes_of in Hm_in. destruct Hm_in as [Hm_in Hm_s].
    assert (Hr : (q_timestamp r <= q_timestamp m)%Z).
    { apply Hm_max. apply in_quotes_of. now split. }
    assert (Hlt : (now - q_timestamp m <? msPerHour)%Z = true) by (apply Z.ltb_lt; lia).
    rewrite Hlt. exists m. repeat split; try assumption.
    intros r' Hr' Hs'. apply Hm_max. apply in_quotes_of. now split.
  - intros Hc Hold. rewrite Hc.
    destruct (latestQuote _) as [m|] eqn:Hm; [|reflexivity].
    destruct (latestQuote_spec _ _ Hm) as [Hm_in _].
    apply in_quotes_of in Hm_in. destruct Hm_in as [Hm_in Hm_s].
    specialize (Hold m Hm_in Hm_s).
    assert (Hlt : (now - q_timestamp m <? msPerHour)%Z = false) by (apply Z.ltb_ge; lia).
    now rewrite Hlt.
Qed.

Lemma toDecimal4_close (x : Q) : Qabs (toDecimal4 x - x) <= 1 # 20000.
Proof.
  unfold toDecimal4. cbv zeta.
  apply Qabs_Qle_condition.
  destruct (Qle_bool 0 (x * 10000)).
  - pose proof (Qfloor_le (x * 10000 + (1 # 2))) as L.
    pose proof (Qlt_floor (x * 10000 + (1 # 2))) as U.
    rewrite inject_Z_plus in U.
    set (n := inject_Z (Qfloor (x * 10000 + (1 # 2)))) in *.
    change (inject_Z 1) with 1 in U.
    unfold Qdiv; change (/ 10000) with (1 # 10000); split; lra.
  - pose proof (Qfloor_le (- (x * 10000) + (1 # 2))) as L.
    pose proof (Qlt_floor (- (x * 10000) + (1 # 2))) as U.
    rewrite inject_Z_plus in U. rewrite inject_Z_opp.
    set (n := inject_Z (Qfloor (- (x * 10000) + (1 # 2)))) in *.
    change (inject_Z 1) with 1 in U.
    unfold Qdiv; change (/ 10000) with (1 # 10000); split; lra.
Qed.

Lemma latestQuote_strict_max (l : list Quote) (r : Quote) :
  In r l ->
  (forall r', In r' l -> r' = r \/ (q_timestamp r' < q_timestamp r)%Z) ->
  latestQuote l = Some r.
Proof.
  intros Hin Hmax.
  destruct (latestQuote_some l r Hin) as [m Hm]. rewrite Hm. f_equal.
  destruct (latestQuote_spec l m Hm) as [Hm_in Hm_max].
  destruct (Hmax m Hm_in) as [E|Hlt]; [exact E|].
  specialize (Hm_max r Hin). lia.
Qed.

(** Between five minutes and one hour after a price was fetched, the
    lookup answers from the table without a request: it returns the stored
    row, whose price is the fetched one rounded to four decimals, at most
    0.00005 away from it. *)
Theorem stored_price_is_read_back
    (now now' : Z) (api api' : MarketApi) (sym : string) (st : PriceStore)
    (p : Quote) :
  cachedPrice now sym st = None ->
  fst (getCurrentPrice now api sym st) = Some p ->
  fitsDecimal15_4 (ap_price (q_price p)) = true ->
  (forall r, In r (assetPrices st) -> ap_symbol (q_price r) = sym ->
             (q_timestamp r < now)%Z) ->
  (CACHE_DURATION <= now' - now < msPerHour)%Z ->
  getOrFetchCurrentPrice now' api' sym (snd (getCurrentPrice now api sym st))
  = (Some (storedQuote p), snd (getCurrentPrice now api sym st)) /\
  Qabs (ap_price (q_price (storedQuote p)) - ap_price (q_price p)) <= 1 # 20000.
Proof.
  intros Hc Hp Hfit Hold Hnow.
  split; [|apply toDecimal4_close].
  assert (Hq : q_timestamp p = now /\ ap_symbol (q_price p) = sym).
  { unfold getCurrentPrice in Hp. rewrite Hc in Hp.
    destruct (if String.eqb sym "BTC" then _ else _) as [q|] eqn:F; [|discriminate].
    simpl in Hp. injection Hp as <-. now apply (fetched_quote now api). }
  destruct Hq as [Ht Hs].
  assert (Hsave : saveAssetPrice p (assetPrices st)
                  = (assetPrices st ++ [storedQuote p])%list).
  { unfold saveAssetPrice. rewrite Hfit. simpl.
    destruct (existsb (sameQuoteKey p) (assetPrices st)) eqn:E; [|reflexivity].
    apply existsb_exists in E. destruct E as [r [Hin Hk]].
    unfold sameQuoteKey in Hk. apply andb_true_iff in Hk. destruct Hk as [Hk1 Hk2].
    apply String.eqb_eq in Hk1. apply Z.eqb_eq in Hk2.
    assert (q_timestamp r < now)%Z by (apply Hold; [exact Hin | congruence]). lia. }
  assert (E : getCurrentPrice now api sym st
              = (Some p,
                 mkPriceStore (dset String.eqb sym (p, now) (priceCache st))
                              (assetPrices st ++ [storedQuote p])%list)).
  { unfold getCurrentPrice in *. rewrite Hc in *.
    destruct (if String.eqb sym "BTC" then _ else _) as [q|]; [|discriminate].
    simpl in Hp. injection Hp as ->. now rewrite Hsave. }
  rewrite E. simpl. unfold getOrFetchCurrentPrice, cachedPrice. simpl.
  rewrite (dget_dset_same String.eqb String.eqb_refl).
  assert (Hexp : (now' - now <? CACHE_DURATION)%Z = false) by (apply Z.ltb_ge; lia).
  rewrite Hexp. unfold getLatestStoredPrice.
  rewrite (latestQuote_strict_max _ (storedQuote p)).
  - simpl. rewrite Ht.
    assert (Hh : (now' - now <? msPerHour)%Z = true) by (apply Z.ltb_lt; lia).
    now rewrite Hh.
  - apply in_quotes_of. split; [apply in_or_app; right; now left | exact Hs].
  - intros r' Hr'. apply in_quotes_of in Hr'. destruct Hr' as [Hr' Hs'].
    apply in_app_or in Hr'. destruct Hr' as [Hr'|[<-|[]]]; [|now left].
    right. simpl. rewrite Ht. now apply Hold.
Qed.

Lemma stored_price_is_read_back_witness :
  getOrFetchCurrentPrice 600000 deadApi "VDY"
    (snd (getCurrentPrice 0 sampleApi "VDY" emptyStore))
  = (Some (storedQuote (mkQuote (mkAssetPrice "VDY" (4512345 # 100000) CAD) 0)),
     snd (getCurrentPrice 0 sampleApi "VDY" emptyStore)).
Proof.
  apply (stored_price_is_read_back 0 600000 sampleApi deadApi "VDY" emptyStore).
  - reflexivity.
  - reflexivity.
  - reflexivity.
  - intros r [].
  - vm_compute. split; [discriminate | reflexivity].
Defined.

(** 45.12345 is stored as 45.1235. *)
Example rounding_of_a_quote :
  ap_price (q_price
     (storedQuote (mkQuote (mkAssetPrice "VDY" (4512345 # 100000) CAD) 0)))
  == 451235 # 10000.
Proof. reflexivity. Qed.

(** ** Price Source Adapter: batches *)

Lemma batchesFrom_step (symbols : list string) (i : nat) :
  (i < List.length symbols)%nat ->
  batchesFrom symbols i
  = firstn 5 (skipn i symbols) :: batchesFrom symbols (i + 5)%nat.
Proof.
  intro H. rewrite batchesFrom_equation_1.
  destruct (lt_dec i (List.length symbols)); [reflexivity | contradiction].
Qed.

Lemma batchesFrom_stop (symbols : list string) (i : nat) :
  ~ (i < List.length symbols)%nat -> batchesFrom symbols i = [].
Proof.
  intro H. rewrite batchesFrom_equation_1.
  destruct (lt_dec i (List.length symbols)); [contradiction | reflexivity].
Qed.

Lemma batchesFrom_spec (symbols : list string) (n : nat) :
  forall i,
    (List.length symbols - i = n)%nat ->
    List.concat (batchesFrom symbols i) = skipn i symbols /\
    Forall (fun b => (1 <= List.length b <= 5)%nat) (batchesFrom symbols i) /\
    List.length (batchesFrom symbols i) = ((n + 4) / 5)%nat.
Proof.
  induction n as [n IH] using lt_wf_ind. intros i Hn.
  destruct (lt_dec i (List.length symbols)) as [Hlt|Hge].
  - rewrite batchesFrom_step by exact Hlt.
    destruct (IH (List.length symbols - (i + 5))%nat ltac:(lia) (i + 5)%nat eq_refl)
      as [Hc [Hf Hl]].
    split; [|split].
    + cbn [List.concat]. rewrite Hc.
      replace (i + 5)%nat with (5 + i)%nat by lia.
      rewrite <- skipn_skipn. apply firstn_skipn.
    + constructor; [|exact Hf].
      rewrite length_firstn, length_skipn. lia.
    + cbn [List.length]. rewrite Hl.
      destruct (le_lt_dec 5 n) as [H5|H5].
      * replace (List.length symbols - (i + 5))%nat with (n - 5)%nat by lia.
        replace (n + 4)%nat with ((n - 5 + 4) + 1 * 5)%nat by lia.
        rewrite Nat.div_add by lia. lia.
      * replace (List.length symbols - (i + 5))%nat with 0%nat by lia.
        assert (E : ((n + 4) / 5 = 1)%nat).
        { symmetry. apply (Nat.div_unique (n + 4) 5 1 (n - 1)); lia. }
        rewrite E. reflexivity.
  - rewrite batchesFrom_stop by exact Hge.
    replace n with 0%nat by lia. split; [|split].
    + simpl. symmetry. apply skipn_all2. lia.
    + constructor.
    + reflexivity.
Qed.

(** The batches of [getCurrentPrices] are the symbols in their order, cut
    into groups of five: every batch holds between one and five symbols, and
    there are (n + 4) / 5 of them for n symbols, none for an empty
    request. *)
Theorem batches_cover_symbols (symbols : list string) :
  List.concat (batchesFrom symbols 0) = symbols /\
  Forall (fun b => (1 <= List.length b <= 5)%nat) (batchesFrom symbols 0) /\
  List.length (batchesFrom symbols 0) = ((List.length symbols + 4) / 5)%nat.
Proof.
  destruct (batchesFrom_spec symbols (List.length symbols) 0%nat ltac:(lia))
    as [Hc [Hf Hl]].
  split; [exact Hc | split; [exact Hf | exact Hl]].
Qed.

Example batches_of_seven :
  batchesFrom ["A"; "B"; "C"; "D"; "E"; "F"; "G"] 0
  = [["A"; "B"; "C"; "D"; "E"]; ["F"; "G"]].
Proof. reflexivity. Qed.

(** ** Snapshot write path: what it leaves alone *)

Lemma convertAmount_extends (now : Z) (provider : Provider) (x : Q)
                            (a b : Currency) (rows : list ExchangeRate) :
  exists added, snd (convertAmount now provider x a b rows) = (rows ++ added)%list.
Proof.
  unfold convertAmount. destruct (currency_eqb a b).
  - exists []. simpl. now rewrite app_nil_r.
  - destruct (getExchangeRate_cases now provider a b rows) as [H|[rate [_ H]]].
    + exists []. rewrite app_nil_r.
      destruct (getExchangeRate now provider a b rows) as [[r|e] rows']; simpl in *;
        exact H.
    + rewrite H. simpl. eauto.
Qed.

Lemma snapshotTotal_extends (now : Z) (provider : Provider) (prices : PriceAdapter)
                            (c : Currency) (hs : list (string * Position)) :
  forall total rows,
  exists added,
    snd (snapshotTotal now provider prices c hs total rows) = (rows ++ added)%list.
Proof.
  induction hs as [|[sym h] hs IH]; intros total rows; simpl.
  - exists []. now rewrite app_nil_r.
  - destruct (Qle_bool (pos_quantity h) 0); [apply IH|].
    destruct (prices sym) as [price|]; [|apply IH].
    destruct (currency_eqb (ap_currency price) c); [apply IH|].
    destruct (convertAmount_extends now provider
                (pos_quantity h * ap_price price) (ap_currency price) c rows)
      as [added Ha].
    destruct (convertAmount now provider (pos_quantity h * ap_price price)
                (ap_currency price) c rows) as [[v|e] rows'] eqn:E; simpl in Ha.
    + destruct (IH (total + v) rows') as [added' Ha'].
      exists (added ++ added')%list. rewrite Ha', Ha. now rewrite app_assoc.
    + exists added. exact Ha.
Qed.

Lemma upsert_leaves_others (userId : string) (date : Z) (v : Q) (c : Currency)
                           (rows : list PortfolioSnapshot) :
  snapshotsBut userId date (upsertRow userId date v c rows)
  = snapshotsBut userId date rows.
Proof.
  unfold upsertRow, snapshotsBut.
  destruct (existsb (snapshotAt userId date) rows).
  - induction rows as [|s rows IH]; simpl; [reflexivity|].
    destruct (snapshotAt userId date s) eqn:E; simpl.
    + unfold snapshotAt at 1. simpl. fold (snapshotAt userId date s).
      rewrite E. simpl. exact IH.
    + rewrite E. simpl. now rewrite IH.
  - rewrite filter_app. simpl. unfold snapshotAt at 2. simpl.
    rewrite String.eqb_refl, Z.eqb_refl. simpl. apply app_nil_r.
Qed.

(** [createPortfolioSnapshot] for a user never changes the users or the
    transactions, only appends to the exchange rates, and leaves every
    snapshot row other than that user's row of the day exactly as it was;
    when the valuation does not succeed the snapshot table is unchanged
    altogether. *)
Theorem snapshot_write_frame
    (tz now : Z) (provider : Provider) (prices : PriceAdapter)
    (userId : string) (db : Database) :
  users (createPortfolioSnapshot tz now provider prices userId db) = users db /\
  transactions (createPortfolioSnapshot tz now provider prices userId db)
  = transactions db /\
  (exists added,
     exchangeRates (createPortfolioSnapshot tz now provider prices userId db)
     = (exchangeRates db ++ added)%list) /\
  snapshotsBut userId (marketClose tz now)
    (portfolioSnapshots (createPortfolioSnapshot tz now provider prices userId db))
  = snapshotsBut userId (marketClose tz now) (portfolioSnapshots db) /\
  ((forall v c, fst (snapshotValuation now provider prices userId db) <> Valued v c) ->
   portfolioSnapshots (createPortfolioSnapshot tz now provider prices userId db)
   = portfolioSnapshots db).
Proof.
  assert (Hrates : exists added,
            snd (snapshotValuation now provider prices userId db)
            = (exchangeRates db ++ added)%list).
  { unfold snapshotValuation.
    destruct (transactionsOf userId db) as [|t0 txs].
    - exists []. simpl. now rewrite app_nil_r.
    - destruct (findUser (tx_userId t0) db) as [user|].
      + destruct (snapshotTotal_extends now provider prices (u_defaultCurrency user)
                    (snapshotHoldings (t0 :: txs)) 0 (exchangeRates db))
          as [added Ha].
        exists added.
        destruct (snapshotTotal _ _ _ _ _ _ _) as [[v|e] rows]; exact Ha.
      + exists []. simpl. now rewrite app_nil_r. }
  unfold createPortfolioSnapshot, upsertSnapshot.
  destruct (snapshotValuation now provider prices userId db) as [[| e | v c] rows];
    simpl in *.
  - repeat split; auto. exists []. now rewrite app_nil_r.
  - repeat split; auto.
  - destruct (fitsDecimal15_2 v); simpl; repeat split; auto.
    + apply upsert_leaves_others.
    + intro H. now destruct (H v c).
Qed.

(** ** Scheduler *)

Lemma create_keeps_ledger
    (tz now : Z) (provider : Provider) (prices : PriceAdapter)
    (userId : string) (db : Database) :
  users (createPortfolioSnapshot tz now provider prices userId db) = users db /\
  transactions (createPortfolioSnapshot tz now provider prices userId db)
  = transactions db.
Proof.
  unfold createPortfolioSnapshot, upsertSnapshot.
  destruct (snapshotValuation now provider prices userId db) as [[| e | v c] rows];
    auto.
  now destruct (fitsDecimal15_2 v).
Qed.

Lemma upsert_other_user (u u' : string) (date : Z) (v : Q) (c : Currency)
                        (rows : list PortfolioSnapshot) :
  u <> u' ->
  snapshotsOf u (upsertRow u' date v c rows) = snapshotsOf u rows.
Proof.
  intro Hne. unfold upsertRow, snapshotsOf.
  assert (Hu : String.eqb u' u = false).
  { apply String.eqb_neq. congruence. }
  destruct (existsb (snapshotAt u' date) rows).
  - induction rows as [|s rows IH]; simpl; [reflexivity|].
    destruct (snapshotAt u' date s) eqn:E; simpl.
    + apply snapshotAt_spec in E. unfold snapshotKey in E. injection E as Eu _.
      rewrite Eu, Hu. exact IH.
    + now rewrite IH.
  - rewrite filter_app. simpl. rewrite Hu. apply app_nil_r.
Qed.

Lemma upsert_origin (u : string) (date : Z) (v : Q) (c : Currency)
                    (rows : list PortfolioSnapshot) (s : PortfolioSnapshot) :
  In s (upsertRow u date v c rows) ->
  In s rows \/ (ps_userId s = u /\ ps_date s = date).
Proof.
  unfold upsertRow.
  destruct (existsb (snapshotAt u date) rows).
  - intro H. apply in_map_iff in H. destruct H as [s0 [E Hin]].
    destruct (snapshotAt u date s0) eqn:A; [|left; now subst].
    apply snapshotAt_spec in A. unfold snapshotKey in A. injection A as Au Ad.
    right. subst s. simpl. now split.
  - intro H. apply in_app_or in H. destruct H as [H|[<-|[]]]; [now left|].
    right. now split.
Qed.

Lemma create_other_user
    (tz now : Z) (provider : Provider) (prices : PriceAdapter)
    (u u' : string) (db : Database) :
  u <> u' \/ transactionsOf u' db = [] ->
  snapshotsOf u (portfolioSnapshots
                   (createPortfolioSnapshot tz now provider prices u' db))
  = snapshotsOf u (portfolioSnapshots db).
Proof.
  intro H. unfold createPortfolioSnapshot, snapshotValuation, upsertSnapshot.
  destruct (transactionsOf u' db) as [|t0 txs] eqn:T; [reflexivity|].
  destruct H as [Hne|Hnil]; [|discriminate].
  destruct (findUser (tx_userId t0) db); [|reflexivity].
  destruct (snapshotTotal _ _ _ _ _ _ _) as [[v|e] rows]; [|reflexivity].
  destruct (fitsDecimal15_2 v); [|reflexivity].
  simpl. now apply upsert_other_user.
Qed.

Lemma create_origin
    (tz now : Z) (provider : Provider) (prices : PriceAdapter)
    (u : string) (db : Database) (s : PortfolioSnapshot) :
  In s (portfolioSnapshots (createPortfolioSnapshot tz now provider prices u db)) ->
  In s (portfolioSnapshots db) \/
  (ps_userId s = u /\ ps_date s = marketClose tz now /\ transactionsOf u db <> []).
Proof.
  unfold createPortfolioSnapshot, snapshotValuation, upsertSnapshot.
  destruct (transactionsOf u db) as [|t0 txs] eqn:T; [now left|].
  destruct (findUser (tx_userId t0) db); [|now left].
  destruct (snapshotTotal _ _ _ _ _ _ _) as [[v|e] rows]; [|now left].
  destruct (fitsDecimal15_2 v); [|now left].
  simpl. intro H. apply upsert_origin in H.
  destruct H as [H|[Hu Hd]]; [now left|]. right. repeat split; try assumption.
  discriminate.
Qed.

Lemma transactionsOf_ledger (u : string) (db db' : Database) :
  transactions db' = transactions db -> transactionsOf u db' = transactionsOf u db.
Proof. unfold transactionsOf. now intros ->. Qed.

Lemma bulk_fold (tz : Z) (envOf : string -> Env) (us : list User) :
  forall db,
    let db' :=
      fold_left
        (fun db user =>
           createPortfolioSnapshot tz (env_now (envOf (u_id user)))
             (env_provider (envOf (u_id user))) (env_prices (envOf (u_id user)))
             (u_id user) db)
        us db in
    users db' = users db /\
    transactions db' = transactions db /\
    (uniqueSnapshots (portfolioSnapshots db) ->
     uniqueSnapshots (portfolioSnapshots db')) /\
    (forall u, transactionsOf u db = [] ->
               snapshotsOf u (portfolioSnapshots db')
               = snapshotsOf u (portfolioSnapshots db)) /\
    (forall s, In s (portfolioSnapshots db') ->
               In s (portfolioSnapshots db) \/
               exists user, In user us /\
                            ps_userId s = u_id user /\
                            ps_date s = marketClose tz (env_now (envOf (u_id user))) /\
                            transactionsOf (u_id user) db <> []).
Proof.
  induction us as [|user us IH]; intro db; cbn zeta.
  - simpl. repeat split; auto.
  - cbn [fold_left].
    set (db1 := createPortfolioSnapshot tz (env_now (envOf (u_id user)))
                  (env_provider (envOf (u_id user))) (env_prices (envOf (u_id user)))
                  (u_id user) db).
    destruct (create_keeps_ledger tz (env_now (envOf (u_id user)))
                (env_provider (envOf (u_id user))) (env_prices (envOf (u_id user)))
                (u_id user) db) as [Hu1 Ht1].
    fold db1 in Hu1, Ht1.
    destruct (IH db1) as [Hu [Ht [Hq [He Ho]]]].
    split; [congruence|]. split; [congruence|]. split; [|split].
    + intro H. apply Hq. now apply createPortfolioSnapshot_unique.
    + intros u Hnil. rewrite He by (now rewrite (transactionsOf_ledger u db db1 Ht1)).
      unfold db1. apply create_other_user.
      destruct (String.eqb_spec u (u_id user)) as [->|N]; [now right | now left].
    + intros s Hs. destruct (Ho s Hs) as [H1|[user' [Hin [Hsu [Hsd Hne]]]]].
      * unfold db1 in H1. apply create_origin in H1.
        destruct H1 as [H|[Hsu [Hsd Hne]]]; [now left|].
        right. exists user. split; [now left | auto].
      * right. exists user'. split; [now right|].
        rewrite (transactionsOf_ledger (u_id user') db db1 Ht1) in Hne. auto.
Qed.

(** A bulk run never changes users or transactions, keeps the unique
    constraint of the snapshot table, leaves the rows of every user without
    transactions as they were, and every row it creates or rewrites belongs
    to a user of the table who has transactions and is dated at the market
    close of the day on which that user was processed. *)
Theorem bulk_run_frame (tz : Z) (envOf : string -> Env) (db : Database) :
  users (scheduleDailySnapshots tz envOf db) = users db /\
  transactions (scheduleDailySnapshots tz envOf db) = transactions db /\
  (uniqueSnapshots (portfolioSnapshots db) ->
   uniqueSnapshots (portfolioSnapshots (scheduleDailySnapshots tz envOf db))) /\
  (forall u, transactionsOf u db = [] ->
             snapshotsOf u (portfolioSnapshots (scheduleDailySnapshots tz envOf db))
             = snapshotsOf u (portfolioSnapshots db)) /\
  (forall s, In s (portfolioSnapshots (scheduleDailySnapshots tz envOf db)) ->
             In s (portfolioSnapshots db) \/
             exists user, In user (users db) /\
                          ps_userId s = u_id user /\
                          ps_date s = marketClose tz (env_now (envOf (u_id user))) /\
                          transactionsOf (u_id user) db <> []).
Proof.
  unfold scheduleDailySnapshots. apply (bulk_fold tz envOf (users db) db).
Qed.

Lemma getHours_close (tz now : Z) :
  (16 <= getHours tz now)%Z <-> (marketClose tz now <= now)%Z.
Proof.
  unfold getHours, marketClose, startOfDay.
  pose proof (Z.mod_pos_bound (now + tz) msPerDay msPerDay_pos) as B.
  set (m := ((now + tz) mod msPerDay)%Z) in *.
  unfold msPerDay, msPerHour in *. split; intro H.
  - assert (16 * (60 * 60 * 1000) <= m)%Z; [|lia].
    pose proof (Z.mul_div_le m (60 * 60 * 1000) ltac:(lia)). lia.
  - apply Z.div_le_lower_bound; lia.
Qed.

(** The gated entry point writes nothing outside Monday to Friday or before
    16:00 local time; when it does run the bulk job, the local time is at or
    after the market close of a weekday, so the date it gives to a snapshot
    is never in the future. *)
Theorem gated_run_only_after_close (tz now : Z) (envOf : string -> Env)
                                   (db : Database) :
  (0 <= getDay tz now < 7)%Z /\
  ((getDay tz now = 0 \/ getDay tz now = 6 \/ getHours tz now < 16)%Z ->
   runDailyScheduler tz now envOf db = db) /\
  ((1 <= getDay tz now <= 5)%Z -> (16 <= getHours tz now)%Z ->
   runDailyScheduler tz now envOf db = scheduleDailySnapshots tz envOf db /\
   (marketClose tz now <= now < startOfDay tz now + msPerDay)%Z).
Proof.
  assert (Hday : (0 <= getDay tz now < 7)%Z).
  { unfold getDay. apply Z.mod_pos_bound. lia. }
  split; [exact Hday|]. unfold runDailyScheduler, isWeekday, isMarketClosed. split.
  - intros [H|[H|H]].
    + rewrite H. reflexivity.
    + rewrite H. reflexivity.
    + destruct ((1 <=? getDay tz now)%Z && (getDay tz now <=? 5)%Z); [|reflexivity].
      simpl. assert (E : (16 <=? getHours tz now)%Z = false) by (apply Z.leb_gt; lia).
      now rewrite E.
  - intros Hd Hh.
    assert (E1 : (1 <=? getDay tz now)%Z = true) by (apply Z.leb_le; lia).
    assert (E2 : (getDay tz now <=? 5)%Z = true) by (apply Z.leb_le; lia).
    assert (E3 : (16 <=? getHours tz now)%Z = true) by (apply Z.leb_le; lia).
    rewrite E1, E2, E3. simpl. split; [reflexivity|].
    split; [now apply getHours_close|].
    unfold startOfDay.
    pose proof (Z.mod_pos_bound (now + tz) msPerDay msPerDay_pos). lia.
Qed.

(** Thursday the first of January 1970 at 17:00 UTC passes the gate, the
    Saturday after it does not. *)
Example gate_on_a_thursday_and_a_saturday :
  (isWeekday 0 (17 * msPerHour) && isMarketClosed 0 (17 * msPerHour) = true) /\
  isWeekday 0 (2 * msPerDay + 17 * msPerHour) = false.
Proof. split; reflexivity. Qed.

Lemma gated_run_only_after_close_witness :
  runDailyScheduler 0 (2 * msPerDay + 17 * msPerHour)
    (fun _ => mkEnv 0 deadProvider noPrices) (sampleDb [sampleDeposit])
  = sampleDb [sampleDeposit].
Proof.
  apply (gated_run_only_after_close 0 (2 * msPerDay + 17 * msPerHour)).
  right. left. reflexivity.
Defined.

Lemma bulk_run_frame_witness :
  snapshotsOf "u2"
    (portfolioSnapshots
       (scheduleDailySnapshots 0 (fun _ => mkEnv sampleNow deadProvider noPrices)
          seriesDb))
  = snapshotsOf "u2" (portfolioSnapshots seriesDb).
Proof.
  apply (bulk_run_frame 0 (fun _ => mkEnv sampleNow deadProvider noPrices) seriesDb).
  reflexivity.
Defined.

(** ** Authentication header *)

Lemma slice_bearer (t : string) : slice 7 ("Bearer " ++ t) = t.
Proof. reflexivity. Qed.

Lemma startsWith_split (sub s : string) :
  startsWith sub s = true -> s = sub ++ slice (String.length sub) s.
Proof.
  revert s. induction sub as [|a sub IH]; intros s H; [reflexivity|].
  destruct s as [|b s]; [discriminate|].
  cbn [startsWith] in H. apply andb_true_iff in H. destruct H as [Hab Hs].
  apply Ascii.eqb_eq in Hab. subst b. simpl. f_equal. now apply IH.
Qed.

(** A protected handler treats a request as coming from user u exactly
    when its authorization header is 'Bearer ' followed by a non-empty token
    that [verifyToken] accepts for u; the token read from such a header is
    the text after the prefix, and a header without the prefix gives none. *)
Theorem bearer_token_is_required
    (verifyToken : string -> option string) (header : option string) (u : string) :
  (forall t, getTokenFromRequest (Some ("Bearer " ++ t)) = Some t) /\
  (forall h t, getTokenFromRequest (Some h) = Some t -> h = "Bearer " ++ t) /\
  (authenticate verifyToken header = Verified u <->
   exists t, header = Some ("Bearer " ++ t) /\ t <> EmptyString /\
             verifyToken t = Some u).
Proof.
  split; [|split].
  - intro t. reflexivity.
  - intros h t H. unfold getTokenFromRequest in H.
    destruct (negb (truthyStr (Some h)) || negb (startsWith "Bearer " h)) eqn:C;
      [discriminate|].
    injection H as <-. apply orb_false_iff in C. destruct C as [_ C].
    apply negb_false_iff in C. exact (startsWith_split "Bearer " h C).
  - unfold authenticate. split.
    + intro H.
      destruct (getTokenFromRequest
                  (Some match header with Some h => h | None => "" end))
        as [token|] eqn:G; [|discriminate].
      destruct (truthyStr (Some token)) eqn:T; [|discriminate].
      destruct (verifyToken token) as [userId|] eqn:V; [|discriminate].
      injection H as ->. exists token.
      destruct header as [h|]; [|discriminate].
      unfold getTokenFromRequest in G.
      destruct (negb (truthyStr (Some h)) || negb (startsWith "Bearer " h)) eqn:C;
        [discriminate|].
      injection G as G. apply orb_false_iff in C. destruct C as [_ C].
      apply negb_false_iff in C.
      split; [|split; [|exact V]].
      * f_equal. rewrite <- G. exact (startsWith_split "Bearer " h C).
      * intro E. subst token. rewrite E in T. discriminate.
    + intros [t [-> [Ht V]]].
      change (getTokenFromRequest (Some ("Bearer " ++ t))) with (Some t).
      destruct t as [|a t]; [contradiction|]. simpl. now rewrite V.
Qed.

(** ** User settings *)

Lemma parseCurrency_name (s : string) (c : Currency) :
  parseCurrency s = Some c <-> s = currencyName c.
Proof.
  unfold parseCurrency. split.
  - destruct (String.eqb_spec s "CAD") as [->|N1].
    + intro H. now injection H as <-.
    + destruct (String.eqb_spec s "USD") as [->|N2]; [|discriminate].
      intro H. now injection H as <-.
  - intros ->. now destruct c.
Qed.

Lemma find_updated_user (userId : string) (c : Currency) (us : list User) :
  existsb (fun u => String.eqb (u_id u) userId) us = true ->
  find (fun u => String.eqb (u_id u) userId)
       (map (fun u => if String.eqb (u_id u) userId then mkUser (u_id u) c else u) us)
  = Some (mkUser userId c).
Proof.
  induction us as [|u us IH]; simpl; [discriminate|].
  destruct (String.eqb (u_id u) userId) eqn:E; simpl.
  - intros _. rewrite E. apply String.eqb_eq in E. now rewrite E.
  - intro H. rewrite E. now apply IH.
Qed.

Lemma find_other_user (userId other : string) (c : Currency) (us : list User) :
  other <> userId ->
  find (fun u => String.eqb (u_id u) other)
       (map (fun u => if String.eqb (u_id u) userId then mkUser (u_id u) c else u) us)
  = find (fun u => String.eqb (u_id u) other) us.
Proof.
  intro Hne. induction us as [|u us IH]; simpl; [reflexivity|].
  destruct (String.eqb (u_id u) userId) eqn:E; simpl.
  - apply String.eqb_eq in E.
    assert (N : String.eqb (u_id u) other = false).
    { apply String.eqb_neq. congruence. }
    rewrite N. exact IH.
  - destruct (String.eqb (u_id u) other); [reflexivity | exact IH].
Qed.

Lemma getDaysFromRange_nonneg (range : string) : (0 <= getDaysFromRange range)%Z.
Proof.
  unfold getDaysFromRange.
  repeat match goal with |- context [if ?b then _ else _] => destruct b end; lia.
Qed.

(** Where a point of the series comes from: it carries the user's
    currency (today's point and the empty days), or it is a stored row of
    the user as it is. *)
Lemma series_point_origin
    (tz now : Z) (prices : PriceAdapter) (usdReply cadReply : RatesReply)
    (db : Database) (userId range : string) (p : ChartPoint) :
  In p (sr_data (getSeries tz now prices usdReply cadReply db userId range)) ->
  cp_currency p
  = sr_userCurrency (getSeries tz now prices usdReply cadReply db userId range) \/
  exists s, In s (portfolioSnapshots db) /\ ps_userId s = userId /\
            p = pointOfSnapshot s.
Proof.
  rewrite (series_data tz now prices usdReply cadReply db userId range
             (getDaysFromRange range) eq_refl (getDaysFromRange_nonneg range)).
  intro Hin. apply in_map_iff in Hin. destruct Hin as [i [<- _]].
  unfold pointFor.
  match goal with |- context [if ?b then _ else _] => destruct b end;
    [now left|].
  match goal with |- context [dget Z.eqb ?k ?m] =>
    pose proof (snapshotMapOf_answers
                  (snapshotsInWindow userId
                     (windowStart tz now (getDaysFromRange range))
                     (startOfDay tz now) db) k) as HA
  end.
  unfold mapAnswers in HA.
  match goal with |- context [dget Z.eqb ?k ?m] => destruct (dget Z.eqb k m) end;
    [|now left].
  destruct HA as [s [Hs [_ ->]]]. right. exists s.
  apply in_snapshotsInWindow in Hs. destruct Hs as [Hin [Hu _]]. auto.
Qed.

(** The four outcomes of the settings handler. *)
Lemma putSettings_cases (auth : Auth) (cur : Json) (db : Database) :
  ((auth = NoToken \/ auth = InvalidToken) /\
   putSettings auth cur db = (SettingsUnauthorized, db)) \/
  (exists userId, auth = Verified userId /\
     (forall c, cur <> JStr (currencyName c)) /\
     putSettings auth cur db = (SettingsBadRequest, db)) \/
  (exists userId c, auth = Verified userId /\ cur = JStr (currencyName c) /\
     (forall u, In u (users db) -> u_id u <> userId) /\
     putSettings auth cur db = (SettingsError, db)) \/
  (exists userId c, auth = Verified userId /\ cur = JStr (currencyName c) /\
     (exists u, In u (users db) /\ u_id u = userId) /\
     existsb (fun u => String.eqb (u_id u) userId) (users db) = true /\
     putSettings auth cur db
     = (SettingsUpdated (mkUser userId c),
        mkDatabase
          (map (fun u => if String.eqb (u_id u) userId then mkUser (u_id u) c else u)
               (users db))
          (transactions db) (exchangeRates db) (portfolioSnapshots db))).
Proof.
  unfold putSettings.
  destruct auth as [| |userId]; [left; auto | left; auto | right].
  assert (Hbad : forall s, parseCurrency s = None ->
                           forall c, JStr s <> JStr (currencyName c)).
  { intros s P c E. injection E as ->.
    assert (parseCurrency (currencyName c) = Some c) by (now apply parseCurrency_name).
    congruence. }
  destruct cur as [| | | |s|];
    try (left; exists userId; repeat split; auto; intros c E; discriminate).
  destruct (parseCurrency s) as [c|] eqn:P.
  - apply parseCurrency_name in P. subst s. right.
    destruct (existsb (fun u => String.eqb (u_id u) userId) (users db)) eqn:X.
    + right. exists userId, c. repeat split; auto.
      apply existsb_exists in X. destruct X as [u [Hin Hu]].
      exists u. split; [exact Hin | now apply String.eqb_eq].
    + left. exists userId, c. repeat split; auto.
      intros u Hin Hu.
      assert (existsb (fun u => String.eqb (u_id u) userId) (users db) = true).
      { apply existsb_exists. exists u. split; [exact Hin | now apply String.eqb_eq]. }
      congruence.
  - left. exists userId. repeat split; auto.
Qed.

(** The settings handler accepts a request exactly when it is
    authenticated, names 'CAD' or 'USD', and the user exists; without a
    valid token the answer is 401, with any other value 400, and for a user
    who does not exist 500.  After an accepted update that user's default
    currency is the requested one and every other user and every other
    table are as before.  The snapshot series of the user then reports the
    new currency as the user's, and carries it on today's point and on the
    empty days; a point taken from a stored snapshot is that row as
    written, in the currency it was stored with.  Any refusal leaves the
    store unchanged. *)
Theorem settings_update
    (auth : Auth) (cur : Json) (db db' : Database)
    (r : SettingsResponse) :
  putSettings auth cur db = (r, db') ->
  ((exists user, r = SettingsUpdated user) <->
   exists userId c, auth = Verified userId /\ cur = JStr (currencyName c) /\
                    exists u, In u (users db) /\ u_id u = userId) /\
  (auth = NoToken \/ auth = InvalidToken -> r = SettingsUnauthorized) /\
  (forall userId, auth = Verified userId ->
     (forall c, cur <> JStr (currencyName c)) -> r = SettingsBadRequest) /\
  (forall userId c, auth = Verified userId -> cur = JStr (currencyName c) ->
     (forall u, In u (users db) -> u_id u <> userId) -> r = SettingsError) /\
  (forall user, r = SettingsUpdated user ->
     exists c,
       auth = Verified (u_id user) /\
       cur = JStr (currencyName c) /\
       user = mkUser (u_id user) c /\
       findUser (u_id user) db' = Some user /\
       (forall other, other <> u_id user -> findUser other db' = findUser other db) /\
       transactions db' = transactions db /\
       exchangeRates db' = exchangeRates db /\
       portfolioSnapshots db' = portfolioSnapshots db /\
       (forall tz now prices usdReply cadReply range,
          sr_userCurrency
            (getSeries tz now prices usdReply cadReply db' (u_id user) range) = c /\
          forall p,
            In p (sr_data (getSeries tz now prices usdReply cadReply db'
                                     (u_id user) range)) ->
            cp_currency p = c \/
            exists s, In s (portfolioSnapshots db) /\ ps_userId s = u_id user /\
                      p = pointOfSnapshot s)) /\
  ((forall user, r <> SettingsUpdated user) -> db' = db).
Proof.
  intro H.
  destruct (putSettings_cases auth cur db)
    as [[Ha E]|[[userId [-> [Hn E]]]|[[userId [c [-> [-> [Hno E]]]]]
        |[userId [c [-> [-> [Hex [X E]]]]]]]]];
    rewrite E in H; injection H as <- <-.
  - split; [|split; [|split; [|split; [|split]]]]; try reflexivity.
    + split; [intros [user U]; discriminate|].
      intros [u [c [-> _]]]. destruct Ha; discriminate.
    + intros u ->. destruct Ha; discriminate.
    + intros u c ->. destruct Ha; discriminate.
    + intros user U. discriminate.
  - split; [|split; [|split; [|split; [|split]]]]; try reflexivity.
    + split; [intros [user U]; discriminate|].
      intros [u [c [_ [U _]]]]. now destruct (Hn c).
    + intros [U|U]; discriminate.
    + intros u c _ U. now destruct (Hn c).
    + intros user U. discriminate.
  - split; [|split; [|split; [|split; [|split]]]]; try reflexivity.
    + split; [intros [user U]; discriminate|].
      intros [u [c' [U [_ [u0 [Hin Hu]]]]]]. injection U as <-.
      now destruct (Hno u0).
    + intros [U|U]; discriminate.
    + intros u _ Hn. now destruct (Hn c).
    + intros user U. discriminate.
  - pose proof (find_updated_user userId c (users db) X) as F.
    split; [|split; [|split; [|split; [|split]]]].
    + split; [|eauto]. intros _. exists userId, c. auto.
    + intros [U|U]; discriminate.
    + intros u _ Hn. now destruct (Hn c).
    + intros u c' U _ Hno. injection U as <-.
      destruct Hex as [u0 [Hin Hu]]. now destruct (Hno u0).
    + intros user U. injection U as <-. exists c. simpl.
      repeat split; try reflexivity.
      * exact F.
      * intros other Hne. unfold findUser. simpl. now apply find_other_user.
      * unfold getSeries, findUser. simpl. now rewrite F.
      * intros p Hp. apply series_point_origin in Hp.
        destruct Hp as [Hp|Hp]; [left | now right].
        rewrite Hp. unfold getSeries, findUser. simpl. now rewrite F.
    + intro Hn. now destruct (Hn (mkUser userId c)).
Qed.

Lemma settings_update_witness :
  findUser "u1" (snd (putSettings (Verified "u1") (JStr "USD") seriesDb))
  = Some (mkUser "u1" USD).
Proof.
  destruct (settings_update (Verified "u1") (JStr "USD") seriesDb
              (snd (putSettings (Verified "u1") (JStr "USD") seriesDb))
              (SettingsUpdated (mkUser "u1" USD)) eq_refl) as [_ [_ [_ [_ [P _]]]]].
  destruct (P (mkUser "u1" USD) eq_refl) as [c [_ [_ [_ [F _]]]]].
  exact F.
Defined.

(** After the user of the sample store switches to USD, the old snapshot
    is still charted as 950 CAD, between points in USD. *)
Example series_after_currency_switch :
  map (fun p => (cp_date p, Qred (cp_value p), cp_currency p))
      (sr_data (getSeries 0 sampleNow noPrices ReplyThrows ReplyThrows
                  (snd (putSettings (Verified "u1") (JStr "USD") seriesDb))
                  "u1" "7d"))
  = [(93%Z, 0, USD); (94%Z, 0, USD); (95%Z, 0, USD); (96%Z, 0, USD);
     (97%Z, 950, CAD); (98%Z, 0, USD); (99%Z, 0, USD); (100%Z, 730, USD)].
Proof. vm_compute. reflexivity. Qed.

(** ** Ledger write boundary: what is stored *)

Lemma upperChar_fixed (a : ascii) : upperChar (upperChar a) = upperChar a.
Proof.
  destruct a as [[] [] [] [] [] [] [] []]; reflexivity.
Qed.

Lemma toUpperCase_fixed (s : string) : toUpperCase (toUpperCase s) = toUpperCase s.
Proof.
  induction s as [|a s IH]; simpl; [reflexivity|].
  now rewrite upperChar_fixed, IH.
Qed.

(** The ledger is append-only at the write boundary: a request either
    leaves the table as it is (401, 400 or 500) or appends exactly one row,
    owned by the authenticated user; its symbol is the request's symbol, a
    string, in upper case, its type and currency are the ones that the
    request names, its quantity and price are what [parseFloat] reads from
    the request's fields, and its date is the request's date when that
    field is truthy and the time of the request otherwise; earlier rows are
    never changed.  An accepted symbol is [CASH], or the directory could
    not be read, or it is an active entry of the directory; and a request
    whose five required fields are truthy and readable, with such a symbol
    and a usable date, is accepted. *)
Theorem ledger_is_append_only
    (parseDate : string -> option Z) (now : Z) (auth : Auth)
    (tickers : TickerDirectory) (rq : TransactionRequest)
    (table : list Transaction) :
  (forall r table',
     postTransaction parseDate now auth tickers rq table = (r, table') ->
     (table' = table /\ (r = Unauthorized \/ r = BadRequest \/ r = ServerError)) \/
     (exists t symbol,
        r = Created t /\ table' = (table ++ [t])%list /\
        auth = Verified (tx_userId t) /\
        rq_symbol rq = JStr symbol /\
        tx_symbol t = toUpperCase symbol /\
        parseType (rq_type rq) = Some (tx_type t) /\
        parseFloat (rq_quantity rq) = Some (tx_quantity t) /\
        parseFloat (rq_price rq) = Some (tx_price t) /\
        parseCurrencyField (rq_currency rq) = Some (tx_currency t) /\
        (truthy (rq_date rq) = true ->
         newDate parseDate (rq_date rq) = Some (tx_date t)) /\
        (truthy (rq_date rq) = false -> tx_date t = now))) /\
  (forall t table',
     postTransaction parseDate now auth tickers rq table = (Created t, table') ->
     tx_symbol t = "CASH" \/ tickers = None \/
     exists active, tickers = Some active /\ In (tx_symbol t) active) /\
  (forall userId symbol type quantity price currency date,
     auth = Verified userId ->
     rq_symbol rq = JStr symbol -> symbol <> "" ->
     parseType (rq_type rq) = Some type ->
     truthy (rq_quantity rq) = true -> parseFloat (rq_quantity rq) = Some quantity ->
     truthy (rq_price rq) = true -> parseFloat (rq_price rq) = Some price ->
     parseCurrencyField (rq_currency rq) = Some currency ->
     (if truthy (rq_date rq) then newDate parseDate (rq_date rq) else Some now)
     = Some date ->
     toUpperCase symbol = "CASH" \/ tickers = None \/
     (exists active, tickers = Some active /\ In (toUpperCase symbol) active) ->
     postTransaction parseDate now auth tickers rq table
     = (Created (mkTransaction userId (toUpperCase symbol) type quantity price
                               currency date),
        (table ++ [mkTransaction userId (toUpperCase symbol) type quantity price
                                 currency date])%list)).
Proof.
  split; [|split].
  - destruct (postTransaction_cases parseDate now auth tickers rq table)
      as [[r0 [H0 Hr0]]|[userId [symbol [type [quantity [price [currency [date
           [Ha [Hs [Hne [Ht [Tq [Hq [Tp [Hp [Hc [Hd [Hv H]]]]]]]]]]]]]]]]]]].
    + intros r table' H. rewrite H0 in H. injection H as <- <-. now left.
    + intros r table' H'. rewrite H in H'. injection H' as <- <-. right.
      eexists. exists symbol. split; [reflexivity|]. simpl.
      repeat split; auto.
      * intro Td. now rewrite Td in Hd.
      * intro Td. rewrite Td in Hd. now injection Hd as <-.
  - destruct (postTransaction_cases parseDate now auth tickers rq table)
      as [[r0 [H0 Hr0]]|[userId [symbol [type [quantity [price [currency [date
           [Ha [Hs [Hne [Ht [Tq [Hq [Tp [Hp [Hc [Hd [Hv H]]]]]]]]]]]]]]]]]]].
    + intros t table' H. rewrite H0 in H. injection H as E _.
      destruct Hr0 as [->|[->| ->]]; discriminate.
    + intros t table' H'. rewrite H in H'. injection H' as <- _. exact Hv.
  - intros userId symbol type quantity price currency date
           -> Hs Hne Ht Tq Hq Tp Hp Hc Hd Hv.
    unfold postTransaction. rewrite Hs, Ht, Tq, Hq, Tp, Hp, Hc, Hd.
    assert (Tt : truthy (rq_type rq) = true).
    { destruct (rq_type rq) as [| | | |s0|]; try discriminate.
      apply truthy_text. intros ->. discriminate. }
    assert (Tc : truthy (rq_currency rq) = true).
    { destruct (rq_currency rq) as [| | | |s0|]; try discriminate.
      apply truthy_text. intros ->. discriminate. }
    rewrite Tt, Tc. apply truthy_text in Hne. rewrite Hne. simpl.
    destruct (String.eqb_spec (toUpperCase symbol) "CASH") as [E|N]; [reflexivity|].
    destruct Hv as [Hv|[->|[active [-> Hin]]]]; [contradiction | reflexivity |].
    apply listed_in in Hin. unfold listed in Hin. now rewrite Hin.
Qed.

Lemma ledger_is_append_only_witness :
  postTransaction noDates 0 (Verified "u1") (Some ["X"]) (sampleRequest (JStr "3")) []
  = (Created (mkTransaction "u1" "X" BUY 3 100 USD 0),
     [mkTransaction "u1" "X" BUY 3 100 USD 0]).
Proof.
  destruct (ledger_is_append_only noDates 0 (Verified "u1") (Some ["X"])
              (sampleRequest (JStr "3")) []) as [_ [_ P]].
  apply (P "u1" "x" BUY 3 100 USD 0%Z); try reflexivity.
  - discriminate.
  - right. right. exists ["X"]. split; [reflexivity | now left].
Defined.

(** ** Snapshot write path, then read path *)

Lemma close_day_key (tz t : Z) :
  (- (8 * msPerHour) < tz <= 0)%Z ->
  dateKey (marketClose tz t) = ((t + tz) / msPerDay)%Z.
Proof.
  intro Htz. unfold marketClose. rewrite startOfDay_local.
  replace (msPerDay * ((t + tz) / msPerDay) - tz + 16 * msPerHour)%Z
    with (msPerDay * ((t + tz) / msPerDay) + (16 * msPerHour - tz))%Z by ring.
  apply dateKey_within. unfold msPerDay, msPerHour in *. lia.
Qed.

Lemma close_same_day (tz : Z) (a b : PortfolioSnapshot) :
  (- (8 * msPerHour) < tz <= 0)%Z ->
  writtenAtClose tz a -> writtenAtClose tz b ->
  dateKey (ps_date a) = dateKey (ps_date b) ->
  ps_date a = ps_date b.
Proof.
  intros Htz [ta Ha] [tb Hb] Hk. rewrite Ha, Hb in *.
  rewrite !close_day_key in Hk by exact Htz.
  unfold marketClose. rewrite !startOfDay_local. now rewrite Hk.
Qed.

Lemma unique_row (rows : list PortfolioSnapshot) (a b : PortfolioSnapshot) :
  uniqueSnapshots rows -> In a rows -> In b rows ->
  snapshotKey a = snapshotKey b -> a = b.
Proof.
  unfold uniqueSnapshots. induction rows as [|x rows IH]; simpl; intros Hnd Ha Hb Hk.
  - destruct Ha.
  - inversion Hnd as [|? ? Hn Hr]; subst.
    destruct Ha as [<-|Ha], Hb as [<-|Hb]; auto.
    + destruct Hn. rewrite Hk. now apply in_map.
    + destruct Hn. rewrite <- Hk. now apply in_map.
Qed.

Lemma charted_row
    (tz now : Z) (prices : PriceAdapter) (usdReply cadReply : RatesReply)
    (db : Database) (userId range : string) (days : Z) (s : PortfolioSnapshot) :
  In (range, days) supportedRanges ->
  (- (8 * msPerHour) < tz <= 0)%Z ->
  uniqueSnapshots (portfolioSnapshots db) ->
  (forall s', In s' (portfolioSnapshots db) -> ps_userId s' = userId ->
              writtenAtClose tz s') ->
  In s (portfolioSnapshots db) ->
  ps_userId s = userId ->
  (dateKey (startOfDay tz now) - days <= dateKey (ps_date s)
   < dateKey (startOfDay tz now))%Z ->
  exists i p,
    nth_error (sr_data (getSeries tz now prices usdReply cadReply db userId range)) i
    = Some p /\
    cp_date p = dateKey (ps_date s) /\
    cp_value p = ps_totalValue s /\
    cp_currency p = ps_currency s.
Proof.
  intros Hr Htz Hu Hclose Hin Huser Hk.
  destruct (supportedRanges_days range days Hr) as [Hd Hpos].
  pose proof (series_data tz now prices usdReply cadReply db userId range days
                Hd Hpos) as Hdata.
  set (todayKey := dateKey (startOfDay tz now)) in *.
  set (i := Z.to_nat (dateKey (ps_date s) - (todayKey - days))).
  assert (Hi : (todayKey - days + Z.of_nat i)%Z = dateKey (ps_date s)).
  { unfold i. rewrite Z2Nat.id by lia. ring. }
  exists i. rewrite Hdata, nth_error_map, nth_error_seq.
  assert (Hlt : (i <? S (Z.to_nat days))%nat = true) by (apply Nat.ltb_lt; unfold i; lia).
  rewrite Hlt. simpl option_map. eexists. split; [reflexivity|].
  unfold pointFor. rewrite window_day_key. fold todayKey. rewrite Hi.
  destruct (Z.eqb_spec (dateKey (ps_date s)) todayKey) as [E|N]; [lia|].
  pose proof (snapshotMapOf_answers
                (snapshotsInWindow userId (windowStart tz now days)
                                   (startOfDay tz now) db)
                (dateKey (ps_date s))) as HA.
  unfold mapAnswers in HA.
  assert (Hw : inWindow userId (windowStart tz now days) (startOfDay tz now) db s).
  { apply close_window_by_day; auto. }
  destruct (dget Z.eqb (dateKey (ps_date s)) _) as [p|].
  - destruct HA as [s' [Hin' [Hk' ->]]].
    apply in_snapshotsInWindow in Hin'. destruct Hin' as [Hin' [Hu' _]].
    assert (Es : s' = s).
    { apply (unique_row (portfolioSnapshots db) s' s Hu Hin' Hin).
      unfold snapshotKey. f_equal; [congruence|].
      apply (close_same_day tz s' s Htz);
        [now apply Hclose | now apply Hclose | exact Hk']. }
    subst s'. simpl. auto.
  - destruct (HA s); [|reflexivity]. now apply in_snapshotsInWindow.
Qed.

(** What the write path stores is what the read path charts: when
    [createPortfolioSnapshot] values a user's portfolio on one day at a
    total that fits the column, a series requested on a later day whose
    window reaches back to that day shows, at that day, the total rounded
    to two decimals (at most 0.005 away from the computed total) in the
    currency of the valuation.  This is for a process less than eight hours
    west of UTC (or in UTC) and a table that only the write path has
    written. *)
Theorem written_snapshot_is_charted
    (tz now1 now2 : Z) (provider : Provider) (prices1 prices2 : PriceAdapter)
    (usdReply cadReply : RatesReply) (db : Database) (userId range : string)
    (days : Z) (v : Q) (c : Currency) (rows : list ExchangeRate) :
  In (range, days) supportedRanges ->
  (- (8 * msPerHour) < tz <= 0)%Z ->
  uniqueSnapshots (portfolioSnapshots db) ->
  (forall s, In s (portfolioSnapshots db) -> writtenAtClose tz s) ->
  snapshotValuation now1 provider prices1 userId db = (Valued v c, rows) ->
  fitsDecimal15_2 v = true ->
  (dateKey (startOfDay tz now2) - days <= dateKey (marketClose tz now1)
   < dateKey (startOfDay tz now2))%Z ->
  exists i p,
    nth_error
      (sr_data (getSeries tz now2 prices2 usdReply cadReply
                  (createPortfolioSnapshot tz now1 provider prices1 userId db)
                  userId range)) i
    = Some p /\
    cp_date p = dateKey (marketClose tz now1) /\
    cp_value p = toDecimal2 v /\
    Qabs (cp_value p - v) <= 1 # 200 /\
    cp_currency p = c.
Proof.
  intros Hr Htz Hu Hclose Hval Hfit Hk.
  set (db1 := createPortfolioSnapshot tz now1 provider prices1 userId db).
  set (s := mkSnapshot userId (marketClose tz now1) (toDecimal2 v) c).
  assert (Hrows : portfolioSnapshots db1
                  = upsertRow userId (marketClose tz now1) (toDecimal2 v) c
                              (portfolioSnapshots db)).
  { unfold db1. rewrite (createPortfolioSnapshot_valued _ _ _ _ _ _ _ _ _ Hval).
    now rewrite Hfit. }
  assert (Hin : In s (portfolioSnapshots db1)).
  { rewrite Hrows.
    assert (Hs : In s (snapshotsAt userId (marketClose tz now1)
                         (upsertRow userId (marketClose tz now1) (toDecimal2 v) c
                                    (portfolioSnapshots db)))).
    { rewrite upsert_one_row by exact Hu. now left. }
    unfold snapshotsAt in Hs. apply filter_In in Hs. apply Hs. }
  destruct (charted_row tz now2 prices2 usdReply cadReply db1 userId range days s)
    as [i [p [Hp [Hd [Hv Hc]]]]]; auto.
  - unfold db1. now apply createPortfolioSnapshot_unique.
  - intros s' Hs' _. rewrite Hrows in Hs'. apply upsert_origin in Hs'.
    destruct Hs' as [Hold|[_ Hdate]]; [now apply Hclose|].
    exists now1. exact Hdate.
  - exists i, p. repeat split; auto.
    rewrite Hv. apply toDecimal2_close.
Qed.

Lemma written_snapshot_is_charted_witness :
  exists i p,
    nth_error
      (sr_data (getSeries 0 laterNow noPrices ReplyThrows ReplyThrows
                  (createPortfolioSnapshot 0 sampleNow sampleProvider sampleCents "u1"
                     (sampleDb [sampleBuyX]))
                  "u1" "7d")) i
    = Some p /\
    cp_date p = dateKey (marketClose 0 sampleNow) /\
    cp_value p = toDecimal2 (0 + 10 * (3375 # 10000)) /\
    Qabs (cp_value p - (0 + 10 * (3375 # 10000))) <= 1 # 200 /\
    cp_currency p = CAD.
Proof.
  apply (written_snapshot_is_charted 0 sampleNow laterNow sampleProvider
           sampleCents noPrices ReplyThrows ReplyThrows (sampleDb [sampleBuyX])
           "u1" "7d" 7 (0 + 10 * (3375 # 10000)) CAD []).
  - now left.
  - vm_compute. split; [reflexivity | discriminate].
  - constructor.
  - intros s [].
  - reflexivity.
  - reflexivity.
  - vm_compute. split; [discriminate | reflexivity].
Defined.
